(** * SnapPosition: the capture-and-aggregation pipeline

    A shallow embedding of [src/logger.py] (class [MouseLogger]) and of
    [src/processor.py] ([process_data], [_calculate_stats],
    [_detect_acceleration], [get_hesitation_zones]), with the properties the
    specification states about them.

    Numbers.  Pixel coordinates and counters are Python [int]s: [Z].
    Timestamps, speeds and dwell times are Python [float]s; a float is
    modelled by the rational it denotes ([Q]), compared with the boolean
    tests of [QArith], and sums, products and quotients of floats by the
    exact operations.  The speed difference that [_detect_acceleration]
    compares with its threshold is rounded to binary64 as the machine rounds
    it ([float_sub]), since the rounding decides which indices are reported.
    [int(a / b)] on two integers is the quotient truncated toward zero
    ([Z.quot]), which is what the float division followed by [int] gives for
    operands below 2^53.  The cells of the heatmap are floats that only ever
    hold counts; they are integers ([Z]).  The square root ([math.sqrt],
    [np.sqrt]) is not a rational function: it is a parameter of the
    development, and so is [np.argsort], whose order on equal values numpy
    leaves to the sorting algorithm.

    Exceptions.  A Python exception is a value of [exn]; code that can raise
    returns a [result]. *)

From Stdlib Require Import ZArith QArith Qabs Qround Lia Lqa Bool.
From Stdlib Require Import Sorting.Sorted Sorting.Permutation.
From stdpp Require Import base option list sorting strings gmap.

Set Default Proof Using "Type".

(** ** Exceptions and results *)

Inductive exn : Set :=
| ZeroDivisionError
| IndexError
| ValueError
| CaptureUnavailable.

Inductive result (A : Type) : Type :=
| Ok (a : A)
| Raise (e : exn).

Arguments Ok {A} a.
Arguments Raise {A} e.

Definition rbind {A B} (m : result A) (k : A -> result B) : result B :=
  match m with
  | Ok a => k a
  | Raise e => Raise e
  end.

Declare Scope result_scope.
Delimit Scope result_scope with result.
Notation "'let*' x ':=' m 'in' k" := (rbind m (fun x => k))
  (at level 10, x pattern, m at level 100, k at level 200) : result_scope.

(** ** Float helpers *)

Definition Qlt_bool (a b : Q) : bool := negb (Qle_bool b a).

(** [a / b] on floats: a zero divisor raises. *)
Definition float_div (a b : Q) : result Q :=
  if Qeq_bool b 0 then Raise ZeroDivisionError else Ok (a / b)%Q.

(** Rounding to the nearest integer, ties to even. *)
Definition round_half_even (q : Q) : Z :=
  let n := Qfloor q in
  match (q - inject_Z n ?= 1 # 2)%Q with
  | Lt => n
  | Gt => (n + 1)%Z
  | Eq => if Z.even n then n else (n + 1)%Z
  end.

(** [round(q, 2)]. *)
Definition round2 (q : Q) : Q := (round_half_even (q * 100) # 100)%Q.

(** [floor (log2 |q|)], the binary exponent of a rational other than 0. *)
Definition binary_exponent (q : Q) : Z :=
  let e := (Z.log2 (Z.abs (Qnum q)) - Z.log2 (Zpos (Qden q)))%Z in
  if Qle_bool (2 ^ e) (Qabs q) then e else (e - 1)%Z.

(** The binary64 number nearest to a rational, ties to the even
    significand: what one IEEE 754 operation returns when its exact result
    is [q].  A number of binary exponent [e] is rounded to a multiple of
    [2^(e - 52)], and of [2^-1074] in the subnormal range.  Past the largest
    finite double the machine gives an infinity; the model keeps the rounded
    value with the exponent unbounded, which is at least [2^1024] and so
    above every finite double, as the infinity is. *)
Definition round_binary64 (q : Q) : Q :=
  if Qeq_bool q 0 then 0
  else
    let quantum := (2 ^ Z.max (binary_exponent q - 52) (-1074))%Q in
    (inject_Z (round_half_even (q / quantum)) * quantum)%Q.

(** [a - b] on floats. *)
Definition float_sub (a b : Q) : Q := round_binary64 (a - b).

(** ** Events *)

(** The dictionary [{"x", "y", "speed", "click", "timestamp"}] the logger
    builds and the processor reads. *)
Record event : Type := mk_event {
  ev_x : Z;
  ev_y : Z;
  ev_speed : Q;
  ev_click : bool;
  ev_timestamp : Q
}.

(** ** The mouse logger ([src/logger.py]) *)

Module Logger.

(** What the platform does when [start] installs the input hook:
    [mouse.Listener(...)] may raise, [listener.start()] may raise, or both
    succeed. *)
Inductive hook_outcome : Set :=
| HookInstalled
| ListenerCtorFails
| ListenerStartFails.

(** The fields of a [MouseLogger].  [_listener] is [Some tt] when a listener
    object is stored and [None] for Python's [None]; the lock is not
    modelled (one thread). *)
Record logger : Type := mk_logger {
  _data : list event;
  _listener : option unit;
  _is_running : bool;
  _sample_rate : Q;
  _last_sample_time : Q;
  _last_position : Z * Z;
  _last_timestamp : Q
}.

(** [MouseLogger.__init__]. *)
Definition __init__ (sample_rate : Q) : logger :=
  {| _data := [];
     _listener := None;
     _is_running := false;
     _sample_rate := sample_rate;
     _last_sample_time := 0;
     _last_position := (0%Z, 0%Z);
     _last_timestamp := 0 |}.

Definition default_sample_rate : Q := 5 # 100.

(** A method call: the outcome and the object afterwards.  A raised
    exception keeps the assignments made before it. *)
Definition method (A : Type) : Type := logger -> result A * logger.

Section WithSqrt.

Variable sqrt : Q -> Q.

Definition _calculate_speed (self : logger) (x y : Z) (timestamp : Q)
  : result Q :=
  if Qeq_bool (_last_timestamp self) 0 then Ok 0%Q
  else
    let time_delta := (timestamp - _last_timestamp self)%Q in
    if Qle_bool time_delta 0 then Ok 0%Q
    else
      let dx := (x - fst (_last_position self))%Z in
      let dy := (y - snd (_last_position self))%Z in
      let distance := sqrt (inject_Z (dx * dx + dy * dy)) in
      float_div distance time_delta.

(** [current_time] is the value [time.time()] returns in the call. *)
Definition _on_move (x y : Z) (current_time : Q) : method unit :=
  fun self =>
    if Qlt_bool (current_time - _last_sample_time self) (_sample_rate self)
    then (Ok tt, self)
    else
      match _calculate_speed self x y current_time with
      | Raise e => (Raise e, self)
      | Ok speed =>
          let event := {| ev_x := x; ev_y := y; ev_speed := round2 speed;
                          ev_click := false; ev_timestamp := current_time |} in
          (Ok tt,
           {| _data := _data self ++ [event];
              _listener := _listener self;
              _is_running := _is_running self;
              _sample_rate := _sample_rate self;
              _last_sample_time := current_time;
              _last_position := (x, y);
              _last_timestamp := current_time |})
      end.

Definition _on_click (x y : Z) (pressed : bool) (current_time : Q)
  : method unit :=
  fun self =>
    if negb pressed then (Ok tt, self)
    else
      match _calculate_speed self x y current_time with
      | Raise e => (Raise e, self)
      | Ok speed =>
          let event := {| ev_x := x; ev_y := y; ev_speed := round2 speed;
                          ev_click := true; ev_timestamp := current_time |} in
          (Ok tt,
           {| _data := _data self ++ [event];
              _listener := _listener self;
              _is_running := _is_running self;
              _sample_rate := _sample_rate self;
              _last_sample_time := _last_sample_time self;
              _last_position := (x, y);
              _last_timestamp := current_time |})
      end.

End WithSqrt.

Definition start (hook : hook_outcome) : method unit :=
  fun self =>
    if _is_running self then (Ok tt, self)
    else
      let self1 :=
        {| _data := _data self;
           _listener := _listener self;
           _is_running := true;
           _sample_rate := _sample_rate self;
           _last_sample_time := 0;
           _last_position := _last_position self;
           _last_timestamp := 0 |} in
      let self2 :=
        {| _data := _data self1;
           _listener := Some tt;
           _is_running := _is_running self1;
           _sample_rate := _sample_rate self1;
           _last_sample_time := _last_sample_time self1;
           _last_position := _last_position self1;
           _last_timestamp := _last_timestamp self1 |} in
      match hook with
      | ListenerCtorFails => (Raise CaptureUnavailable, self1)
      | ListenerStartFails => (Raise CaptureUnavailable, self2)
      | HookInstalled => (Ok tt, self2)
      end.

Definition stop : method unit :=
  fun self =>
    if negb (_is_running self) then (Ok tt, self)
    else
      (Ok tt,
       {| _data := _data self;
          _listener := None;
          _is_running := false;
          _sample_rate := _sample_rate self;
          _last_sample_time := _last_sample_time self;
          _last_position := _last_position self;
          _last_timestamp := _last_timestamp self |}).

Definition get_data : method (list event) :=
  fun self => (Ok (_data self), self).

Definition clear_data : method unit :=
  fun self =>
    (Ok tt,
     {| _data := [];
        _listener := _listener self;
        _is_running := _is_running self;
        _sample_rate := _sample_rate self;
        _last_sample_time := _last_sample_time self;
        _last_position := (0%Z, 0%Z);
        _last_timestamp := 0 |}).

Definition is_running : method bool :=
  fun self => (Ok (_is_running self), self).

Definition event_count : method Z :=
  fun self => (Ok (Z.of_nat (length (_data self))), self).

(** *** Vocabulary of the properties *)

(** The squared distance from the last position, as [_calculate_speed]
    computes it. *)
Definition squared_distance (self : logger) (x y : Z) : Z :=
  let dx := (x - fst (_last_position self))%Z in
  let dy := (y - snd (_last_position self))%Z in
  (dx * dx + dy * dy)%Z.

(** Every event of the buffer has a non-negative speed. *)
Definition speeds_nonneg (self : logger) : Prop :=
  Forall (fun e => (0 <= ev_speed e)%Q) (_data self).

End Logger.

(** ** The data processor ([src/processor.py]) *)

Module Processor.

Local Open Scope result_scope.

(** *** Python and numpy primitives *)

(** [int(a / b)] on two integers. *)
Definition int_div (a b : Z) : result Z :=
  if (b =? 0)%Z then Raise ZeroDivisionError else Ok (Z.quot a b).

(** [min(l)] and [max(l)]: an empty argument raises. *)
Definition py_min (l : list Z) : result Z :=
  match l with
  | [] => Raise ValueError
  | v :: rest => Ok (foldl Z.min v rest)
  end.

Definition py_max (l : list Z) : result Z :=
  match l with
  | [] => Raise ValueError
  | v :: rest => Ok (foldl Z.max v rest)
  end.

(** [l[i]] for [0 <= i]. *)
Definition list_get {A} (l : list A) (i : nat) : result A :=
  match l !! i with
  | Some v => Ok v
  | None => Raise IndexError
  end.

(** A [for] loop whose body may raise. *)
Fixpoint for_each {A S} (body : S -> A -> result S) (l : list A) (s : S)
  : result S :=
  match l with
  | [] => Ok s
  | a :: rest => let* s' := body s a in for_each body rest s'
  end.

(** [l[:n]]: a negative [n] counts from the end. *)
Definition slice_to {A} (l : list A) (n : Z) : list A :=
  if (0 <=? n)%Z then take (Z.to_nat n) l
  else take (length l - Z.to_nat (- n)) l.

(** The value at flat index [i] of a float array ([0] past the end). *)
Definition cell (l : list Q) (i : nat) : Q := default 0%Q (l !! i).

(** A two-dimensional numpy array: its shape and its cells in row-major
    order.  [np.array([])] has no cell; it is the array of shape 0 x 0. *)
Record ndarray (A : Type) : Type := mk_ndarray {
  nd_rows : nat;
  nd_cols : nat;
  nd_flat : list A
}.

Arguments mk_ndarray {A} _ _ _.
Arguments nd_rows {A} _.
Arguments nd_cols {A} _.
Arguments nd_flat {A} _.

Definition np_empty {A} : ndarray A := mk_ndarray 0 0 [].

Definition np_zeros {A} (zero : A) (rows cols : Z) : ndarray A :=
  mk_ndarray (Z.to_nat rows) (Z.to_nat cols)
             (replicate (Z.to_nat rows * Z.to_nat cols) zero).

Definition nd_size {A} (a : ndarray A) : nat := (nd_rows a * nd_cols a)%nat.

(** An index along an axis of length [n]: negative indices count from the
    end, anything outside [-n, n) raises. *)
Definition np_index (n : nat) (i : Z) : result nat :=
  if ((0 <=? i) && (i <? Z.of_nat n))%Z then Ok (Z.to_nat i)
  else if ((- Z.of_nat n <=? i) && (i <? 0))%Z
       then Ok (Z.to_nat (Z.of_nat n + i))
       else Raise IndexError.

Definition nd_offset {A} (a : ndarray A) (i j : Z) : result nat :=
  let* r := np_index (nd_rows a) i in
  let* c := np_index (nd_cols a) j in
  Ok (r * nd_cols a + c)%nat.

(** [a[i, j]]. *)
Definition nd_get {A} (a : ndarray A) (i j : Z) : result A :=
  let* k := nd_offset a i j in list_get (nd_flat a) k.

(** [a[i, j] = f(a[i, j])], the in-place update of one cell. *)
Definition nd_update {A} (f : A -> A) (a : ndarray A) (i j : Z)
  : result (ndarray A) :=
  let* k := nd_offset a i j in
  Ok (mk_ndarray (nd_rows a) (nd_cols a) (alter f k (nd_flat a))).

(** [np.unravel_index(idx, a.shape)]. *)
Definition np_unravel_index {A} (idx : nat) (a : ndarray A)
  : result (Z * Z) :=
  if (idx <? nd_size a)%nat
  then Ok (Z.of_nat (idx / nd_cols a), Z.of_nat (idx mod nd_cols a))
  else Raise ValueError.

Definition sumZ (l : list Z) : Z := foldr Z.add 0%Z l.
Definition sumQ (l : list Q) : Q := foldr Qplus 0%Q l.

(** [a.sum()]. *)
Definition nd_sum (a : ndarray Z) : Z := sumZ (nd_flat a).

Definition Qmax (a b : Q) : Q := if Qle_bool a b then b else a.
Definition Qmin (a b : Q) : Q := if Qle_bool a b then a else b.

Definition np_mean (l : list Q) : Q :=
  (sumQ l / inject_Z (Z.of_nat (length l)))%Q.

Definition np_max (l : list Q) : result Q :=
  match l with
  | [] => Raise ValueError
  | v :: rest => Ok (foldl Qmax v rest)
  end.

Definition np_min (l : list Q) : result Q :=
  match l with
  | [] => Raise ValueError
  | v :: rest => Ok (foldl Qmin v rest)
  end.

(** *** Results *)

Record session_stats : Type := mk_stats {
  total_events : Z;
  total_clicks : Z;
  avg_speed : Q;
  max_speed : Q;
  min_speed : Q;
  speed_std : Q;
  duration : Q;
  distance_traveled : Q;
  acceleration_bursts : Z
}.

Record processed_data : Type := mk_processed {
  heatmap : ndarray Z;
  hesitation_map : ndarray Q;
  speed_data : list Q;
  click_positions : list (Z * Z);
  path : list (Z * Z);
  stats : session_stats;
  grid_size : Z;
  bounds : Z * Z * Z * Z
}.

Definition _empty_stats : session_stats :=
  {| total_events := 0;
     total_clicks := 0;
     avg_speed := 0;
     max_speed := 0;
     min_speed := 0;
     speed_std := 0;
     duration := 0;
     distance_traveled := 0;
     acceleration_bursts := 0 |}.

Definition default_grid_size : Z := 50.
Definition default_threshold : Q := 500.
Definition default_top_n : Z := 5.

(** [_detect_acceleration]: the indices [i] in [range(1, len(data))] at
    which the speed changes by more than [threshold]. *)
Definition _detect_acceleration (data : list event) (threshold : Q)
  : result (list nat) :=
  for_each
    (fun bursts i =>
       let* cur := list_get data i in
       let* prev := list_get data (i - 1) in
       let speed_change := Qabs (float_sub (ev_speed cur) (ev_speed prev)) in
       if Qlt_bool threshold speed_change
       then Ok (bursts ++ [i])
       else Ok bursts)
    (seq 1 (length data - 1)) [].

(** [l[i]] for any integer [i]. *)
Definition py_getitem {A} (l : list A) (i : Z) : result A :=
  let* k := np_index (length l) i in list_get l k.

Section WithSqrt.

Variable sqrt : Q -> Q.

(** [np.std(l)]. *)
Definition np_std (l : list Q) : Q :=
  let m := np_mean l in
  sqrt (np_mean (map (fun v => ((v - m) * (v - m))%Q) l)).

Definition _calculate_stats (data : list event) (speeds : list Q)
  : result session_stats :=
  match data with
  | [] => Ok _empty_stats
  | _ :: _ =>
      let speeds_array := speeds in
      let total_clicks := sumZ (map (fun _ => 1%Z) (List.filter ev_click data)) in
      let* total_distance :=
        for_each
          (fun total_distance i =>
             let* cur := list_get data i in
             let* prev := list_get data (i - 1) in
             let dx := (ev_x cur - ev_x prev)%Z in
             let dy := (ev_y cur - ev_y prev)%Z in
             Ok (total_distance + sqrt (inject_Z (dx * dx + dy * dy)))%Q)
          (seq 1 (length data - 1)) 0%Q in
      let* duration :=
        if (2 <=? length data)%nat
        then
          let* last := py_getitem data (-1) in
          let* first := py_getitem data 0 in
          Ok (ev_timestamp last - ev_timestamp first)%Q
        else Ok 0%Q in
      let nonempty := (0 <? length speeds_array)%nat in
      let* max_speed := if nonempty then np_max speeds_array else Ok 0%Q in
      let* min_speed := if nonempty then np_min speeds_array else Ok 0%Q in
      Ok {| total_events := Z.of_nat (length data);
            total_clicks := total_clicks;
            avg_speed := if nonempty then np_mean speeds_array else 0;
            max_speed := max_speed;
            min_speed := min_speed;
            speed_std := if nonempty then np_std speeds_array else 0;
            duration := duration;
            distance_traveled := total_distance;
            acceleration_bursts := 0 |}
  end.

(** The variables the event loop of [process_data] assigns. *)
Record loop_state : Type := mk_loop_state {
  st_heatmap : ndarray Z;
  st_hesitation_map : ndarray Q;
  st_dwell_times : gmap (Z * Z) Q;
  st_click_positions : list (Z * Z);
  st_path : list (Z * Z);
  st_prev_timestamp : option Q
}.

(** One iteration of [for event in data]. *)
Definition process_event (min_x min_y grid_size grid_width grid_height : Z)
    (st : loop_state) (event : event) : result loop_state :=
  let x := ev_x event in
  let y := ev_y event in
  let* grid_x := int_div (x - min_x) grid_size in
  let* grid_y := int_div (y - min_y) grid_size in
  let grid_x := Z.max 0 (Z.min grid_x (grid_width - 1)) in
  let grid_y := Z.max 0 (Z.min grid_y (grid_height - 1)) in
  let* heatmap := nd_update (fun v => v + 1)%Z (st_heatmap st) grid_y grid_x in
  let* (dwell_times, hesitation_map) :=
    match st_prev_timestamp st with
    | Some prev_timestamp =>
        let dwell := (ev_timestamp event - prev_timestamp)%Q in
        if Qlt_bool (ev_speed event) 100
        then
          let key := (grid_y, grid_x) in
          let dwell_times :=
            <[key := (default 0%Q (st_dwell_times st !! key) + dwell)%Q]>
              (st_dwell_times st) in
          let* hesitation_map :=
            nd_update (fun v => v + dwell)%Q (st_hesitation_map st)
                      grid_y grid_x in
          Ok (dwell_times, hesitation_map)
        else Ok (st_dwell_times st, st_hesitation_map st)
    | None => Ok (st_dwell_times st, st_hesitation_map st)
    end in
  let prev_timestamp := Some (ev_timestamp event) in
  let click_positions :=
    if ev_click event then st_click_positions st ++ [(x, y)]
    else st_click_positions st in
  let path := st_path st ++ [(x, y)] in
  Ok {| st_heatmap := heatmap;
        st_hesitation_map := hesitation_map;
        st_dwell_times := dwell_times;
        st_click_positions := click_positions;
        st_path := path;
        st_prev_timestamp := prev_timestamp |}.

Definition process_data (data : list event) (grid_size : Z)
  : result processed_data :=
  match data with
  | [] =>
      Ok {| heatmap := np_empty;
            hesitation_map := np_empty;
            speed_data := [];
            click_positions := [];
            path := [];
            stats := _empty_stats;
            grid_size := grid_size;
            bounds := (0, 0, 1920, 1080)%Z |}
  | _ :: _ =>
      let x_coords := map ev_x data in
      let y_coords := map ev_y data in
      let speeds := map ev_speed data in
      let* min_x := py_min x_coords in
      let* max_x := py_max x_coords in
      let* min_y := py_min y_coords in
      let* max_y := py_max y_coords in
      let padding := 50%Z in
      let min_x := Z.max 0 (min_x - padding) in
      let min_y := Z.max 0 (min_y - padding) in
      let max_x := (max_x + padding)%Z in
      let max_y := (max_y + padding)%Z in
      let* columns := int_div (max_x - min_x) grid_size in
      let grid_width := Z.max 1 (columns + 1) in
      let* rows := int_div (max_y - min_y) grid_size in
      let grid_height := Z.max 1 (rows + 1) in
      let* st :=
        for_each (process_event min_x min_y grid_size grid_width grid_height)
          data
          {| st_heatmap := np_zeros 0%Z grid_height grid_width;
             st_hesitation_map := np_zeros 0%Q grid_height grid_width;
             st_dwell_times := ∅;
             st_click_positions := [];
             st_path := [];
             st_prev_timestamp := None |} in
      let* stats := _calculate_stats data speeds in
      let* acceleration_events := _detect_acceleration data default_threshold in
      let stats :=
        {| total_events := total_events stats;
           total_clicks := total_clicks stats;
           avg_speed := avg_speed stats;
           max_speed := max_speed stats;
           min_speed := min_speed stats;
           speed_std := speed_std stats;
           duration := duration stats;
           distance_traveled := distance_traveled stats;
           acceleration_bursts := Z.of_nat (length acceleration_events) |} in
      Ok {| heatmap := st_heatmap st;
            hesitation_map := st_hesitation_map st;
            speed_data := speeds;
            click_positions := st_click_positions st;
            path := st_path st;
            stats := stats;
            grid_size := grid_size;
            bounds := (min_x, min_y, max_x, max_y) |}
  end.

End WithSqrt.

Section WithArgsort.

(** [np.argsort] on a one-dimensional array: the indices of the array in an
    order that sorts its values ascending.  Which of two equal values comes
    first is up to the sorting algorithm. *)
Variable argsort : list Q -> list nat.

Definition get_hesitation_zones (processed : processed_data) (top_n : Z)
  : result (list (Z * Z * Q)) :=
  let hesitation_map := hesitation_map processed in
  if (nd_size hesitation_map =? 0)%nat then Ok []
  else
    let flat_indices :=
      slice_to (reverse (argsort (nd_flat hesitation_map))) top_n in
    for_each
      (fun zones idx =>
         let* (y, x) := np_unravel_index idx hesitation_map in
         let* dwell := nd_get hesitation_map y x in
         if Qlt_bool 0 dwell
         then Ok (zones ++ [(x, y, dwell)])
         else Ok zones)
      flat_indices [].

End WithArgsort.

(** *** Vocabulary of the properties *)

(** The cells of an array fill its shape. *)
Definition nd_wf {A} (a : ndarray A) : Prop :=
  length (nd_flat a) = (nd_rows a * nd_cols a)%nat.

(** A well-formed array of [rows] rows and [cols] columns. *)
Definition has_shape {A} (rows cols : Z) (a : ndarray A) : Prop :=
  nd_rows a = Z.to_nat rows /\ nd_cols a = Z.to_nat cols /\ nd_wf a.

(** Both grids of the loop state fill the shape they were allocated with. *)
Definition grids_ok (grid_height grid_width : Z) (st : loop_state) : Prop :=
  has_shape grid_height grid_width (st_heatmap st) /\
  has_shape grid_height grid_width (st_hesitation_map st).

(** No cell of a float array is negative. *)
Definition cells_nonneg (a : ndarray Q) : Prop :=
  Forall (fun v => (0 <= v)%Q) (nd_flat a).

Definition xy (e : event) : Z * Z := (ev_x e, ev_y e).

(** The dwell time an event adds to its arrival cell: the time since the
    previous event when there is one and the event is slower than 100. *)
Definition arrival_dwell (prev_timestamp : option Q) (e : event) : Q :=
  match prev_timestamp with
  | Some prev => if Qlt_bool (ev_speed e) 100
                 then (ev_timestamp e - prev)%Q else 0%Q
  | None => 0%Q
  end.

(** The dwell times of a stream, summed, the event before the stream being
    at [prev_timestamp] if any. *)
Fixpoint slow_dwell (prev_timestamp : option Q) (data : list event) : Q :=
  match data with
  | [] => 0%Q
  | e :: rest =>
      (arrival_dwell prev_timestamp e
       + slow_dwell (Some (ev_timestamp e)) rest)%Q
  end.

(** No event is earlier than the one before it. *)
Fixpoint nondecreasing_from (prev_timestamp : option Q) (data : list event)
  : Prop :=
  match data with
  | [] => True
  | e :: rest =>
      match prev_timestamp with
      | Some prev => (prev <= ev_timestamp e)%Q
      | None => True
      end /\ nondecreasing_from (Some (ev_timestamp e)) rest
  end.

Definition timestamps_nondecreasing (data : list event) : Prop :=
  nondecreasing_from None data.

(** What [np.argsort] promises: every index once, values ascending. *)
Definition is_argsort (argsort : list Q -> list nat) : Prop :=
  forall l,
    Permutation (argsort l) (seq 0 (length l)) /\
    StronglySorted (fun i j => (cell l i <= cell l j)%Q) (argsort l).

(** The zone [(grid_x, grid_y, dwell)] of the cell at flat index [idx]. *)
Definition zone_at (a : ndarray Q) (idx : nat) : Z * Z * Q :=
  (Z.of_nat (idx mod nd_cols a), Z.of_nat (idx / nd_cols a),
   cell (nd_flat a) idx).

Definition zone_dwell (zone : Z * Z * Q) : Q := snd zone.

(** The cell of the array a zone names holds the zone's dwell. *)
Definition zone_in (a : ndarray Q) (zone : Z * Z * Q) : Prop :=
  nd_get a (snd (fst zone)) (fst (fst zone)) = Ok (zone_dwell zone).

Definition is_positive (l : list Q) (idx : nat) : bool :=
  Qlt_bool 0 (cell l idx).

(** The zones of the positive cells among the first [top_n] indices of the
    reversed [argsort] order. *)
Definition ranked_zones (argsort : list Q -> list nat) (a : ndarray Q)
    (top_n : Z) : list (Z * Z * Q) :=
  map (zone_at a)
      (List.filter (is_positive (nd_flat a))
                   (slice_to (reverse (argsort (nd_flat a))) top_n)).

(** The number of cells with a positive value. *)
Definition positive_cells (a : ndarray Q) : nat :=
  length (List.filter (Qlt_bool 0) (nd_flat a)).

End Processor.

(** ** Concrete instances of the parameters *)

(** A computable square root, exact to the millionth from below. *)
Definition sqrt_approx (q : Q) : Q :=
  (Z.sqrt (Qfloor (q * 1000000000000)) # 1000000)%Q.

(** A stable [argsort], by insertion: index [i] goes after every index
    already placed whose value is not greater.  This is the order numpy's
    scalar sort produces on short arrays, where it sorts by insertion. *)
Fixpoint insert_index (l : list Q) (i : nat) (sorted : list nat) : list nat :=
  match sorted with
  | [] => [i]
  | j :: rest =>
      if Qlt_bool (Processor.cell l i) (Processor.cell l j)
      then i :: j :: rest
      else j :: insert_index l i rest
  end.

Definition insertion_argsort (l : list Q) : list nat :=
  foldl (fun sorted i => insert_index l i sorted) [] (seq 0 (length l)).

(** ** The ranking as the specification words it

    "Flatten HesitationGrid, sort descending by dwell value (ties broken by
    original flattened index ascending), take the first n entries, filter out
    entries with dwell == 0, and map flattened index back to (gridX, gridY)". *)

Definition ranks_before (l : list Q) (i j : nat) : bool :=
  Qlt_bool (Processor.cell l j) (Processor.cell l i)
  || (Qeq_bool (Processor.cell l i) (Processor.cell l j) && (i <=? j)%nat).

Fixpoint insert_ranked (l : list Q) (i : nat) (sorted : list nat) : list nat :=
  match sorted with
  | [] => [i]
  | j :: rest =>
      if ranks_before l i j then i :: j :: rest
      else j :: insert_ranked l i rest
  end.

Definition topZones_spec (hesitationGrid : Processor.ndarray Q) (n : nat)
  : list (Z * Z * Q) :=
  let flat := Processor.nd_flat hesitationGrid in
  let cols := Processor.nd_cols hesitationGrid in
  let ranked := foldr (insert_ranked flat) [] (seq 0 (length flat)) in
  map (fun i => (Z.of_nat (i mod cols), Z.of_nat (i / cols), Processor.cell flat i))
      (List.filter (fun i => negb (Qeq_bool (Processor.cell flat i) 0))
                   (take n ranked)).

(** ** The listener thread

    [pynput] calls the two handlers from its listener thread, one
    notification at a time, in the order the platform reports them. *)

Module Listener.

Import Logger.

(** A raw notification, with the value [time.time()] returns while it is
    handled. *)
Inductive notification : Type :=
| Move (x y : Z) (current_time : Q)
| Click (x y : Z) (pressed : bool) (current_time : Q).

Definition notification_time (n : notification) : Q :=
  match n with
  | Move _ _ t => t
  | Click _ _ _ t => t
  end.

Definition notification_position (n : notification) : Z * Z :=
  match n with
  | Move x y _ => (x, y)
  | Click x y _ _ => (x, y)
  end.

Definition is_press (n : notification) : bool :=
  match n with
  | Move _ _ _ => false
  | Click _ _ pressed _ => pressed
  end.

Section WithSqrt.

Variable sqrt : Q -> Q.

Definition handle (n : notification) : method unit :=
  match n with
  | Move x y t => _on_move sqrt x y t
  | Click x y pressed t => _on_click sqrt x y pressed t
  end.

(** The handlers run in order; an exception ends the thread. *)
Fixpoint deliver (notifications : list notification) : method unit :=
  fun self =>
    match notifications with
    | [] => (Ok tt, self)
    | n :: rest =>
        match handle n self with
        | (Ok _, self') => deliver rest self'
        | (Raise e, self') => (Raise e, self')
        end
    end.

End WithSqrt.

(** *** Vocabulary of the properties *)

(** The move events of a buffer. *)
Definition moves (data : list event) : list event :=
  List.filter (fun e => negb (ev_click e)) data.

(** Two events at least [interval] apart. *)
Definition apart (interval : Q) (a b : event) : Prop :=
  (ev_timestamp a + interval <= ev_timestamp b)%Q.

(** Consecutive move events of the buffer are at least one sample interval
    apart, and the latest of them is not later than the last sample time. *)
Definition rate_limited (self : logger) : Prop :=
  Sorted (apart (_sample_rate self)) (moves (_data self)) /\
  forall a, last (moves (_data self)) = Some a ->
            (ev_timestamp a <= _last_sample_time self)%Q.

(** The clock never steps back over the notifications, nor behind the
    events already in the buffer. *)
Definition clock_monotone (self : logger) (notifications : list notification)
  : Prop :=
  StronglySorted Qle (map notification_time notifications) /\
  Forall (fun e =>
            Forall (fun n => (ev_timestamp e <= notification_time n)%Q)
                   notifications)
         (_data self).

End Listener.

(** ** The recording session ([app.py]) *)

Module App.

Import Logger Processor.

(** The entries of [st.session_state] the recording callbacks use. *)
Record session_state : Type := mk_session {
  logger : Logger.logger;
  data : list event;
  processed : option processed_data;
  recording : bool
}.

(** The session state a first run of the script sets up. *)
Definition initial_session : session_state :=
  {| logger := __init__ default_sample_rate;
     data := [];
     processed := None;
     recording := false |}.

Definition callback : Type := session_state -> result unit * session_state.

Definition start_recording (hook : hook_outcome) : callback :=
  fun st =>
    let logger1 := snd (clear_data (logger st)) in
    match start hook logger1 with
    | (Ok _, logger2) =>
        (Ok tt,
         {| logger := logger2; data := data st; processed := processed st;
            recording := true |})
    | (Raise e, logger2) =>
        (Raise e,
         {| logger := logger2; data := data st; processed := processed st;
            recording := recording st |})
    end.

Section WithSqrt.

Variable sqrt : Q -> Q.

Definition stop_recording : callback :=
  fun st =>
    let logger1 := snd (stop (logger st)) in
    match get_data logger1 with
    | (Raise e, logger2) =>
        (Raise e,
         {| logger := logger2; data := data st; processed := processed st;
            recording := recording st |})
    | (Ok snapshot, logger2) =>
        match process_data sqrt snapshot default_grid_size with
        | Raise e =>
            (Raise e,
             {| logger := logger2; data := snapshot;
                processed := processed st; recording := recording st |})
        | Ok result =>
            (Ok tt,
             {| logger := logger2; data := snapshot;
                processed := Some result; recording := false |})
        end
    end.

(** The listener thread delivers notifications to the session's logger. *)
Definition notifications_arrive (notifications : list Listener.notification)
    (st : session_state) : session_state :=
  {| logger := snd (Listener.deliver sqrt notifications (logger st));
     data := data st; processed := processed st; recording := recording st |}.

End WithSqrt.

(** The body of the [Clear Session] button. *)
Definition clear_session : callback :=
  fun st =>
    match clear_data (logger st) with
    | (Ok _, logger1) =>
        (Ok tt,
         {| logger := logger1; data := []; processed := None;
            recording := recording st |})
    | (Raise e, logger1) =>
        (Raise e,
         {| logger := logger1; data := []; processed := None;
            recording := recording st |})
    end.

(** *** Vocabulary of the properties *)

(** The session states the callbacks and the listener thread can produce
    from the initial one, in any order. *)
Inductive reachable (sqrt : Q -> Q) : session_state -> Prop :=
| reach_initial : reachable sqrt initial_session
| reach_start hook st :
    reachable sqrt st -> reachable sqrt (snd (start_recording hook st))
| reach_arrive notifications st :
    reachable sqrt st ->
    reachable sqrt (notifications_arrive sqrt notifications st)
| reach_stop st :
    reachable sqrt st -> reachable sqrt (snd (stop_recording sqrt st))
| reach_clear st :
    reachable sqrt st -> reachable sqrt (snd (clear_session st)).

End App.

(** ** Vocabulary of the grid *)

Module Grid.

Import Processor.

(** [max(0, min(q, n - 1))], the clamping of a cell index. *)
Definition clamp_index (q n : Z) : Z := Z.max 0 (Z.min q (n - 1)).

(** The cell [(grid_y, grid_x)] the event loop files an event under. *)
Definition event_cell (min_x min_y grid_size grid_width grid_height : Z)
    (e : event) : Z * Z :=
  (clamp_index (Z.quot (ev_y e - min_y) grid_size) grid_height,
   clamp_index (Z.quot (ev_x e - min_x) grid_size) grid_width).

(** The same cell, read off a result: origin from its bounds, cell size
    from its [grid_size], extent from the shape of its heatmap. *)
Definition cell_of (r : processed_data) (e : event) : Z * Z :=
  let '(min_x, min_y, _, _) := bounds r in
  event_cell min_x min_y (grid_size r)
             (Z.of_nat (nd_cols (heatmap r))) (Z.of_nat (nd_rows (heatmap r)))
             e.

Definition same_cell (c : Z * Z) (i j : Z) : bool :=
  ((fst c =? i) && (snd c =? j))%Z.

(** Whether the event loop files an event under cell [(i, j)]. *)
Definition arrives_in (min_x min_y grid_size grid_width grid_height i j : Z)
    (e : event) : bool :=
  same_cell (event_cell min_x min_y grid_size grid_width grid_height e) i j.

(** The dwell times of the events of a stream that arrive in the cells
    [arrives] selects, summed; [prev_timestamp] is the time of the event
    before the stream, if any. *)
Fixpoint cell_dwell (arrives : event -> bool) (prev_timestamp : option Q)
    (data : list event) : Q :=
  match data with
  | [] => 0%Q
  | e :: rest =>
      ((if arrives e then arrival_dwell prev_timestamp e else 0)
       + cell_dwell arrives (Some (ev_timestamp e)) rest)%Q
  end.

End Grid.

(** ** Vocabulary of the statistics *)

Module Stats.

Import Processor.

(** The speed of the event at index [i] (0 past the end). *)
Definition speed_at (data : list event) (i : nat) : Q :=
  from_option ev_speed 0%Q (data !! i).

(** The speed changes by more than [threshold] on arriving at index [i]:
    the difference of the two speeds, as the float subtraction returns it,
    is above the threshold in absolute value. *)
Definition speed_jump (data : list event) (threshold : Q) (i : nat) : bool :=
  Qlt_bool threshold
           (Qabs (float_sub (speed_at data i) (speed_at data (i - 1)))).

End Stats.

(** ** The behaviour profile ([src/visualizer.py]) *)

Module Visualizer.

Import Processor.

(** [d.get(key, default)] on a dictionary of numbers. *)
Definition dict_get (d : gmap string Q) (key : string) (default_value : Q) : Q :=
  default default_value (d !! key).

(** The dictionary a [session_stats] record stands for: the nine keys of
    [_calculate_stats], integers read as numbers. *)
Definition stats_dict (s : session_stats) : gmap string Q :=
  <["total_events" := inject_Z (total_events s)]>
  (<["total_clicks" := inject_Z (total_clicks s)]>
  (<["avg_speed" := avg_speed s]>
  (<["max_speed" := max_speed s]>
  (<["min_speed" := min_speed s]>
  (<["speed_std" := speed_std s]>
  (<["duration" := duration s]>
  (<["distance_traveled" := distance_traveled s]>
  (<["acceleration_bursts" := inject_Z (acceleration_bursts s)]> ∅)))))))).

(** The labels of the four traits: "Fast & Direct", "Balanced",
    "Deliberate"; "High (Steady)", "Medium", "Variable"; "Quick Decider",
    "Thoughtful", "Observer"; "High Energy", "Moderate", "Calm" (each behind
    its pictogram). *)
Inductive style_label : Set := FastDirect | Balanced | Deliberate.
Inductive precision_label : Set := HighSteady | MediumPrecision | VariablePrecision.
Inductive decisiveness_label : Set := QuickDecider | Thoughtful | Observer.
Inductive energy_label : Set := HighEnergy | ModerateEnergy | Calm.

(** The dictionary [{"style", "precision", "decisiveness", "energy"}]. *)
Record traits : Set := mk_traits {
  style : style_label;
  precision : precision_label;
  decisiveness : decisiveness_label;
  energy : energy_label
}.

(** The thresholds 0.1 and 0.05 are the rationals 1/10 and 1/20: a ratio of
    two counts below 10^15 is above the float 0.1 exactly when it is above
    1/10. *)
Definition _calculate_personality_traits (stats : gmap string Q)
    (speeds : list Q) : result traits :=
  let avg_speed := dict_get stats "avg_speed" 0 in
  let speed_std := dict_get stats "speed_std" 0 in
  let clicks := dict_get stats "total_clicks" 0 in
  let events := dict_get stats "total_events" 1 in
  let bursts := dict_get stats "acceleration_bursts" 0 in
  let style :=
    if Qlt_bool 800 avg_speed then FastDirect
    else if Qlt_bool 400 avg_speed then Balanced
    else Deliberate in
  let precision :=
    if Qlt_bool speed_std 200 then HighSteady
    else if Qlt_bool speed_std 500 then MediumPrecision
    else VariablePrecision in
  rbind (if Qlt_bool 0 events then float_div clicks events else Ok 0%Q)
    (fun click_ratio =>
       let decisiveness :=
         if Qlt_bool (1 # 10) click_ratio then QuickDecider
         else if Qlt_bool (5 # 100) click_ratio then Thoughtful
         else Observer in
       let energy :=
         if Qlt_bool 10 bursts then HighEnergy
         else if Qlt_bool 5 bursts then ModerateEnergy
         else Calm in
       Ok {| style := style; precision := precision;
             decisiveness := decisiveness; energy := energy |}).

(** The profile [create_personality_summary] shows for a result. *)
Definition profile (r : processed_data) : result traits :=
  _calculate_personality_traits (stats_dict (stats r)) (speed_data r).

End Visualizer.

(** ** The JSON export ([app.py]) *)

Module JsonExport.

Import Processor.

(** The dictionary [export_json] serialises.  [statistics] is [None] for
    the empty dictionary [{}]. *)
Record export_data : Type := mk_export {
  metadata_export_time : string;
  metadata_total_events : Z;
  metadata_app : string;
  statistics : option session_stats;
  events : list event
}.

Section WithJson.

(** [json.dumps(_, indent=2)] and the value of
    [datetime.now().isoformat()] in the call. *)
Variable json_dumps : export_data -> string.
Variable now_isoformat : string.

Definition export_json (st : App.session_state) : option string :=
  match App.data st with
  | [] => None
  | _ :: _ =>
      let export_data :=
        {| metadata_export_time := now_isoformat;
           metadata_total_events := Z.of_nat (length (App.data st));
           metadata_app := "SnapPosition";
           statistics :=
             match App.processed st with
             | Some processed => Some (stats processed)
             | None => None
             end;
           events := App.data st |} in
      Some (json_dumps export_data)
  end.

End WithJson.

(** *** Vocabulary of the properties *)

(** The analysis kept in the session is the analysis of the snapshot kept
    beside it. *)
Definition analysis_matches_snapshot (sqrt : Q -> Q) (st : App.session_state)
  : Prop :=
  match App.processed st with
  | Some processed =>
      process_data sqrt (App.data st) default_grid_size = Ok processed
  | None => App.data st = []
  end.

End JsonExport.

(** * Properties *)

(** ** Float helpers *)

Lemma sqrt_approx_nonneg (q : Q) : (0 <= sqrt_approx q)%Q.
Proof.
  unfold sqrt_approx, Qle. simpl. rewrite Z.mul_1_r. apply Z.sqrt_nonneg.
Qed.

Lemma Qlt_bool_iff (a b : Q) : Qlt_bool a b = true <-> (a < b)%Q.
Proof.
  unfold Qlt_bool. rewrite negb_true_iff. split.
  - intros H. apply Qnot_le_lt. intros Hle.
    apply Qle_bool_iff in Hle. congruence.
  - intros H. destruct (Qle_bool b a) eqn:E; [|reflexivity].
    apply Qle_bool_iff in E. exfalso. revert E. apply Qlt_not_le, H.
Qed.

Lemma Qlt_bool_false_iff (a b : Q) : Qlt_bool a b = false <-> (b <= a)%Q.
Proof.
  unfold Qlt_bool. rewrite negb_false_iff. apply Qle_bool_iff.
Qed.

Lemma round_half_even_nonneg (q : Q) : (0 <= q)%Q -> (0 <= round_half_even q)%Z.
Proof.
  intros Hq. unfold round_half_even.
  assert (Hn : (0 <= Qfloor q)%Z).
  { change 0%Z with (Qfloor 0). apply Qfloor_resp_le, Hq. }
  destruct (_ ?= _)%Q; [destruct (Z.even _)| |]; lia.
Qed.

Lemma round2_nonneg (q : Q) : (0 <= q)%Q -> (0 <= round2 q)%Q.
Proof.
  intros Hq. unfold round2, Qle. simpl. rewrite Z.mul_1_r.
  apply round_half_even_nonneg.
  apply Qmult_le_0_compat; [exact Hq | discriminate].
Qed.

Lemma Qle_bool_false_lt (a b : Q) : Qle_bool a b = false -> (b < a)%Q.
Proof.
  intros H. apply Qnot_le_lt. intros Hle.
  apply Qle_bool_iff in Hle. congruence.
Qed.

Lemma float_div_pos (a b : Q) : (0 < b)%Q -> float_div a b = Ok (a / b)%Q.
Proof.
  intros Hb. unfold float_div.
  destruct (Qeq_bool b 0) eqn:E; [|reflexivity].
  apply Qeq_bool_iff in E. rewrite E in Hb. exfalso. revert Hb. apply Qlt_irrefl.
Qed.

(** ** The mouse logger *)

Section LoggerProperties.

Import Logger.

Variable sqrt : Q -> Q.

Lemma calculate_speed_no_sample self x y t :
  (_last_timestamp self == 0)%Q -> _calculate_speed sqrt self x y t = Ok 0%Q.
Proof.
  intros H. unfold _calculate_speed.
  apply Qeq_bool_iff in H. now rewrite H.
Qed.

Lemma calculate_speed_no_elapsed self x y t :
  (t - _last_timestamp self <= 0)%Q -> _calculate_speed sqrt self x y t = Ok 0%Q.
Proof.
  intros H. unfold _calculate_speed.
  apply Qle_bool_iff in H. rewrite H.
  now destruct (Qeq_bool _ _).
Qed.

Lemma calculate_speed_moving self x y t :
  ~ (_last_timestamp self == 0)%Q ->
  (0 < t - _last_timestamp self)%Q ->
  _calculate_speed sqrt self x y t =
  Ok (sqrt (inject_Z (squared_distance self x y)) / (t - _last_timestamp self))%Q.
Proof.
  intros Hts Hdelta. unfold _calculate_speed.
  destruct (Qeq_bool (_last_timestamp self) 0) eqn:E.
  { apply Qeq_bool_iff in E. contradiction. }
  destruct (Qle_bool (t - _last_timestamp self) 0) eqn:E'.
  { apply Qle_bool_iff in E'. exfalso. revert E'. now apply Qlt_not_le. }
  now apply float_div_pos.
Qed.

(** The three branches of [_calculate_speed] cover every call. *)
Lemma calculate_speed_total self x y t :
  _calculate_speed sqrt self x y t = Ok 0%Q \/
  ((0 < t - _last_timestamp self)%Q /\
   _calculate_speed sqrt self x y t =
   Ok (sqrt (inject_Z (squared_distance self x y)) / (t - _last_timestamp self))%Q).
Proof.
  destruct (Qeq_bool (_last_timestamp self) 0) eqn:E.
  { left. apply calculate_speed_no_sample. now apply Qeq_bool_iff. }
  destruct (Qle_bool (t - _last_timestamp self) 0) eqn:E'.
  { left. apply calculate_speed_no_elapsed. now apply Qle_bool_iff. }
  right. apply Qle_bool_false_lt in E'. split; [exact E'|].
  apply calculate_speed_moving; [|exact E'].
  intros H. apply Qeq_bool_iff in H. congruence.
Qed.

Lemma calculate_speed_returns self x y t :
  exists v, _calculate_speed sqrt self x y t = Ok v.
Proof.
  destruct (calculate_speed_total self x y t) as [H | [_ H]]; eauto.
Qed.

Hypothesis sqrt_nonneg : forall q, (0 <= sqrt q)%Q.

Lemma calculate_speed_nonneg self x y t v :
  _calculate_speed sqrt self x y t = Ok v -> (0 <= v)%Q.
Proof using sqrt_nonneg.
  intros Hv.
  destruct (calculate_speed_total self x y t) as [H | [Hpos H]];
    rewrite H in Hv; injection Hv as <-.
  - apply Qle_refl.
  - apply Qle_shift_div_l; [exact Hpos|].
    rewrite Qmult_0_l. apply sqrt_nonneg.
Qed.

Lemma on_move_speeds_nonneg x y t self :
  speeds_nonneg self -> speeds_nonneg (snd (_on_move sqrt x y t self)).
Proof using sqrt_nonneg.
  intros Hinv. unfold _on_move.
  destruct (Qlt_bool _ _); [exact Hinv|].
  destruct (_calculate_speed sqrt self x y t) as [v|e] eqn:Hv; [|exact Hinv].
  unfold speeds_nonneg. simpl. apply Forall_app. split; [exact Hinv|].
  constructor; [|constructor]. simpl.
  apply round2_nonneg. eapply calculate_speed_nonneg, Hv.
Qed.

Lemma on_click_speeds_nonneg x y pressed t self :
  speeds_nonneg self -> speeds_nonneg (snd (_on_click sqrt x y pressed t self)).
Proof using sqrt_nonneg.
  intros Hinv. unfold _on_click.
  destruct (negb pressed); [exact Hinv|].
  destruct (_calculate_speed sqrt self x y t) as [v|e] eqn:Hv; [|exact Hinv].
  unfold speeds_nonneg. simpl. apply Forall_app. split; [exact Hinv|].
  constructor; [|constructor]. simpl.
  apply round2_nonneg. eapply calculate_speed_nonneg, Hv.
Qed.

End LoggerProperties.

Import Logger.

(** C8.  [_calculate_speed] returns 0 when the logger has no prior sample
    (last timestamp 0, as after [__init__]) and when the elapsed time is not
    positive; otherwise it returns the Euclidean distance from the last
    position divided by the elapsed time.  It never raises: whenever it
    divides, the divisor is positive.  The speed it returns is non-negative,
    and so is the speed of every event the handlers record. *)
Theorem calculate_speed_guarded
    (sqrt : Q -> Q) (sqrt_nonneg : forall q, (0 <= sqrt q)%Q)
    (self : logger) (x y : Z) (t : Q) :
  ((_last_timestamp self == 0)%Q ->
   _calculate_speed sqrt self x y t = Ok 0%Q) /\
  (forall sample_rate,
     _calculate_speed sqrt (__init__ sample_rate) x y t = Ok 0%Q) /\
  ((t - _last_timestamp self <= 0)%Q ->
   _calculate_speed sqrt self x y t = Ok 0%Q) /\
  (~ (_last_timestamp self == 0)%Q -> (0 < t - _last_timestamp self)%Q ->
   _calculate_speed sqrt self x y t =
   Ok (sqrt (inject_Z (squared_distance self x y))
       / (t - _last_timestamp self))%Q) /\
  (_calculate_speed sqrt self x y t = Ok 0%Q \/
   ((0 < t - _last_timestamp self)%Q /\
    _calculate_speed sqrt self x y t =
    Ok (sqrt (inject_Z (squared_distance self x y))
        / (t - _last_timestamp self))%Q)) /\
  (exists v, _calculate_speed sqrt self x y t = Ok v /\ (0 <= v)%Q) /\
  (speeds_nonneg self ->
   speeds_nonneg (snd (_on_move sqrt x y t self)) /\
   forall pressed, speeds_nonneg (snd (_on_click sqrt x y pressed t self))).
Proof.
  split; [apply calculate_speed_no_sample|].
  split; [intros r; now apply calculate_speed_no_sample|].
  split; [apply calculate_speed_no_elapsed|].
  split; [apply calculate_speed_moving|].
  split; [apply calculate_speed_total|].
  split.
  - destruct (calculate_speed_returns sqrt self x y t) as [v Hv].
    exists v. split; [exact Hv|]. eapply calculate_speed_nonneg; eauto.
  - intros Hinv. split.
    + now apply on_move_speeds_nonneg.
    + intros pressed. now apply on_click_speeds_nonneg.
Qed.

(** A logger whose last sample was taken at time 1000 at the origin. *)
Lemma calculate_speed_guarded_witness :
  let self := mk_logger [] None true default_sample_rate 1000 (0, 0)%Z 1000 in
  _calculate_speed sqrt_approx self 3 4 1001
  = Ok (sqrt_approx (inject_Z (squared_distance self 3 4)) / (1001 - 1000))%Q.
Proof.
  intros self.
  refine (proj1 (proj2 (proj2 (proj2
            (calculate_speed_guarded sqrt_approx sqrt_approx_nonneg
               self 3 4 1001)))) _ _).
  - simpl. unfold Qeq. simpl. lia.
  - reflexivity.
Defined.

(** C7.  A move notification that arrives less than the sample interval after
    the last accepted sample leaves the logger as it is.  A press is never
    rate-limited: it appends a click event at the notified position and time,
    sets last-position and last-timestamp and keeps last-sample-time, so the
    rate-limit test of the next move has the outcome it had before the
    click, and a move that passes it is recorded.  A release is ignored. *)
Theorem move_rate_limited_click_not
    (sqrt : Q -> Q) (self : logger) (x y : Z) (t : Q) :
  ((t - _last_sample_time self < _sample_rate self)%Q ->
   _on_move sqrt x y t self = (Ok tt, self)) /\
  (exists speed,
     _on_click sqrt x y true t self =
     (Ok tt,
      {| _data := _data self ++ [mk_event x y speed true t];
         _listener := _listener self;
         _is_running := _is_running self;
         _sample_rate := _sample_rate self;
         _last_sample_time := _last_sample_time self;
         _last_position := (x, y);
         _last_timestamp := t |})) /\
  _on_click sqrt x y false t self = (Ok tt, self) /\
  (let clicked := snd (_on_click sqrt x y true t self) in
   forall x' y' t',
     ~ (t' - _last_sample_time self < _sample_rate self)%Q ->
     exists e,
       _data (snd (_on_move sqrt x' y' t' clicked)) = _data clicked ++ [e] /\
       ev_click e = false /\ ev_timestamp e = t').
Proof.
  split; [|split; [|split]].
  - intros Hlt. unfold _on_move.
    apply Qlt_bool_iff in Hlt. now rewrite Hlt.
  - unfold _on_click. simpl.
    destruct (calculate_speed_returns sqrt self x y t) as [v ->].
    now exists (round2 v).
  - reflexivity.
  - intros clicked x' y' t' Hacc.
    assert (Hsame : _last_sample_time clicked = _last_sample_time self
                    /\ _sample_rate clicked = _sample_rate self).
    { subst clicked. unfold _on_click. simpl.
      destruct (calculate_speed_returns sqrt self x y t) as [v ->].
      now split. }
    destruct Hsame as [Hlast Hrate].
    unfold _on_move. rewrite Hlast, Hrate.
    destruct (Qlt_bool _ _) eqn:E.
    { apply Qlt_bool_iff in E. contradiction. }
    destruct (calculate_speed_returns sqrt clicked x' y' t') as [v ->].
    simpl. eexists. split; [reflexivity|]. now split.
Qed.

(** Two moves 0.01 s apart under the default interval: the second one is
    dropped. *)
Lemma move_rate_limited_click_not_witness :
  let self := snd (_on_move sqrt_approx 3 4 1000 (__init__ default_sample_rate)) in
  _on_move sqrt_approx 3 4 (100001 # 100) self = (Ok tt, self).
Proof.
  intros self.
  apply (proj1 (move_rate_limited_click_not sqrt_approx self 3 4 (100001 # 100))).
  reflexivity.
Defined.

(** C6 (amended).  [start] on a running logger changes nothing, whatever the
    platform would do.  On a logger that is not running it sets
    last-sample-time and last-timestamp to 0 and the running flag; it leaves
    last-position and the buffer as they are.  The next speed is 0 all the
    same, because a last-timestamp of 0 makes [_calculate_speed] return 0
    before it reads the position. *)
Theorem start_idempotent_resets_times
    (sqrt : Q -> Q) (hook : hook_outcome) (self : logger) :
  (_is_running self = true -> start hook self = (Ok tt, self)) /\
  (_is_running self = false ->
   let started := snd (start hook self) in
   _last_sample_time started = 0%Q /\
   _last_timestamp started = 0%Q /\
   _last_position started = _last_position self /\
   _data started = _data self /\
   _sample_rate started = _sample_rate self /\
   _is_running started = true /\
   forall x y t, _calculate_speed sqrt started x y t = Ok 0%Q).
Proof.
  split.
  - intros Hrun. unfold start. now rewrite Hrun.
  - intros Hrun started.
    assert (Hts : _last_timestamp started = 0%Q).
    { subst started. unfold start. rewrite Hrun. now destruct hook. }
    repeat split;
      try (subst started; unfold start; rewrite Hrun; now destruct hook);
      intros x y t; apply calculate_speed_no_sample; now rewrite Hts.
Qed.

Lemma start_idempotent_resets_times_witness :
  let self := mk_logger [] None false default_sample_rate 1000 (5, 7)%Z 1000 in
  let started := snd (start HookInstalled self) in
  _last_sample_time started = 0%Q /\
  _last_timestamp started = 0%Q /\
  _last_position started = (5, 7)%Z /\
  start HookInstalled started = (Ok tt, started).
Proof.
  intros self started.
  destruct (proj2 (start_idempotent_resets_times sqrt_approx HookInstalled self)
              eq_refl) as (H1 & H2 & H3 & _).
  split; [exact H1|]. split; [exact H2|]. split; [exact H3|].
  apply (proj1 (start_idempotent_resets_times sqrt_approx HookInstalled started)).
  reflexivity.
Defined.

(** C6 as stated fails: after a session that sampled the pointer at (5, 7)
    and was stopped, [start] leaves last-position at (5, 7), not at the
    position a fresh logger has. *)
Lemma start_keeps_last_position :
  let fresh := __init__ default_sample_rate in
  let used :=
    snd (stop (snd (_on_move sqrt_approx 5 7 1000
                      (snd (start HookInstalled fresh))))) in
  let started := snd (start HookInstalled used) in
  _is_running used = false /\
  _last_position started = (5, 7)%Z /\
  _last_position started <> _last_position fresh.
Proof.
  vm_compute. repeat split; congruence.
Qed.

(** C5 (defect).  A fresh logger on a platform where the input hook cannot
    be installed.  [start] raises the failure to its caller, but it has
    already set the running flag and reset the two times: the logger is not
    the logger it was, [is_running] reports [True] although no listener is
    stored, and a later [start], on a platform where the hook could be
    installed, returns at once without installing it. *)
Lemma start_failure_changes_state :
  let self := __init__ default_sample_rate in
  let failed := snd (start ListenerCtorFails self) in
  fst (is_running self) = Ok false /\
  fst (start ListenerCtorFails self) = Raise CaptureUnavailable /\
  fst (is_running failed) = Ok true /\
  _listener failed = None /\
  failed <> self /\
  start HookInstalled failed = (Ok tt, failed).
Proof.
  vm_compute. repeat split; congruence.
Qed.

(** ** The data processor *)

Import Processor.

(** *** Loops and array cells *)

Lemma for_each_ok {A S} (P : A -> Prop) (body : S -> A -> result S)
    (l : list A) (s : S) :
  Forall P l ->
  (forall s a, P a -> exists s', body s a = Ok s') ->
  exists s', for_each body l s = Ok s'.
Proof.
  intros Hl Hbody. revert s.
  induction Hl as [|a l Ha _ IH]; intros s; simpl.
  - now exists s.
  - destruct (Hbody s a Ha) as [s' ->]. simpl. apply IH.
Qed.

Lemma list_get_lt {A} (l : list A) (i : nat) :
  (i < length l)%nat -> exists v, list_get l i = Ok v /\ l !! i = Some v.
Proof.
  intros Hi. unfold list_get.
  destruct (lookup_lt_is_Some_2 l i Hi) as [v ->]. now exists v.
Qed.

Lemma index_range_Forall (n : nat) :
  Forall (fun i => (1 <= i < S n)%nat) (seq 1 n).
Proof.
  apply List.Forall_forall. intros i Hi. apply in_seq in Hi. lia.
Qed.

Lemma sumZ_cons (v : Z) (l : list Z) : sumZ (v :: l) = (v + sumZ l)%Z.
Proof. reflexivity. Qed.

Lemma sumQ_cons (v : Q) (l : list Q) : sumQ (v :: l) = (v + sumQ l)%Q.
Proof. reflexivity. Qed.

Lemma sumZ_alter (f : Z -> Z) (d : Z) (k : nat) (l : list Z) :
  (forall v, f v = (v + d)%Z) -> (k < length l)%nat ->
  sumZ (alter f k l) = (sumZ l + d)%Z.
Proof.
  intros Hf. revert k.
  induction l as [|v l IH]; intros k Hk; simpl in Hk; [lia|].
  destruct k as [|k]; cbn [alter list_alter]; rewrite !sumZ_cons.
  - rewrite Hf. lia.
  - rewrite IH by lia. lia.
Qed.

Lemma sumQ_alter (d : Q) (k : nat) (l : list Q) :
  (k < length l)%nat ->
  (sumQ (alter (fun v => v + d) k l) == sumQ l + d)%Q.
Proof.
  revert k.
  induction l as [|v l IH]; intros k Hk; simpl in Hk; [lia|].
  destruct k as [|k]; cbn [alter list_alter]; rewrite !sumQ_cons.
  - ring.
  - rewrite IH by lia. ring.
Qed.

Lemma sumZ_replicate_0 (n : nat) : sumZ (replicate n 0%Z) = 0%Z.
Proof. induction n as [|n IH]; simpl; [reflexivity | exact IH]. Qed.

Lemma sumQ_replicate_0 (n : nat) : (sumQ (replicate n 0%Q) == 0)%Q.
Proof. induction n as [|n IH]; simpl; [reflexivity | rewrite IH; ring]. Qed.

Lemma Forall_replicate_nonneg (n : nat) :
  Forall (fun v => (0 <= v)%Q) (replicate n 0%Q).
Proof. apply Forall_replicate. apply Qle_refl. Qed.

Lemma np_index_in_range (n : nat) (i : Z) :
  (0 <= i < Z.of_nat n)%Z -> np_index n i = Ok (Z.to_nat i).
Proof.
  intros Hi. unfold np_index.
  destruct (Z.leb_spec 0 i); [|lia].
  destruct (Z.ltb_spec i (Z.of_nat n)); [reflexivity | lia].
Qed.

Lemma nd_offset_in_range {A} (a : ndarray A) (i j : Z) :
  (0 <= i < Z.of_nat (nd_rows a))%Z ->
  (0 <= j < Z.of_nat (nd_cols a))%Z ->
  nd_offset a i j = Ok (Z.to_nat i * nd_cols a + Z.to_nat j)%nat /\
  (Z.to_nat i * nd_cols a + Z.to_nat j < nd_rows a * nd_cols a)%nat.
Proof.
  intros Hi Hj. unfold nd_offset.
  rewrite (np_index_in_range _ _ Hi), (np_index_in_range _ _ Hj). simpl.
  split; [reflexivity | nia].
Qed.

Lemma has_shape_zeros {A} (zero : A) (rows cols : Z) :
  has_shape rows cols (np_zeros zero rows cols).
Proof.
  unfold has_shape, nd_wf, np_zeros. simpl.
  now rewrite length_replicate.
Qed.

(** An in-bounds update of one cell succeeds and keeps the shape. *)
Lemma nd_update_in_range {A} (f : A -> A) (rows cols : Z) (a : ndarray A)
    (i j : Z) :
  has_shape rows cols a ->
  (0 <= i < rows)%Z -> (0 <= j < cols)%Z ->
  exists k,
    (k < length (nd_flat a))%nat /\
    nd_update f a i j
    = Ok (mk_ndarray (nd_rows a) (nd_cols a) (alter f k (nd_flat a))) /\
    has_shape rows cols
      (mk_ndarray (nd_rows a) (nd_cols a) (alter f k (nd_flat a))).
Proof.
  intros (Hr & Hc & Hwf) Hi Hj.
  destruct (nd_offset_in_range a i j) as [Hoff Hlt]; [lia | lia |].
  exists (Z.to_nat i * nd_cols a + Z.to_nat j)%nat.
  split; [unfold nd_wf in Hwf; lia|].
  split.
  - unfold nd_update. now rewrite Hoff.
  - unfold has_shape, nd_wf. simpl. now rewrite length_alter.
Qed.

Lemma clamp_in_range (q n : Z) :
  (1 <= n)%Z -> (0 <= Z.max 0 (Z.min q (n - 1)) < n)%Z.
Proof. lia. Qed.

Lemma int_div_nonzero (a b : Z) : b <> 0%Z -> int_div a b = Ok (Z.quot a b).
Proof.
  intros Hb. unfold int_div.
  destruct (Z.eqb_spec b 0); [contradiction | reflexivity].
Qed.

(** *** The event loop of [process_data] *)

Section EventLoop.

Variables (min_x min_y grid_size grid_width grid_height : Z).
Hypothesis grid_size_nonzero : grid_size <> 0%Z.
Hypothesis grid_width_pos : (1 <= grid_width)%Z.
Hypothesis grid_height_pos : (1 <= grid_height)%Z.

(** One iteration never raises: the clamped cell is inside both grids.  It
    counts the event once, adds the arrival dwell to the hesitation grid and
    extends the lists. *)
Lemma process_event_step (st : loop_state) (e : event) :
  grids_ok grid_height grid_width st ->
  exists st',
    process_event min_x min_y grid_size grid_width grid_height st e = Ok st' /\
    grids_ok grid_height grid_width st' /\
    nd_sum (st_heatmap st') = (nd_sum (st_heatmap st) + 1)%Z /\
    (sumQ (nd_flat (st_hesitation_map st'))
     == sumQ (nd_flat (st_hesitation_map st))
        + arrival_dwell (st_prev_timestamp st) e)%Q /\
    ((0 <= arrival_dwell (st_prev_timestamp st) e)%Q ->
     cells_nonneg (st_hesitation_map st) ->
     cells_nonneg (st_hesitation_map st')) /\
    st_path st' = st_path st ++ [xy e] /\
    st_click_positions st'
    = st_click_positions st ++ (if ev_click e then [xy e] else []) /\
    st_prev_timestamp st' = Some (ev_timestamp e).
Proof using grid_size_nonzero grid_width_pos grid_height_pos.
  intros [Hheat Hhes]. unfold process_event.
  rewrite !int_div_nonzero by exact grid_size_nonzero. cbn [rbind].
  set (gx := Z.max 0 (Z.min (Z.quot (ev_x e - min_x) grid_size) (grid_width - 1))).
  set (gy := Z.max 0 (Z.min (Z.quot (ev_y e - min_y) grid_size) (grid_height - 1))).
  assert (Hgx : (0 <= gx < grid_width)%Z) by (apply clamp_in_range; lia).
  assert (Hgy : (0 <= gy < grid_height)%Z) by (apply clamp_in_range; lia).
  destruct (nd_update_in_range (fun v => v + 1)%Z _ _ _ gy gx Hheat Hgy Hgx)
    as (k & Hk & -> & Hheat').
  cbn [rbind].
  assert (Hclicks :
    (if ev_click e then st_click_positions st ++ [(ev_x e, ev_y e)]
     else st_click_positions st)
    = st_click_positions st ++ (if ev_click e then [xy e] else [])).
  { destruct (ev_click e); [reflexivity | now rewrite app_nil_r]. }
  assert (Hsum : nd_sum (mk_ndarray (nd_rows (st_heatmap st))
                           (nd_cols (st_heatmap st))
                           (alter (fun v => v + 1)%Z k (nd_flat (st_heatmap st))))
                 = (nd_sum (st_heatmap st) + 1)%Z).
  { unfold nd_sum. cbn [nd_flat]. now apply sumZ_alter. }
  destruct (st_prev_timestamp st) as [prev|] eqn:Hprev; cbn [arrival_dwell].
  - destruct (Qlt_bool (ev_speed e) 100) eqn:Hslow.
    + destruct (nd_update_in_range
                  (fun v => v + (ev_timestamp e - prev))%Q _ _ _ gy gx
                  Hhes Hgy Hgx) as (k' & Hk' & -> & Hhes').
      cbn [rbind]. eexists. split; [reflexivity|].
      cbn [st_heatmap st_hesitation_map st_path st_click_positions
           st_prev_timestamp nd_flat].
      split; [now split|]. split; [exact Hsum|].
      split; [now apply sumQ_alter|].
      split.
      { intros Hd Hnn. unfold cells_nonneg in *. cbn [nd_flat].
        apply Forall_alter; [exact Hnn|].
        intros v _ Hv. rewrite <- (Qplus_0_r 0).
        now apply Qplus_le_compat. }
      split; [reflexivity|]. split; [exact Hclicks | reflexivity].
    + cbn [rbind]. eexists. split; [reflexivity|].
      cbn [st_heatmap st_hesitation_map st_path st_click_positions
           st_prev_timestamp nd_flat].
      split; [now split|]. split; [exact Hsum|].
      split; [now rewrite Qplus_0_r|].
      split; [intros _ Hnn; exact Hnn|].
      split; [reflexivity|]. split; [exact Hclicks | reflexivity].
  - cbn [rbind]. eexists. split; [reflexivity|].
    cbn [st_heatmap st_hesitation_map st_path st_click_positions
         st_prev_timestamp nd_flat].
    split; [now split|]. split; [exact Hsum|].
    split; [now rewrite Qplus_0_r|].
    split; [intros _ Hnn; exact Hnn|].
    split; [reflexivity|]. split; [exact Hclicks | reflexivity].
Qed.

(** The whole loop, from any state whose grids have the allocated shape. *)
Lemma process_events_run (data : list event) (st : loop_state) :
  grids_ok grid_height grid_width st ->
  exists st',
    for_each (process_event min_x min_y grid_size grid_width grid_height)
      data st = Ok st' /\
    grids_ok grid_height grid_width st' /\
    nd_sum (st_heatmap st')
    = (nd_sum (st_heatmap st) + Z.of_nat (length data))%Z /\
    (sumQ (nd_flat (st_hesitation_map st'))
     == sumQ (nd_flat (st_hesitation_map st))
        + slow_dwell (st_prev_timestamp st) data)%Q /\
    (nondecreasing_from (st_prev_timestamp st) data ->
     cells_nonneg (st_hesitation_map st) ->
     cells_nonneg (st_hesitation_map st')) /\
    st_path st' = st_path st ++ map xy data /\
    st_click_positions st'
    = st_click_positions st ++ map xy (List.filter ev_click data).
Proof using grid_size_nonzero grid_width_pos grid_height_pos.
  revert st.
  induction data as [|e data IH]; intros st Hok.
  - exists st. cbn [for_each length slow_dwell map List.filter].
    rewrite !app_nil_r, Z.add_0_r, Qplus_0_r.
    repeat (split; [easy|]). reflexivity.
  - destruct (process_event_step st e Hok)
      as (st1 & Hstep & Hok1 & Hsum1 & Hhes1 & Hnn1 & Hpath1 & Hclk1 & Hprev1).
    destruct (IH st1 Hok1)
      as (st' & Hrun & Hok' & Hsum' & Hhes' & Hnn' & Hpath' & Hclk').
    exists st'. cbn [for_each]. rewrite Hstep. cbn [rbind].
    split; [exact Hrun|]. split; [exact Hok'|].
    split.
    { rewrite Hsum', Hsum1. cbn [length]. lia. }
    split.
    { rewrite Hhes', Hhes1, Hprev1. cbn [slow_dwell]. ring. }
    split.
    { cbn [nondecreasing_from]. intros [Hfirst Hrest] Hnn.
      apply Hnn'; [now rewrite Hprev1|].
      apply Hnn1; [|exact Hnn].
      unfold arrival_dwell.
      destruct (st_prev_timestamp st) as [prev|]; [|apply Qle_refl].
      destruct (Qlt_bool _ _); [|apply Qle_refl].
      unfold Qminus. rewrite <- Qle_minus_iff. exact Hfirst. }
    split.
    { rewrite Hpath', Hpath1, <- app_assoc. reflexivity. }
    rewrite Hclk', Hclk1, <- app_assoc. cbn [List.filter].
    destruct (ev_click e); reflexivity.
Qed.

End EventLoop.

(** *** Statistics *)

Lemma sumZ_ones {A} (l : list A) :
  sumZ (map (fun _ => 1%Z) l) = Z.of_nat (length l).
Proof.
  induction l as [|a l IH]; [reflexivity|].
  cbn [map length]. rewrite sumZ_cons, IH. lia.
Qed.

Lemma py_getitem_first {A} (a : A) (l : list A) :
  py_getitem (a :: l) 0 = Ok a.
Proof.
  unfold py_getitem. rewrite np_index_in_range by (cbn [length]; lia).
  reflexivity.
Qed.

Lemma py_getitem_last {A} (a : A) (l : list A) :
  exists v, py_getitem (a :: l) (-1) = Ok v.
Proof.
  unfold py_getitem, np_index.
  destruct (Z.leb_spec 0 (-1)); [lia|]. cbn [andb].
  destruct (Z.leb_spec (- Z.of_nat (length (a :: l))) (-1));
    [|cbn [length] in *; lia].
  destruct (Z.ltb_spec (-1) 0); [|lia]. cbn [andb rbind].
  destruct (list_get_lt (a :: l) (Z.to_nat (Z.of_nat (length (a :: l)) + -1)))
    as (v & Hv & _); [cbn [length]; lia|].
  now exists v.
Qed.

(** A loop over [range(1, len(data))] that reads [data[i]] and [data[i-1]]
    never raises. *)
Lemma pairs_loop_returns {St} (data : list event)
    (step : St -> nat -> event -> event -> result St) (s : St) :
  (forall s i cur prev, exists s', step s i cur prev = Ok s') ->
  exists s',
    for_each
      (fun s i =>
         let* cur := list_get data i in
         let* prev := list_get data (i - 1) in
         step s i cur prev)%result
      (seq 1 (length data - 1)) s = Ok s'.
Proof.
  intros Hstep.
  apply (for_each_ok (fun i => (1 <= i < S (length data - 1))%nat)).
  - apply index_range_Forall.
  - intros s0 i Hi.
    destruct (list_get_lt data i) as (cur & -> & _); [lia|].
    destruct (list_get_lt data (i - 1)) as (prev & -> & _); [lia|].
    cbn [rbind]. apply Hstep.
Qed.

Lemma detect_acceleration_returns (data : list event) (threshold : Q) :
  exists bursts, _detect_acceleration data threshold = Ok bursts.
Proof.
  unfold _detect_acceleration.
  apply (pairs_loop_returns data
           (fun bursts i cur prev =>
              if Qlt_bool threshold
                          (Qabs (float_sub (ev_speed cur) (ev_speed prev)))
              then Ok (bursts ++ [i]) else Ok bursts)).
  intros s i cur prev. destruct (Qlt_bool _ _); eauto.
Qed.

Section Statistics.

Variable sqrt : Q -> Q.

Lemma calculate_stats_returns (data : list event) (speeds : list Q) :
  exists s,
    _calculate_stats sqrt data speeds = Ok s /\
    total_events s = Z.of_nat (length data) /\
    total_clicks s = Z.of_nat (length (List.filter ev_click data)) /\
    acceleration_bursts s = 0%Z.
Proof.
  destruct data as [|e data].
  { exists _empty_stats. repeat split. }
  unfold _calculate_stats.
  destruct (pairs_loop_returns (e :: data)
              (fun total_distance (_ : nat) cur prev =>
                 Ok (total_distance
                     + sqrt (inject_Z
                          ((ev_x cur - ev_x prev) * (ev_x cur - ev_x prev)
                           + (ev_y cur - ev_y prev) * (ev_y cur - ev_y prev))))%Q)
              0%Q) as [dist Hdist]; [eauto|].
  rewrite Hdist. cbn [rbind].
  assert (Hdur : exists d,
    (if (2 <=? length (e :: data))%nat
     then let* last := py_getitem (e :: data) (-1) in
          let* first := py_getitem (e :: data) 0 in
          Ok (ev_timestamp last - ev_timestamp first)%Q
     else Ok 0%Q)%result = Ok d).
  { destruct (2 <=? length (e :: data))%nat; [|eauto].
    destruct (py_getitem_last e data) as [v ->].
    rewrite py_getitem_first. cbn [rbind]. eauto. }
  destruct Hdur as [d ->]. cbn [rbind].
  destruct speeds as [|v speeds]; cbn [length Nat.ltb Nat.leb np_max np_min rbind].
  - eexists. split; [reflexivity|].
    cbn [total_events total_clicks acceleration_bursts].
    split; [reflexivity|]. split; [apply sumZ_ones | reflexivity].
  - eexists. split; [reflexivity|].
    cbn [total_events total_clicks acceleration_bursts].
    split; [reflexivity|]. split; [apply sumZ_ones | reflexivity].
Qed.

(** One event: no pair to measure, no span. *)
Lemma calculate_stats_single (e : event) (speeds : list Q) (s : session_stats) :
  _calculate_stats sqrt [e] speeds = Ok s ->
  duration s = 0%Q /\ distance_traveled s = 0%Q.
Proof.
  unfold _calculate_stats. cbn [length Nat.sub seq for_each rbind Nat.leb].
  destruct speeds as [|v speeds]; cbn [length Nat.ltb Nat.leb np_max np_min rbind];
    intros [= <-]; split; reflexivity.
Qed.

End Statistics.

Lemma detect_acceleration_single (e : event) (threshold : Q) :
  _detect_acceleration [e] threshold = Ok [].
Proof. reflexivity. Qed.

(** *** [process_data] on a non-empty stream *)

Section Aggregation.

Variable sqrt : Q -> Q.

(** Everything the properties below need about one call, for a non-empty
    stream and a non-zero cell size. *)
Lemma process_data_nonempty (data : list event) (grid_size : Z) :
  data <> [] -> grid_size <> 0%Z ->
  exists r,
    process_data sqrt data grid_size = Ok r /\
    nd_wf (heatmap r) /\
    nd_wf (hesitation_map r) /\
    nd_rows (hesitation_map r) = nd_rows (heatmap r) /\
    nd_cols (hesitation_map r) = nd_cols (heatmap r) /\
    (0 < nd_size (heatmap r))%nat /\
    nd_sum (heatmap r) = Z.of_nat (length data) /\
    (sumQ (nd_flat (hesitation_map r)) == slow_dwell None data)%Q /\
    (timestamps_nondecreasing data -> cells_nonneg (hesitation_map r)) /\
    path r = map xy data /\
    click_positions r = map xy (List.filter ev_click data) /\
    speed_data r = map ev_speed data /\
    total_events (stats r) = Z.of_nat (length data) /\
    total_clicks (stats r) = Z.of_nat (length (List.filter ev_click data)) /\
    (forall e, data = [e] ->
       duration (stats r) = 0%Q /\
       distance_traveled (stats r) = 0%Q /\
       acceleration_bursts (stats r) = 0%Z).
Proof.
  intros Hne Hgs.
  destruct data as [|e0 data0]; [contradiction|].
  unfold process_data.
  cbn [py_min py_max map rbind].
  rewrite (int_div_nonzero _ _ Hgs). cbn [rbind].
  rewrite (int_div_nonzero _ _ Hgs). cbn [rbind].
  set (min_x := Z.max 0 (foldl Z.min (ev_x e0) (map ev_x data0) - 50)).
  set (min_y := Z.max 0 (foldl Z.min (ev_y e0) (map ev_y data0) - 50)).
  set (max_x := (foldl Z.max (ev_x e0) (map ev_x data0) + 50)%Z).
  set (max_y := (foldl Z.max (ev_y e0) (map ev_y data0) + 50)%Z).
  set (grid_width := Z.max 1 (Z.quot (max_x - min_x) grid_size + 1)).
  set (grid_height := Z.max 1 (Z.quot (max_y - min_y) grid_size + 1)).
  assert (Hw : (1 <= grid_width)%Z) by lia.
  assert (Hh : (1 <= grid_height)%Z) by lia.
  set (st0 := {| st_heatmap := np_zeros 0%Z grid_height grid_width;
                 st_hesitation_map := np_zeros 0%Q grid_height grid_width;
                 st_dwell_times := ∅;
                 st_click_positions := [];
                 st_path := [];
                 st_prev_timestamp := None |}).
  assert (Hok0 : grids_ok grid_height grid_width st0).
  { split; apply has_shape_zeros. }
  destruct (process_events_run min_x min_y grid_size grid_width grid_height
              Hgs Hw Hh (e0 :: data0) st0 Hok0)
    as (st & Hrun & [Hheat Hhes] & Hsum & Hdwell & Hnn & Hpath & Hclk).
  rewrite Hrun. cbn [rbind].
  destruct (calculate_stats_returns sqrt (e0 :: data0)
              (ev_speed e0 :: map ev_speed data0))
    as (s & Hstats & Hevents & Hclicks & _).
  rewrite Hstats. cbn [rbind].
  destruct (detect_acceleration_returns (e0 :: data0) default_threshold)
    as [bursts Hbursts].
  rewrite Hbursts. cbn [rbind].
  eexists. split; [reflexivity|].
  cbn [heatmap hesitation_map path click_positions speed_data stats
       total_events total_clicks duration distance_traveled
       acceleration_bursts].
  destruct Hheat as (Hhr & Hhc & Hhwf). destruct Hhes as (Hsr & Hsc & Hswf).
  split; [exact Hhwf|]. split; [exact Hswf|].
  split; [congruence|]. split; [congruence|].
  split; [unfold nd_size; rewrite Hhr, Hhc; nia|].
  split.
  { rewrite Hsum. unfold st0, nd_sum, np_zeros. cbn [st_heatmap nd_flat].
    rewrite sumZ_replicate_0. lia. }
  split.
  { rewrite Hdwell. unfold st0, np_zeros.
    cbn [st_hesitation_map st_prev_timestamp nd_flat].
    rewrite sumQ_replicate_0. ring. }
  split.
  { intros Hts. apply Hnn; [exact Hts|].
    unfold st0, cells_nonneg, np_zeros. cbn [st_hesitation_map nd_flat].
    apply Forall_replicate_nonneg. }
  split; [exact Hpath|]. split; [exact Hclk|].
  split; [reflexivity|]. split; [exact Hevents|]. split; [exact Hclicks|].
  intros e He. injection He as -> ->.
  destruct (calculate_stats_single sqrt e _ s Hstats) as [-> ->].
  rewrite detect_acceleration_single in Hbursts. injection Hbursts as <-.
  repeat split.
Qed.

End Aggregation.

(** A cell size of 0 cannot lay out a grid: [process_data] raises on any
    non-empty stream. *)
Remark process_data_zero_cell_size
    (sqrt : Q -> Q) (e : event) (data : list event) :
  process_data sqrt (e :: data) 0 = Raise ZeroDivisionError.
Proof. reflexivity. Qed.

(** C1.  For a non-empty stream (and a cell size that is not zero, so that
    the grid can be laid out), [process_data] returns, and the cells of its
    heatmap add up to the number of events: each event is counted once, in
    the cell its clamped index names. *)
Theorem heatmap_sum_is_event_count
    (sqrt : Q -> Q) (data : list event) (grid_size : Z) :
  data <> [] -> grid_size <> 0%Z ->
  exists r,
    process_data sqrt data grid_size = Ok r /\
    nd_wf (heatmap r) /\
    nd_sum (heatmap r) = Z.of_nat (length data).
Proof.
  intros Hne Hgs.
  destruct (process_data_nonempty sqrt data grid_size Hne Hgs)
    as (r & Hr & Hwf & _ & _ & _ & _ & Hsum & _).
  exists r. auto.
Qed.

Lemma heatmap_sum_is_event_count_witness :
  exists r,
    process_data sqrt_approx
      [mk_event 0 0 0 false 0; mk_event 100 0 100 false 1;
       mk_event 100 0 0 true (101 # 100)] default_grid_size = Ok r /\
    nd_wf (heatmap r) /\
    nd_sum (heatmap r) = 3%Z.
Proof.
  apply (heatmap_sum_is_event_count sqrt_approx
           [mk_event 0 0 0 false 0; mk_event 100 0 100 false 1;
            mk_event 100 0 0 true (101 # 100)] default_grid_size).
  - discriminate.
  - discriminate.
Defined.

(** C2.  On the empty stream [process_data] returns, whatever the cell
    size: both grids have no cell, the three lists are empty, the statistics
    are the all-zero record and the bounds are (0, 0, 1920, 1080). *)
Theorem process_data_empty_stream (sqrt : Q -> Q) (grid_size : Z) :
  exists r,
    process_data sqrt [] grid_size = Ok r /\
    nd_size (heatmap r) = 0%nat /\ nd_flat (heatmap r) = [] /\
    nd_size (hesitation_map r) = 0%nat /\ nd_flat (hesitation_map r) = [] /\
    speed_data r = [] /\ click_positions r = [] /\ path r = [] /\
    stats r = _empty_stats /\
    total_events (stats r) = 0%Z /\ total_clicks (stats r) = 0%Z /\
    avg_speed (stats r) = 0%Q /\ max_speed (stats r) = 0%Q /\
    min_speed (stats r) = 0%Q /\ speed_std (stats r) = 0%Q /\
    duration (stats r) = 0%Q /\ distance_traveled (stats r) = 0%Q /\
    acceleration_bursts (stats r) = 0%Z /\
    bounds r = (0, 0, 1920, 1080)%Z /\
    Processor.grid_size r = grid_size /\
    forall speeds, _calculate_stats sqrt [] speeds = Ok _empty_stats.
Proof.
  eexists. split; [reflexivity|]. cbn. repeat split.
Qed.

(** C9.  On a one-event stream (cell size not zero) [process_data] returns,
    with duration 0, distance travelled 0 and no acceleration burst. *)
Theorem single_event_stats_zero
    (sqrt : Q -> Q) (e : event) (grid_size : Z) :
  grid_size <> 0%Z ->
  exists r,
    process_data sqrt [e] grid_size = Ok r /\
    duration (stats r) = 0%Q /\
    distance_traveled (stats r) = 0%Q /\
    acceleration_bursts (stats r) = 0%Z /\
    total_events (stats r) = 1%Z.
Proof.
  intros Hgs.
  destruct (process_data_nonempty sqrt [e] grid_size ltac:(discriminate) Hgs)
    as (r & Hr & _ & _ & _ & _ & _ & _ & _ & _ & _ & _ & _ & Hev & _ & Hone).
  destruct (Hone e eq_refl) as (Hd & Hdist & Hb).
  exists r. auto.
Qed.

Lemma single_event_stats_zero_witness :
  exists r,
    process_data sqrt_approx [mk_event 3 4 0 false 7] default_grid_size = Ok r /\
    duration (stats r) = 0%Q /\
    distance_traveled (stats r) = 0%Q /\
    acceleration_bursts (stats r) = 0%Z /\
    total_events (stats r) = 1%Z.
Proof.
  apply (single_event_stats_zero sqrt_approx (mk_event 3 4 0 false 7)
           default_grid_size).
  discriminate.
Defined.

(** C10.  For every stream (cell size not zero unless the stream is empty)
    the result is consistent with the stream: the path lists the position of
    every event in order, the speed list the speed of every event in order,
    [total_events] is the length of the stream, and the click positions are
    the positions of the click events in order, [total_clicks] of them. *)
Theorem aggregate_consistent
    (sqrt : Q -> Q) (data : list event) (grid_size : Z) :
  data = [] \/ grid_size <> 0%Z ->
  exists r,
    process_data sqrt data grid_size = Ok r /\
    path r = map xy data /\
    length (path r) = length data /\
    speed_data r = map ev_speed data /\
    length (speed_data r) = length data /\
    total_events (stats r) = Z.of_nat (length data) /\
    click_positions r = map xy (List.filter ev_click data) /\
    Z.of_nat (length (click_positions r)) = total_clicks (stats r).
Proof.
  intros Hcase.
  destruct data as [|e data].
  { eexists. split; [reflexivity|]. cbn. repeat split. }
  destruct Hcase as [Hnil | Hgs]; [discriminate|].
  destruct (process_data_nonempty sqrt (e :: data) grid_size
              ltac:(discriminate) Hgs)
    as (r & Hr & _ & _ & _ & _ & _ & _ & _ & _ & Hpath & Hclk & Hsp & Hev
        & Hcl & _).
  exists r. split; [exact Hr|].
  split; [exact Hpath|].
  split; [rewrite Hpath; apply length_map|].
  split; [exact Hsp|].
  split; [rewrite Hsp; apply length_map|].
  split; [exact Hev|].
  split; [exact Hclk|].
  rewrite Hclk, Hcl, length_map. reflexivity.
Qed.

Lemma aggregate_consistent_witness :
  exists r,
    process_data sqrt_approx
      [mk_event 0 0 0 false 0; mk_event 100 0 100 false 1;
       mk_event 100 0 0 true (101 # 100)] default_grid_size = Ok r /\
    path r = [(0, 0); (100, 0); (100, 0)]%Z /\
    total_events (stats r) = 3%Z /\
    click_positions r = [(100, 0)]%Z /\
    total_clicks (stats r) = 1%Z.
Proof.
  assert (Hgs : default_grid_size <> 0%Z) by discriminate.
  destruct (aggregate_consistent sqrt_approx
              [mk_event 0 0 0 false 0; mk_event 100 0 100 false 1;
               mk_event 100 0 0 true (101 # 100)] default_grid_size
              (or_intror Hgs))
    as (r & Hr & Hpath & _ & _ & _ & Hev & Hclk & Hcl).
  exists r. split; [exact Hr|].
  split; [exact Hpath|]. split; [exact Hev|]. split; [exact Hclk|].
  rewrite <- Hcl. rewrite Hclk. reflexivity.
Defined.

(** An iteration for an event that has no previous event, or is not slower
    than 100, leaves the hesitation grid and the dwell times alone. *)
Lemma process_event_no_dwell
    (min_x min_y grid_size grid_width grid_height : Z)
    (st st' : loop_state) (e : event) :
  process_event min_x min_y grid_size grid_width grid_height st e = Ok st' ->
  st_prev_timestamp st = None \/ (100 <= ev_speed e)%Q ->
  st_hesitation_map st' = st_hesitation_map st /\
  st_dwell_times st' = st_dwell_times st.
Proof.
  unfold process_event. intros Hstep Hcase.
  destruct (int_div (ev_x e - min_x) grid_size) as [gx|];
    cbn [rbind] in Hstep; [|discriminate].
  destruct (int_div (ev_y e - min_y) grid_size) as [gy|];
    cbn [rbind] in Hstep; [|discriminate].
  destruct (nd_update _ (st_heatmap st) _ _) as [h|];
    cbn [rbind] in Hstep; [|discriminate].
  destruct Hcase as [Hnone | Hfast].
  - rewrite Hnone in Hstep. cbn [rbind] in Hstep.
    injection Hstep as <-. now split.
  - apply Qlt_bool_false_iff in Hfast. rewrite Hfast in Hstep.
    destruct (st_prev_timestamp st); cbn [rbind] in Hstep;
      injection Hstep as <-; now split.
Qed.

(** C4 (amended).  For a stream whose timestamps never decrease (cell size
    not zero unless the stream is empty), no cell of the hesitation grid is
    negative.  For any stream, the cells of the hesitation grid add up to the
    dwell times of the stream: the time since the previous event, for every
    event that has a previous event in the same stream and is slower than
    100; the first event of a stream and the events at speed 100 or more add
    nothing, and an iteration for such an event leaves the grid as it
    is. *)
Theorem hesitation_nonneg_when_ordered
    (sqrt : Q -> Q) (data : list event) (grid_size : Z) :
  data = [] \/ grid_size <> 0%Z ->
  exists r,
    process_data sqrt data grid_size = Ok r /\
    (timestamps_nondecreasing data -> cells_nonneg (hesitation_map r)) /\
    (sumQ (nd_flat (hesitation_map r)) == slow_dwell None data)%Q /\
    (forall e, arrival_dwell None e = 0%Q) /\
    (forall prev e, (100 <= ev_speed e)%Q -> arrival_dwell (Some prev) e = 0%Q) /\
    (forall prev e, (ev_speed e < 100)%Q ->
       arrival_dwell (Some prev) e = (ev_timestamp e - prev)%Q) /\
    (forall min_x min_y grid_width grid_height st st' e,
       process_event min_x min_y grid_size grid_width grid_height st e
       = Ok st' ->
       st_prev_timestamp st = None \/ (100 <= ev_speed e)%Q ->
       st_hesitation_map st' = st_hesitation_map st).
Proof.
  intros Hcase.
  assert (Hframe : forall min_x min_y grid_width grid_height st st' e,
       process_event min_x min_y grid_size grid_width grid_height st e
       = Ok st' ->
       st_prev_timestamp st = None \/ (100 <= ev_speed e)%Q ->
       st_hesitation_map st' = st_hesitation_map st).
  { intros min_x min_y gw gh st st' e Hstep Hc.
    now destruct (process_event_no_dwell _ _ _ _ _ _ _ _ Hstep Hc). }
  assert (Hfast : forall prev e, (100 <= ev_speed e)%Q ->
                    arrival_dwell (Some prev) e = 0%Q).
  { intros prev e H. unfold arrival_dwell.
    apply Qlt_bool_false_iff in H. now rewrite H. }
  assert (Hslow : forall prev e, (ev_speed e < 100)%Q ->
                    arrival_dwell (Some prev) e = (ev_timestamp e - prev)%Q).
  { intros prev e H. unfold arrival_dwell.
    apply Qlt_bool_iff in H. now rewrite H. }
  destruct data as [|e data].
  { eexists. split; [reflexivity|]. cbn [hesitation_map nd_flat np_empty].
    split; [intros _; constructor|].
    split; [reflexivity|]. auto 10. }
  destruct Hcase as [Hnil | Hgs]; [discriminate|].
  destruct (process_data_nonempty sqrt (e :: data) grid_size
              ltac:(discriminate) Hgs)
    as (r & Hr & _ & _ & _ & _ & _ & _ & Hsum & Hnn & _).
  exists r. auto 10.
Qed.

Lemma hesitation_nonneg_when_ordered_witness :
  exists r,
    process_data sqrt_approx
      [mk_event 0 0 0 false 0; mk_event 100 0 100 false 1;
       mk_event 100 0 0 true (101 # 100)] default_grid_size = Ok r /\
    cells_nonneg (hesitation_map r).
Proof.
  assert (Hgs : default_grid_size <> 0%Z) by discriminate.
  destruct (hesitation_nonneg_when_ordered sqrt_approx
              [mk_event 0 0 0 false 0; mk_event 100 0 100 false 1;
               mk_event 100 0 0 true (101 # 100)] default_grid_size
              (or_intror Hgs))
    as (r & Hr & Hnn & _).
  exists r. split; [exact Hr|].
  apply Hnn. repeat split; discriminate.
Defined.

(** C4 as stated fails.  The wall clock steps back one second between a
    move and a click: the logger records the click at speed 0, and
    [process_data] adds the negative time difference to the cell. *)
Lemma hesitation_negative_after_clock_step_back :
  let logger0 := snd (start HookInstalled (__init__ default_sample_rate)) in
  let logger1 := snd (_on_move sqrt_approx 0 0 1000 logger0) in
  let logger2 := snd (_on_click sqrt_approx 0 0 true 999 logger1) in
  _data logger2
  = [mk_event 0 0 (0 # 100) false 1000; mk_event 0 0 (0 # 100) true 999] /\
  exists r,
    process_data sqrt_approx (_data logger2) default_grid_size = Ok r /\
    nd_flat (hesitation_map r) !! 0%nat = Some (-1)%Q /\
    ~ cells_nonneg (hesitation_map r).
Proof.
  cbv zeta. split; [vm_compute; reflexivity|].
  eexists. split; [vm_compute; reflexivity|].
  split; [reflexivity|].
  unfold cells_nonneg. cbn [hesitation_map nd_flat].
  intros H. inversion H as [|v l Hv _]. now apply Hv.
Qed.

(** ** The hesitation ranker *)

Lemma cell_lookup (l : list Q) (i : nat) (v : Q) :
  l !! i = Some v -> cell l i = v.
Proof. intros H. unfold cell. now rewrite H. Qed.

(** A flat index inside a well-formed array unravels to the coordinates of
    the cell that holds its value. *)
Lemma unravel_then_get (a : ndarray Q) (idx : nat) :
  nd_wf a -> (idx < length (nd_flat a))%nat ->
  np_unravel_index idx a
  = Ok (Z.of_nat (idx / nd_cols a), Z.of_nat (idx mod nd_cols a)) /\
  nd_get a (Z.of_nat (idx / nd_cols a)) (Z.of_nat (idx mod nd_cols a))
  = Ok (cell (nd_flat a) idx).
Proof.
  intros Hwf Hidx. unfold nd_wf in Hwf.
  assert (Hcols : nd_cols a <> 0%nat) by (intros H0; rewrite H0 in Hwf; lia).
  assert (Hrow : (idx / nd_cols a < nd_rows a)%nat).
  { apply Nat.Div0.div_lt_upper_bound. lia. }
  assert (Hcol : (idx mod nd_cols a < nd_cols a)%nat)
    by now apply Nat.mod_upper_bound.
  split.
  - unfold np_unravel_index, nd_size.
    destruct (Nat.ltb_spec idx (nd_rows a * nd_cols a)); [reflexivity | lia].
  - unfold nd_get.
    destruct (nd_offset_in_range a (Z.of_nat (idx / nd_cols a))
                (Z.of_nat (idx mod nd_cols a))) as [-> _]; [lia | lia |].
    cbn [rbind]. rewrite !Nat2Z.id.
    replace (idx / nd_cols a * nd_cols a + idx mod nd_cols a)%nat with idx
      by (pose proof (Nat.div_mod_eq idx (nd_cols a)); lia).
    destruct (list_get_lt (nd_flat a) idx Hidx) as (v & -> & Hv).
    now rewrite (cell_lookup _ _ _ Hv).
Qed.

(** The loop of [get_hesitation_zones] over in-range indices: it appends,
    in order, the zone of every index whose cell is positive. *)
Lemma zones_loop (a : ndarray Q) (idxs : list nat) (zones : list (Z * Z * Q)) :
  nd_wf a ->
  Forall (fun idx => (idx < length (nd_flat a))%nat) idxs ->
  for_each
    (fun zones idx =>
       let* (y, x) := np_unravel_index idx a in
       let* dwell := nd_get a y x in
       if Qlt_bool 0 dwell then Ok (zones ++ [(x, y, dwell)]) else Ok zones)%result
    idxs zones
  = Ok (zones ++ map (zone_at a) (List.filter (is_positive (nd_flat a)) idxs)).
Proof.
  intros Hwf Hidxs. revert zones.
  induction Hidxs as [|idx idxs Hidx _ IH]; intros zones.
  - cbn [for_each List.filter map]. now rewrite app_nil_r.
  - cbn [for_each List.filter].
    destruct (unravel_then_get a idx Hwf Hidx) as [Hunravel Hget].
    rewrite Hunravel. cbn [rbind]. rewrite Hget. cbn [rbind].
    unfold is_positive at 1.
    destruct (Qlt_bool 0 (cell (nd_flat a) idx)); cbn [rbind map].
    + rewrite IH, <- app_assoc. reflexivity.
    + apply IH.
Qed.

(** *** Sorted lists under the list operations of the ranker *)

Lemma StronglySorted_reverse {A} (R : A -> A -> Prop) (l : list A) :
  StronglySorted R l -> StronglySorted (fun a b => R b a) (reverse l).
Proof.
  induction 1 as [|a l _ IH Ha]; [constructor|].
  rewrite reverse_cons. apply StronglySorted_app_2.
  - intros x1 x2 Hx1 Hx2. rewrite elem_of_reverse in Hx1.
    rewrite list_elem_of_singleton in Hx2. subst x2.
    rewrite List.Forall_forall in Ha. apply Ha.
    rewrite list_elem_of_In in Hx1. exact Hx1.
  - exact IH.
  - repeat constructor.
Qed.

Lemma StronglySorted_take {A} (R : A -> A -> Prop) (n : nat) (l : list A) :
  StronglySorted R l -> StronglySorted R (take n l).
Proof.
  intros H. rewrite <- (take_drop n l) in H.
  now apply StronglySorted_app_1_l in H.
Qed.

Lemma Forall_list_filter {A} (P : A -> Prop) (f : A -> bool) (l : list A) :
  Forall P l -> Forall P (List.filter f l).
Proof.
  induction 1 as [|a l Ha _ IH]; cbn [List.filter]; [constructor|].
  destruct (f a); [now constructor | exact IH].
Qed.

Lemma StronglySorted_list_filter {A} (R : A -> A -> Prop) (f : A -> bool)
    (l : list A) :
  StronglySorted R l -> StronglySorted R (List.filter f l).
Proof.
  induction 1 as [|a l _ IH Ha]; cbn [List.filter]; [constructor|].
  destruct (f a); [|exact IH].
  constructor; [exact IH | now apply Forall_list_filter].
Qed.

Lemma StronglySorted_map {A B} (R : A -> A -> Prop) (R' : B -> B -> Prop)
    (f : A -> B) (l : list A) :
  (forall a b, R a b -> R' (f a) (f b)) ->
  StronglySorted R l -> StronglySorted R' (map f l).
Proof.
  intros Hf. induction 1 as [|a l _ IH Ha]; cbn [map]; [constructor|].
  constructor; [exact IH|].
  apply List.Forall_map. revert Ha. apply List.Forall_impl. intros b. apply Hf.
Qed.

Lemma slice_to_take {A} (l : list A) (n : Z) :
  exists k, slice_to l n = take k l /\ ((0 <= n)%Z -> k = Z.to_nat n).
Proof.
  unfold slice_to. destruct (Z.leb_spec 0 n).
  - exists (Z.to_nat n). auto.
  - eexists. split; [reflexivity | lia].
Qed.

Lemma list_filter_none {A} (f : A -> bool) (l : list A) :
  Forall (fun b => f b = false) l -> List.filter f l = [].
Proof.
  induction 1 as [|b l Hb _ IH]; cbn [List.filter]; [reflexivity|].
  now rewrite Hb.
Qed.

(** In a list sorted descending, the elements that pass an upward-closed
    test come first: truncating before or after the test is the same. *)
Lemma filter_take_sorted {A} (R : A -> A -> Prop) (f : A -> bool) (n : nat)
    (l : list A) :
  (forall a b, R a b -> f b = true -> f a = true) ->
  StronglySorted R l ->
  List.filter f (take n l) = take n (List.filter f l).
Proof.
  intros Hup Hl. revert n.
  induction Hl as [|a l _ IH Ha]; intros n.
  - cbn [List.filter]. rewrite !take_nil. reflexivity.
  - destruct n as [|n]; [reflexivity|].
    cbn [take List.filter]. destruct (f a) eqn:Hfa.
    + cbn [take]. now rewrite IH.
    + assert (Hall : Forall (fun b => f b = false) l).
      { apply List.Forall_forall. rewrite List.Forall_forall in Ha.
        intros b Hb. destruct (f b) eqn:Hfb; [|reflexivity].
        rewrite (Hup a b (Ha b Hb) Hfb) in Hfa. discriminate. }
      rewrite (list_filter_none f l Hall), take_nil.
      apply list_filter_none. now apply Forall_take.
Qed.

Lemma list_filter_length_Permutation {A} (f : A -> bool) (l l' : list A) :
  Permutation l l' ->
  length (List.filter f l) = length (List.filter f l').
Proof.
  induction 1 as [|a l l' _ IH|a b l|l l' l'' _ IH _ IH'];
    cbn [List.filter].
  - reflexivity.
  - destruct (f a); cbn [length]; now rewrite IH.
  - destruct (f a), (f b); reflexivity.
  - now rewrite IH.
Qed.

Lemma positive_indices_count (l1 l2 : list Q) :
  length (List.filter (is_positive (l1 ++ l2)) (seq (length l1) (length l2)))
  = length (List.filter (Qlt_bool 0) l2).
Proof.
  revert l1. induction l2 as [|v l2 IH]; intros l1; [reflexivity|].
  cbn [length seq List.filter].
  assert (Hv : is_positive (l1 ++ v :: l2) (length l1) = Qlt_bool 0 v).
  { unfold is_positive. f_equal. apply cell_lookup.
    apply list_lookup_middle. reflexivity. }
  rewrite Hv.
  specialize (IH (l1 ++ [v])).
  rewrite <- app_assoc in IH. cbn [app] in IH.
  rewrite length_app in IH. cbn [length] in IH.
  replace (length l1 + 1)%nat with (S (length l1)) in IH by lia.
  destruct (Qlt_bool 0 v); cbn [length]; now rewrite IH.
Qed.

(** *** [get_hesitation_zones] with any [argsort] *)

Section Ranking.

Variable argsort : list Q -> list nat.
Hypothesis argsort_ok : is_argsort argsort.

Lemma argsort_in_range (l : list Q) :
  Forall (fun i => (i < length l)%nat) (argsort l).
Proof using argsort_ok.
  destruct (argsort_ok l) as [Hperm _].
  apply List.Forall_forall. intros i Hi.
  apply (Permutation_in _ Hperm), in_seq in Hi. lia.
Qed.

Lemma top_indices_in_range (l : list Q) (top_n : Z) :
  Forall (fun i => (i < length l)%nat) (slice_to (reverse (argsort l)) top_n).
Proof using argsort_ok.
  destruct (slice_to_take (reverse (argsort l)) top_n) as (k & -> & _).
  apply Forall_take, Forall_reverse, argsort_in_range.
Qed.

Lemma top_indices_descending (l : list Q) (top_n : Z) :
  StronglySorted (fun i j => (cell l j <= cell l i)%Q)
    (slice_to (reverse (argsort l)) top_n).
Proof using argsort_ok.
  destruct (slice_to_take (reverse (argsort l)) top_n) as (k & -> & _).
  apply StronglySorted_take.
  apply (StronglySorted_reverse (fun i j => (cell l i <= cell l j)%Q)).
  apply argsort_ok.
Qed.

Lemma get_hesitation_zones_ranked (processed : processed_data) (top_n : Z) :
  nd_wf (hesitation_map processed) ->
  get_hesitation_zones argsort processed top_n
  = Ok (ranked_zones argsort (hesitation_map processed) top_n).
Proof using argsort_ok.
  intros Hwf. unfold get_hesitation_zones, ranked_zones.
  destruct (Nat.eqb_spec (nd_size (hesitation_map processed)) 0) as [H0 | _].
  - unfold nd_wf in Hwf. unfold nd_size in H0. rewrite H0 in Hwf.
    apply nil_length_inv in Hwf. rewrite Hwf.
    destruct (argsort_ok []) as [Hperm _]. cbn [length seq] in Hperm.
    apply Permutation_sym, Permutation_nil in Hperm. rewrite Hperm.
    destruct (slice_to_take (reverse (@nil nat)) top_n) as (k & -> & _).
    rewrite reverse_nil, take_nil. reflexivity.
  - rewrite zones_loop; [reflexivity | exact Hwf |].
    apply top_indices_in_range.
Qed.

Lemma ranked_zones_descending (a : ndarray Q) (top_n : Z) :
  StronglySorted (fun z1 z2 => (zone_dwell z2 <= zone_dwell z1)%Q)
    (ranked_zones argsort a top_n).
Proof using argsort_ok.
  unfold ranked_zones.
  apply (StronglySorted_map
           (fun i j => (cell (nd_flat a) j <= cell (nd_flat a) i)%Q)).
  - intros i j Hij. exact Hij.
  - apply StronglySorted_list_filter, top_indices_descending.
Qed.

Lemma ranked_zones_positive (a : ndarray Q) (top_n : Z) :
  Forall (fun z => (0 < zone_dwell z)%Q) (ranked_zones argsort a top_n).
Proof.
  unfold ranked_zones. apply List.Forall_map, List.Forall_forall.
  intros i Hi. apply List.filter_In in Hi. destruct Hi as [_ Hpos].
  now apply Qlt_bool_iff.
Qed.

Lemma ranked_zones_in_grid (a : ndarray Q) (top_n : Z) :
  nd_wf a -> Forall (zone_in a) (ranked_zones argsort a top_n).
Proof using argsort_ok.
  intros Hwf. unfold ranked_zones.
  apply List.Forall_map, Forall_list_filter.
  generalize (top_indices_in_range (nd_flat a) top_n).
  apply List.Forall_impl. intros i Hi.
  now destruct (unravel_then_get a i Hwf Hi) as [_ Hget].
Qed.

Lemma ranked_zones_length (a : ndarray Q) (top_n : Z) :
  (0 <= top_n)%Z ->
  length (ranked_zones argsort a top_n)
  = Nat.min (Z.to_nat top_n) (positive_cells a).
Proof using argsort_ok.
  intros Hn. unfold ranked_zones, positive_cells, slice_to.
  destruct (Z.leb_spec 0 top_n); [|lia].
  rewrite length_map.
  rewrite (filter_take_sorted
             (fun i j => (cell (nd_flat a) j <= cell (nd_flat a) i)%Q)).
  - rewrite length_take. f_equal.
    destruct (argsort_ok (nd_flat a)) as [Hperm _].
    rewrite (list_filter_length_Permutation _ _ (seq 0 (length (nd_flat a)))).
    + apply (positive_indices_count [] (nd_flat a)).
    + rewrite reverse_Permutation. exact Hperm.
  - intros i j Hij Hj. unfold is_positive in *.
    apply Qlt_bool_iff. apply Qlt_bool_iff in Hj.
    eapply Qlt_le_trans; eauto.
  - apply (StronglySorted_reverse
             (fun i j => (cell (nd_flat a) i <= cell (nd_flat a) j)%Q)).
    apply argsort_ok.
Qed.

End Ranking.

(** *** The insertion [argsort] is an [argsort] *)

Lemma insert_index_Permutation (l : list Q) (i : nat) (sorted : list nat) :
  Permutation (insert_index l i sorted) (i :: sorted).
Proof.
  induction sorted as [|j rest IH]; cbn [insert_index]; [reflexivity|].
  destruct (Qlt_bool _ _); [reflexivity|].
  rewrite IH. apply perm_swap.
Qed.

Lemma insert_index_sorted (l : list Q) (i : nat) (sorted : list nat) :
  StronglySorted (fun a b => (cell l a <= cell l b)%Q) sorted ->
  StronglySorted (fun a b => (cell l a <= cell l b)%Q) (insert_index l i sorted).
Proof.
  induction 1 as [|j rest Hrest IH Hj]; cbn [insert_index].
  - repeat constructor.
  - destruct (Qlt_bool (cell l i) (cell l j)) eqn:Hlt.
    + apply Qlt_bool_iff, Qlt_le_weak in Hlt.
      constructor; [now constructor|].
      constructor; [exact Hlt|].
      revert Hj. apply List.Forall_impl. intros k Hk.
      eapply Qle_trans; eauto.
    + apply Qlt_bool_false_iff in Hlt.
      constructor; [exact IH|].
      apply (Permutation_Forall (Permutation_sym (insert_index_Permutation l i rest))).
      now constructor.
Qed.

Lemma insertion_fold (l : list Q) (indices sorted : list nat) :
  Permutation (foldl (fun sorted i => insert_index l i sorted) sorted indices)
              (sorted ++ indices) /\
  (StronglySorted (fun a b => (cell l a <= cell l b)%Q) sorted ->
   StronglySorted (fun a b => (cell l a <= cell l b)%Q)
     (foldl (fun sorted i => insert_index l i sorted) sorted indices)).
Proof.
  revert sorted. induction indices as [|i indices IH]; intros sorted.
  - cbn [foldl]. rewrite app_nil_r. split; [reflexivity | auto].
  - cbn [foldl]. destruct (IH (insert_index l i sorted)) as [Hperm Hsorted].
    split.
    + rewrite Hperm, insert_index_Permutation.
      now rewrite <- Permutation_middle.
    + intros H. now apply Hsorted, insert_index_sorted.
Qed.

Lemma insertion_argsort_ok : is_argsort insertion_argsort.
Proof.
  intros l. unfold insertion_argsort.
  destruct (insertion_fold l (seq 0 (length l)) []) as [Hperm Hsorted].
  split; [exact Hperm | apply Hsorted; constructor].
Qed.

(** C3 (amended).  On a well-formed hesitation grid and with any [argsort],
    [get_hesitation_zones] returns the zones of the positive cells among the
    first [top_n] indices of the reversed [argsort] order, each with the
    coordinates and the dwell of its cell.  The zones are in descending
    order of dwell and every dwell is positive (cells at 0 or below are
    left out); for [top_n >= 0] there are [min top_n p] of them, [p] the
    number of positive cells; a grid without cells gives the empty list.
    The order of two zones of equal dwell is the reverse of the order
    [argsort] gives them. *)
Theorem top_zones_descending_positive
    (argsort : list Q -> list nat) (processed : processed_data) (top_n : Z) :
  is_argsort argsort ->
  nd_wf (hesitation_map processed) ->
  exists zones,
    get_hesitation_zones argsort processed top_n = Ok zones /\
    zones = ranked_zones argsort (hesitation_map processed) top_n /\
    StronglySorted (fun z1 z2 => (zone_dwell z2 <= zone_dwell z1)%Q) zones /\
    Forall (fun z => (0 < zone_dwell z)%Q) zones /\
    Forall (zone_in (hesitation_map processed)) zones /\
    ((0 <= top_n)%Z ->
     length zones
     = Nat.min (Z.to_nat top_n) (positive_cells (hesitation_map processed))) /\
    (nd_size (hesitation_map processed) = 0%nat -> zones = []).
Proof.
  intros Hargsort Hwf.
  exists (ranked_zones argsort (hesitation_map processed) top_n).
  pose proof (get_hesitation_zones_ranked argsort Hargsort processed top_n Hwf)
    as Hget.
  split; [exact Hget|]. split; [reflexivity|].
  split; [now apply ranked_zones_descending|].
  split; [apply ranked_zones_positive|].
  split; [now apply ranked_zones_in_grid|].
  split; [now apply ranked_zones_length|].
  intros Hsize. unfold get_hesitation_zones in Hget.
  rewrite Hsize in Hget. cbn [Nat.eqb] in Hget. congruence.
Qed.

(** A 2 x 2 hesitation grid with two cells at 3, one at 1 and one at 0. *)
Lemma top_zones_descending_positive_witness :
  let grid := mk_ndarray 2 2 [0; 3; 1; 3]%Q in
  let processed :=
    mk_processed np_empty grid [] [] [] _empty_stats default_grid_size
                 (0, 0, 0, 0)%Z in
  exists zones,
    get_hesitation_zones insertion_argsort processed default_top_n = Ok zones /\
    StronglySorted (fun z1 z2 => (zone_dwell z2 <= zone_dwell z1)%Q) zones /\
    Forall (fun z => (0 < zone_dwell z)%Q) zones /\
    length zones = 3%nat.
Proof.
  intros grid processed.
  destruct (top_zones_descending_positive insertion_argsort processed
              default_top_n insertion_argsort_ok eq_refl)
    as (zones & Hget & _ & Hsorted & Hpos & _ & Hlen & _).
  exists zones. split; [exact Hget|]. split; [exact Hsorted|].
  split; [exact Hpos|]. rewrite Hlen; [reflexivity | discriminate].
Defined.

(** C3 as stated fails.  Two cells of equal dwell come out with the higher
    flat index first under the stable [argsort], where the claim puts the
    lower index first; and a negative cell is left out, where the claim
    leaves out only the cells at 0. *)
Lemma top_zones_tie_order_reversed :
  let processed_with grid :=
    mk_processed np_empty grid [] [] [] _empty_stats default_grid_size
                 (0, 0, 0, 0)%Z in
  let tied := mk_ndarray 1 2 [1; 1]%Q in
  let negative := mk_ndarray 1 2 [2; -1]%Q in
  get_hesitation_zones insertion_argsort (processed_with tied) default_top_n
  = Ok [(1, 0, 1%Q); (0, 0, 1%Q)]%Z /\
  topZones_spec tied 5 = [(0, 0, 1%Q); (1, 0, 1%Q)]%Z /\
  get_hesitation_zones insertion_argsort (processed_with negative) default_top_n
  = Ok [(0, 0, 2%Q)]%Z /\
  topZones_spec negative 5 = [(0, 0, 2%Q); (1, 0, (-1)%Q)]%Z.
Proof.
  cbv zeta. repeat split; vm_compute; reflexivity.
Qed.

(** * Further properties *)

(** ** The logger over a run of notifications *)

Section ListenerProperties.

Import Listener.

Variable sqrt : Q -> Q.

(** What handling one notification does: nothing (a rate-limited move, a
    release), or one event appended at the notified position and time. *)
Lemma handle_outcome (n : notification) (self : logger) :
  exists self',
    handle sqrt n self = (Ok tt, self') /\
    _listener self' = _listener self /\
    _is_running self' = _is_running self /\
    _sample_rate self' = _sample_rate self /\
    ((self' = self /\ is_press n = false) \/
     (exists speed,
        _calculate_speed sqrt self (fst (notification_position n))
          (snd (notification_position n)) (notification_time n) = Ok speed /\
        _data self'
        = _data self
          ++ [mk_event (fst (notification_position n))
                (snd (notification_position n)) (round2 speed) (is_press n)
                (notification_time n)] /\
        _last_position self' = notification_position n /\
        _last_timestamp self' = notification_time n /\
        _last_sample_time self'
        = (if is_press n then _last_sample_time self else notification_time n) /\
        (is_press n = false ->
         (_sample_rate self <= notification_time n - _last_sample_time self)%Q))).
Proof.
  destruct n as [x y t | x y pressed t];
    cbn [handle notification_position notification_time is_press fst snd].
  - unfold _on_move.
    destruct (Qlt_bool (t - _last_sample_time self) (_sample_rate self)) eqn:Hlim.
    + exists self. do 4 (split; [reflexivity|]). now left.
    + destruct (calculate_speed_returns sqrt self x y t) as [v Hv].
      rewrite Hv. eexists. split; [reflexivity|].
      cbn [_listener _is_running _sample_rate _data _last_position
           _last_timestamp _last_sample_time].
      do 3 (split; [reflexivity|]). right. exists v.
      split; [reflexivity|]. do 4 (split; [reflexivity|]).
      intros _. now apply Qlt_bool_false_iff.
  - unfold _on_click. destruct pressed; cbn [negb].
    + destruct (calculate_speed_returns sqrt self x y t) as [v Hv].
      rewrite Hv. eexists. split; [reflexivity|].
      cbn [_listener _is_running _sample_rate _data _last_position
           _last_timestamp _last_sample_time].
      do 3 (split; [reflexivity|]). right. exists v.
      split; [reflexivity|]. do 4 (split; [reflexivity|]). discriminate.
    + exists self. do 4 (split; [reflexivity|]). now left.
Qed.

(** A run of notifications never raises.  It only appends to the buffer: at
    most one event per notification, exactly one click event per press. *)
Lemma deliver_appends (notifications : list notification) (self : logger) :
  exists self' recorded,
    deliver sqrt notifications self = (Ok tt, self') /\
    _data self' = _data self ++ recorded /\
    (length recorded <= length notifications)%nat /\
    length (List.filter ev_click recorded)
    = length (List.filter is_press notifications) /\
    _listener self' = _listener self /\
    _is_running self' = _is_running self /\
    _sample_rate self' = _sample_rate self.
Proof.
  revert self. induction notifications as [|n rest IH]; intros self.
  - exists self, []. cbn [deliver]. rewrite app_nil_r.
    split; [reflexivity|]. split; [reflexivity|]. split; [reflexivity|].
    split; [reflexivity|]. split; [reflexivity|]. split; reflexivity.
  - cbn [deliver].
    destruct (handle_outcome n self)
      as (self1 & -> & Hl1 & Hr1 & Hs1 & Hcase).
    destruct (IH self1)
      as (self' & rec & -> & Hdata & Hlen & Hclk & Hl & Hr & Hs).
    destruct Hcase as [[-> Hpress] | (v & _ & Hdata1 & _)].
    + exists self', rec. split; [reflexivity|]. split; [exact Hdata|].
      cbn [length List.filter]. rewrite Hpress.
      split; [lia|]. split; [exact Hclk|].
      split; [exact Hl|]. split; [exact Hr | exact Hs].
    + eexists self', (_ :: rec). split; [reflexivity|].
      split; [rewrite Hdata, Hdata1, <- app_assoc; reflexivity|].
      cbn [length List.filter ev_click].
      split; [lia|].
      split; [destruct (is_press n); cbn [length]; congruence|].
      split; [congruence|]. split; congruence.
Qed.

End ListenerProperties.

Lemma Sorted_snoc {A} (R : A -> A -> Prop) (l : list A) (e : A) :
  Sorted R l -> (forall a, last l = Some a -> R a e) -> Sorted R (l ++ [e]).
Proof.
  induction 1 as [|a l Hl IH Ha]; intros Hlast; cbn [app].
  - repeat constructor.
  - constructor.
    + apply IH. intros b Hb. apply Hlast.
      destruct l; [discriminate | exact Hb].
    + destruct Ha as [|b l Hab]; cbn [app]; constructor.
      * now apply Hlast.
      * exact Hab.
Qed.

Lemma nondecreasing_snoc (prev : option Q) (l : list event) (e : event) :
  nondecreasing_from prev l ->
  Forall (fun a => (ev_timestamp a <= ev_timestamp e)%Q) l ->
  match prev with Some p => (p <= ev_timestamp e)%Q | None => True end ->
  nondecreasing_from prev (l ++ [e]).
Proof.
  revert prev. induction l as [|a l IH]; intros prev Hl Hle Hprev.
  - cbn. auto.
  - cbn [app nondecreasing_from] in *. destruct Hl as [Ha Hl].
    inversion Hle as [|? ? Hae Hle']; subst.
    split; [exact Ha|]. now apply IH.
Qed.

Section ListenerInvariants.

Import Listener.

Variable sqrt : Q -> Q.

Lemma moves_snoc (l : list event) (e : event) :
  moves (l ++ [e]) = moves l ++ (if ev_click e then [] else [e]).
Proof.
  unfold moves. rewrite List.filter_app. cbn [List.filter].
  now destruct (ev_click e).
Qed.

Lemma handle_rate_limited (n : notification) (self : logger) :
  rate_limited self -> rate_limited (snd (handle sqrt n self)).
Proof.
  intros [Hsorted Hlast].
  destruct (handle_outcome sqrt n self)
    as (self' & -> & _ & _ & Hrate & Hcase). cbn [snd].
  destruct Hcase as [[-> _] | (v & _ & Hdata & _ & _ & Hlst & Hgap)];
    [now split|].
  unfold rate_limited. rewrite Hrate, Hdata, moves_snoc. cbn [ev_click].
  destruct (is_press n).
  - rewrite app_nil_r, Hlst. now split.
  - specialize (Hgap eq_refl). split.
    + apply Sorted_snoc; [exact Hsorted|].
      intros a Ha. specialize (Hlast a Ha). unfold apart. cbn [ev_timestamp].
      lra.
    + intros a Ha. rewrite last_snoc in Ha. injection Ha as <-.
      rewrite Hlst. cbn [ev_timestamp]. lra.
Qed.

Lemma deliver_rate_limited (notifications : list notification) (self : logger) :
  rate_limited self -> rate_limited (snd (deliver sqrt notifications self)).
Proof.
  revert self. induction notifications as [|n rest IH]; intros self Hinv.
  - exact Hinv.
  - cbn [deliver]. pose proof (handle_rate_limited n self Hinv) as Hinv1.
    destruct (handle_outcome sqrt n self) as (self1 & Hh & _).
    rewrite Hh in *. cbn [snd] in Hinv1. now apply IH.
Qed.

Lemma deliver_nondecreasing (notifications : list notification) (self : logger) :
  clock_monotone self notifications ->
  timestamps_nondecreasing (_data self) ->
  timestamps_nondecreasing (_data (snd (deliver sqrt notifications self))).
Proof.
  revert self. induction notifications as [|n rest IH]; intros self Hclock Hdata.
  - exact Hdata.
  - cbn [deliver].
    destruct (handle_outcome sqrt n self) as (self1 & -> & _ & _ & _ & Hcase).
    destruct Hclock as [Htimes Hbehind].
    cbn [map] in Htimes. apply StronglySorted_inv in Htimes.
    destruct Htimes as [Hrest Hhead].
    apply IH.
    + split; [exact Hrest|].
      destruct Hcase as [[-> _] | (v & _ & -> & _)].
      * revert Hbehind. apply List.Forall_impl. intros e He.
        now inversion He.
      * apply Forall_app. split.
        -- revert Hbehind. apply List.Forall_impl. intros e He.
           now inversion He.
        -- constructor; [|constructor]. cbn [ev_timestamp].
           rewrite List.Forall_map in Hhead. exact Hhead.
    + destruct Hcase as [[-> _] | (v & _ & -> & _)]; [exact Hdata|].
      apply nondecreasing_snoc; [exact Hdata | | exact I].
      revert Hbehind. apply List.Forall_impl. intros e He.
      cbn [ev_timestamp]. now inversion He.
Qed.

End ListenerInvariants.

(** X1.  [stop] never raises and is idempotent: it clears the running flag
    and, on a running logger, drops the listener; the buffer, the sample
    interval and the timing state are kept; a second [stop] changes
    nothing. *)
Theorem stop_keeps_buffer_idempotent (self : logger) :
  let stopped := snd (stop self) in
  fst (stop self) = Ok tt /\
  _is_running stopped = false /\
  _listener stopped = (if _is_running self then None else _listener self) /\
  _data stopped = _data self /\
  _sample_rate stopped = _sample_rate self /\
  _last_sample_time stopped = _last_sample_time self /\
  _last_position stopped = _last_position self /\
  _last_timestamp stopped = _last_timestamp self /\
  stop stopped = (Ok tt, stopped).
Proof.
  unfold stop. destruct (_is_running self) eqn:Hrun; cbn.
  - repeat (split; [reflexivity|]). reflexivity.
  - rewrite Hrun. cbn. repeat (split; [reflexivity|]). reflexivity.
Qed.

(** X2.  After a failed [start], another [start] is a no-op that returns
    normally, whatever the platform would do now; [stop] clears the flag,
    and the [start] after it installs the hook again (or fails again). *)
Theorem failed_start_recovers_by_stop (hook : hook_outcome) (self : logger) :
  hook <> HookInstalled ->
  _is_running self = false ->
  let failed := snd (start hook self) in
  let recovered := snd (stop failed) in
  (forall retry, start retry failed = (Ok tt, failed)) /\
  _is_running recovered = false /\
  _listener recovered = None /\
  _data recovered = _data self /\
  fst (start HookInstalled recovered) = Ok tt /\
  _listener (snd (start HookInstalled recovered)) = Some tt /\
  _is_running (snd (start HookInstalled recovered)) = true /\
  fst (start hook recovered) = Raise CaptureUnavailable.
Proof.
  intros Hhook Hrun failed recovered. subst recovered failed.
  unfold start, stop. rewrite Hrun.
  destruct hook; [congruence| |]; cbn; repeat (split; [reflexivity|]);
    reflexivity.
Qed.

Lemma failed_start_recovers_by_stop_witness :
  let failed := snd (start ListenerCtorFails (__init__ default_sample_rate)) in
  start HookInstalled failed = (Ok tt, failed) /\
  _listener failed = None /\
  _listener (snd (start HookInstalled (snd (stop failed)))) = Some tt.
Proof.
  intros failed.
  destruct (failed_start_recovers_by_stop ListenerCtorFails
              (__init__ default_sample_rate) ltac:(discriminate) eq_refl)
    as (Hretry & _ & _ & _ & _ & Hlistener & _).
  split; [apply Hretry|]. split; [reflexivity | exact Hlistener].
Defined.

(** X3.  [clear_data] empties the buffer and forgets the last sample: the
    event count is 0 and the next notification, if it is recorded, is
    recorded at speed 0.  It keeps the running flag and the last sample
    time, so the rate limit still counts from the last move accepted before
    the clearing. *)
Theorem clear_data_restarts_speed
    (sqrt : Q -> Q) (self : logger) (n : Listener.notification) :
  let cleared := snd (clear_data self) in
  fst (clear_data self) = Ok tt /\
  fst (event_count cleared) = Ok 0%Z /\
  fst (get_data cleared) = Ok [] /\
  _is_running cleared = _is_running self /\
  _last_sample_time cleared = _last_sample_time self /\
  Forall (fun e => (ev_speed e == 0)%Q)
         (_data (snd (Listener.handle sqrt n cleared))).
Proof.
  intros cleared. do 5 (split; [reflexivity|]).
  destruct (handle_outcome sqrt n cleared) as (self' & -> & _ & _ & _ & Hcase).
  cbn [snd].
  destruct Hcase as [[-> _] | (v & Hv & -> & _)]; [constructor|].
  rewrite calculate_speed_no_sample in Hv by reflexivity.
  injection Hv as <-. repeat constructor.
Qed.

(** X4.  A run of notifications never raises and only appends to the
    buffer: at most one event per notification and exactly one click event
    per press; the listener, the running flag and the sample interval are
    untouched. *)
Theorem notifications_only_append
    (sqrt : Q -> Q) (notifications : list Listener.notification)
    (self : logger) :
  exists self' recorded,
    Listener.deliver sqrt notifications self = (Ok tt, self') /\
    _data self' = _data self ++ recorded /\
    (length recorded <= length notifications)%nat /\
    length (List.filter ev_click recorded)
    = length (List.filter Listener.is_press notifications) /\
    _listener self' = _listener self /\
    _is_running self' = _is_running self /\
    _sample_rate self' = _sample_rate self.
Proof. apply deliver_appends. Qed.

(** X5.  Rate limiting holds over a whole run: if the move events of the
    buffer are one sample interval apart before the run (as in an empty
    buffer), they are after it, whatever the clock does. *)
Theorem recorded_moves_one_interval_apart
    (sqrt : Q -> Q) (notifications : list Listener.notification)
    (self : logger) :
  Listener.rate_limited self ->
  let self' := snd (Listener.deliver sqrt notifications self) in
  Listener.rate_limited self' /\
  Sorted (Listener.apart (_sample_rate self)) (Listener.moves (_data self')).
Proof.
  intros Hinv self'.
  pose proof (deliver_rate_limited sqrt notifications self Hinv) as Hinv'.
  split; [exact Hinv'|].
  destruct (deliver_appends sqrt notifications self)
    as (s & rec & Hrun & _ & _ & _ & _ & _ & Hrate).
  subst self'. rewrite Hrun in *. cbn [snd] in *.
  rewrite <- Hrate. apply Hinv'.
Qed.

Lemma recorded_moves_one_interval_apart_witness :
  let self := snd (start HookInstalled (__init__ default_sample_rate)) in
  let notifications :=
    [Listener.Move 0 0 1000; Listener.Move 1 0 (100001 # 100);
     Listener.Click 1 0 true (100002 # 100); Listener.Move 9 0 (100006 # 100)] in
  Sorted (Listener.apart (_sample_rate self))
    (Listener.moves
       (_data (snd (Listener.deliver sqrt_approx notifications self)))).
Proof.
  intros self notifications.
  apply (recorded_moves_one_interval_apart sqrt_approx notifications self).
  split; [constructor | discriminate].
Defined.

(** X6.  If the clock never steps back during a run, and the buffer was in
    time order and not ahead of the run, the buffer is in time order after
    the run. *)
Theorem monotone_clock_orders_buffer
    (sqrt : Q -> Q) (notifications : list Listener.notification)
    (self : logger) :
  Listener.clock_monotone self notifications ->
  timestamps_nondecreasing (_data self) ->
  timestamps_nondecreasing
    (_data (snd (Listener.deliver sqrt notifications self))).
Proof. apply deliver_nondecreasing. Qed.

Lemma monotone_clock_orders_buffer_witness :
  timestamps_nondecreasing
    (_data (snd (Listener.deliver sqrt_approx
                   [Listener.Move 0 0 1000; Listener.Click 3 4 true 1001;
                    Listener.Move 9 9 1001]
                   (__init__ default_sample_rate)))).
Proof.
  apply (monotone_clock_orders_buffer sqrt_approx
           [Listener.Move 0 0 1000; Listener.Click 3 4 true 1001;
            Listener.Move 9 9 1001] (__init__ default_sample_rate)).
  - split; [|constructor].
    repeat (constructor; [|repeat (constructor; try discriminate)]).
    constructor.
  - exact I.
Defined.

(** ** The recording session *)

Lemma process_data_returns (sqrt : Q -> Q) (data : list event) (grid_size : Z) :
  grid_size <> 0%Z ->
  exists r,
    process_data sqrt data grid_size = Ok r /\
    total_events (stats r) = Z.of_nat (length data) /\
    total_clicks (stats r) = Z.of_nat (length (List.filter ev_click data)) /\
    path r = map xy data /\
    click_positions r = map xy (List.filter ev_click data) /\
    speed_data r = map ev_speed data /\
    nd_wf (hesitation_map r) /\
    (timestamps_nondecreasing data -> cells_nonneg (hesitation_map r)).
Proof.
  intros Hgs. destruct data as [|e data].
  - eexists. split; [reflexivity|]. cbn.
    do 5 (split; [reflexivity|]). split; [reflexivity|]. intros _. constructor.
  - destruct (process_data_nonempty sqrt (e :: data) grid_size
                ltac:(discriminate) Hgs)
      as (r & Hr & _ & Hwf & _ & _ & _ & _ & _ & Hnn & Hpath & Hclk & Hsp
          & Hev & Hcl & _).
    exists r. auto 10.
Qed.

Section SessionProperties.

Import Listener.

Variable sqrt : Q -> Q.

Lemma deliver_click_positions (notifications : list notification)
    (self : logger) :
  exists recorded,
    _data (snd (deliver sqrt notifications self)) = _data self ++ recorded /\
    map xy (List.filter ev_click recorded)
    = map notification_position (List.filter is_press notifications).
Proof.
  revert self. induction notifications as [|n rest IH]; intros self.
  - exists []. cbn [deliver snd]. now rewrite app_nil_r.
  - cbn [deliver].
    destruct (handle_outcome sqrt n self) as (self1 & -> & _ & _ & _ & Hcase).
    destruct (IH self1) as (rec & Hdata & Hpos).
    destruct Hcase as [[-> Hpress] | (v & _ & Hdata1 & _)].
    + exists rec. split; [exact Hdata|].
      cbn [List.filter]. now rewrite Hpress.
    + eexists (_ :: rec).
      split; [rewrite Hdata, Hdata1, <- app_assoc; reflexivity|].
      cbn [List.filter ev_click].
      destruct (is_press n); cbn [map]; [|exact Hpos].
      rewrite Hpos. unfold xy. cbn [ev_x ev_y].
      now destruct (notification_position n).
Qed.

(** From an empty buffer without a last sample, the first event recorded
    has speed 0. *)
Lemma deliver_first_speed (notifications : list notification) (self : logger) :
  _data self = [] -> (_last_timestamp self == 0)%Q ->
  Forall (fun e => (ev_speed e == 0)%Q)
         (take 1 (_data (snd (deliver sqrt notifications self)))).
Proof.
  revert self. induction notifications as [|n rest IH]; intros self Hdata Hts.
  - cbn [deliver snd]. rewrite Hdata. constructor.
  - cbn [deliver].
    destruct (handle_outcome sqrt n self) as (self1 & -> & _ & _ & _ & Hcase).
    destruct Hcase as [[-> _] | (v & Hv & Hdata1 & _)]; [now apply IH|].
    rewrite (calculate_speed_no_sample sqrt self _ _ _ Hts) in Hv.
    injection Hv as <-.
    destruct (deliver_appends sqrt rest self1) as (s & rec & Hrun & Hd & _).
    rewrite Hrun. cbn [snd]. rewrite Hd, Hdata1, Hdata. cbn [app take].
    repeat constructor.
Qed.

End SessionProperties.

(** X7.  [stop_recording] never raises, in any session state: afterwards
    the logger is stopped with its buffer intact, [data] is a snapshot of
    the buffer, [processed] is the result of [process_data] on that
    snapshot (with as many events in its statistics as the snapshot has),
    and the recording flag is off.  Calling it again changes nothing. *)
Theorem stop_recording_takes_snapshot
    (sqrt : Q -> Q) (st : App.session_state) :
  let st' := snd (App.stop_recording sqrt st) in
  fst (App.stop_recording sqrt st) = Ok tt /\
  App.recording st' = false /\
  _is_running (App.logger st') = false /\
  _data (App.logger st') = _data (App.logger st) /\
  App.data st' = _data (App.logger st) /\
  (exists p,
     App.processed st' = Some p /\
     process_data sqrt (App.data st') default_grid_size = Ok p /\
     total_events (stats p) = Z.of_nat (length (App.data st'))) /\
  App.stop_recording sqrt st' = (Ok tt, st').
Proof.
  intros st'. subst st'. unfold App.stop_recording.
  assert (Hdata : _data (snd (stop (App.logger st))) = _data (App.logger st)).
  { unfold stop. now destruct (_is_running (App.logger st)). }
  assert (Hrun : _is_running (snd (stop (App.logger st))) = false).
  { unfold stop. now destruct (_is_running (App.logger st)) eqn:E. }
  assert (Hstop : snd (stop (snd (stop (App.logger st))))
                  = snd (stop (App.logger st))).
  { unfold stop at 1. now rewrite Hrun. }
  cbn [get_data]. rewrite Hdata.
  destruct (process_data_returns sqrt (_data (App.logger st)) default_grid_size
              ltac:(discriminate)) as (p & Hp & Hev & _).
  rewrite Hp. cbn [fst snd App.recording App.logger App.data App.processed].
  split; [reflexivity|]. split; [reflexivity|]. split; [exact Hrun|].
  split; [exact Hdata|]. split; [reflexivity|].
  split; [exists p; auto|].
  rewrite Hstop, Hdata, Hp. reflexivity.
Qed.

(** X8.  [start_recording] always empties the logger's buffer and leaves
    the running flag set; the last snapshot and its analysis stay.  It
    raises exactly when the logger was not running and the hook cannot be
    installed, and then the recording flag keeps its value. *)
Theorem start_recording_clears_buffer
    (hook : hook_outcome) (st : App.session_state) :
  let st' := snd (App.start_recording hook st) in
  _data (App.logger st') = [] /\
  _is_running (App.logger st') = true /\
  App.data st' = App.data st /\
  App.processed st' = App.processed st /\
  fst (App.start_recording hook st)
  = (if _is_running (App.logger st) then Ok tt
     else match hook with
          | HookInstalled => Ok tt
          | _ => Raise CaptureUnavailable
          end) /\
  App.recording st'
  = (match fst (App.start_recording hook st) with
     | Ok _ => true
     | Raise _ => App.recording st
     end).
Proof.
  unfold App.start_recording, start, clear_data. cbn [snd _is_running].
  destruct (_is_running (App.logger st)) eqn:Hrun.
  - cbn. repeat (split; [reflexivity|]). reflexivity.
  - destruct hook; cbn; repeat (split; [reflexivity|]); reflexivity.
Qed.

Lemma stop_recording_outcome (sqrt : Q -> Q) (st : App.session_state) :
  exists p,
    process_data sqrt (_data (App.logger st)) default_grid_size = Ok p /\
    App.stop_recording sqrt st
    = (Ok tt,
       {| App.logger := snd (stop (App.logger st));
          App.data := _data (App.logger st);
          App.processed := Some p;
          App.recording := false |}).
Proof.
  unfold App.stop_recording. cbn [get_data].
  assert (Hdata : _data (snd (stop (App.logger st))) = _data (App.logger st)).
  { unfold stop. now destruct (_is_running (App.logger st)). }
  rewrite Hdata.
  destruct (process_data_returns sqrt (_data (App.logger st)) default_grid_size
              ltac:(discriminate)) as (p & Hp & _).
  exists p. now rewrite Hp.
Qed.

Lemma start_recording_logger (st : App.session_state) :
  let logger1 := App.logger (snd (App.start_recording HookInstalled st)) in
  _data logger1 = [] /\
  _last_timestamp logger1 = 0%Q /\
  _sample_rate logger1 = _sample_rate (App.logger st).
Proof.
  unfold App.start_recording, start, clear_data. cbn [snd _is_running].
  destruct (_is_running (App.logger st)); cbn; auto.
Qed.

(** X9.  A recording session: [start_recording] (hook installed), a run of
    notifications, [stop_recording].  It never raises.  The snapshot holds
    only events of this run, at most one per notification; its first event
    has speed 0; its move events are one sample interval apart; the
    statistics count its events, and their click count and the click
    positions are those of the presses of the run, in order. *)
Theorem recording_session_consistent
    (sqrt : Q -> Q) (st : App.session_state)
    (notifications : list Listener.notification) :
  let st1 := snd (App.start_recording HookInstalled st) in
  let st2 := App.notifications_arrive sqrt notifications st1 in
  let st3 := snd (App.stop_recording sqrt st2) in
  fst (App.stop_recording sqrt st2) = Ok tt /\
  (length (App.data st3) <= length notifications)%nat /\
  Forall (fun e => (ev_speed e == 0)%Q) (take 1 (App.data st3)) /\
  Sorted (Listener.apart (_sample_rate (App.logger st)))
         (Listener.moves (App.data st3)) /\
  exists p,
    App.processed st3 = Some p /\
    total_events (stats p) = Z.of_nat (length (App.data st3)) /\
    total_clicks (stats p)
    = Z.of_nat (length (List.filter Listener.is_press notifications)) /\
    click_positions p
    = map Listener.notification_position
          (List.filter Listener.is_press notifications).
Proof.
  intros st1 st2 st3.
  destruct (start_recording_logger st) as (Hempty & Hts & Hrate).
  fold st1 in Hempty, Hts, Hrate.
  set (logger1 := App.logger st1) in *.
  set (logger2 := snd (Listener.deliver sqrt notifications logger1)).
  assert (Hlogger2 : App.logger st2 = logger2) by reflexivity.
  destruct (stop_recording_outcome sqrt st2) as (p & Hp & Hstop).
  rewrite Hlogger2 in Hp, Hstop.
  subst st3. rewrite Hstop. cbn [fst snd App.data App.processed].
  destruct (deliver_appends sqrt notifications logger1)
    as (s & rec & Hrun & Hdata & Hlen & Hclicks & _ & _ & Hrate2).
  assert (Hs : logger2 = s) by (unfold logger2; now rewrite Hrun).
  rewrite Hempty in Hdata. cbn [app] in Hdata.
  destruct (deliver_click_positions sqrt notifications logger1)
    as (rec' & Hdata' & Hpos).
  fold logger2 in Hdata'. rewrite Hempty in Hdata'. cbn [app] in Hdata'.
  split; [reflexivity|].
  split; [rewrite Hs, Hdata; exact Hlen|].
  split.
  { apply (deliver_first_speed sqrt notifications logger1 Hempty).
    now rewrite Hts. }
  split.
  { rewrite <- Hrate.
    assert (Hinv : Listener.rate_limited logger1).
    { unfold Listener.rate_limited. rewrite Hempty.
      split; [constructor | discriminate]. }
    pose proof (deliver_rate_limited sqrt notifications logger1 Hinv) as [H _].
    fold logger2 in H. rewrite Hs in H |- *. rewrite Hrate2 in H. exact H. }
  destruct (process_data_returns sqrt (_data logger2) default_grid_size
              ltac:(discriminate))
    as (p' & Hp' & Hev & Hcl & _ & Hcp & _).
  rewrite Hp in Hp'. injection Hp' as <-.
  exists p. split; [reflexivity|]. split; [exact Hev|].
  split.
  - rewrite Hcl, Hs, Hdata, Hclicks. reflexivity.
  - rewrite Hcp, Hdata'. exact Hpos.
Qed.

(** X10.  In a recording session whose clock never steps back, the snapshot
    is in time order and no cell of the hesitation grid is negative. *)
Theorem recording_session_hesitation_nonneg
    (sqrt : Q -> Q) (st : App.session_state)
    (notifications : list Listener.notification) :
  StronglySorted Qle (map Listener.notification_time notifications) ->
  let st1 := snd (App.start_recording HookInstalled st) in
  let st2 := App.notifications_arrive sqrt notifications st1 in
  let st3 := snd (App.stop_recording sqrt st2) in
  timestamps_nondecreasing (App.data st3) /\
  exists p,
    App.processed st3 = Some p /\ cells_nonneg (hesitation_map p).
Proof.
  intros Hclock st1 st2 st3.
  destruct (start_recording_logger st) as (Hempty & _ & _).
  fold st1 in Hempty.
  set (logger1 := App.logger st1) in *.
  set (logger2 := snd (Listener.deliver sqrt notifications logger1)).
  assert (Hlogger2 : App.logger st2 = logger2) by reflexivity.
  destruct (stop_recording_outcome sqrt st2) as (p & Hp & Hstop).
  rewrite Hlogger2 in Hp, Hstop.
  subst st3. rewrite Hstop. cbn [snd App.data App.processed].
  assert (Hordered : timestamps_nondecreasing (_data logger2)).
  { apply deliver_nondecreasing.
    - split; [exact Hclock|]. rewrite Hempty. constructor.
    - rewrite Hempty. exact I. }
  split; [exact Hordered|].
  destruct (process_data_returns sqrt (_data logger2) default_grid_size
              ltac:(discriminate))
    as (p' & Hp' & _ & _ & _ & _ & _ & _ & Hnn).
  rewrite Hp in Hp'. injection Hp' as <-.
  exists p. split; [reflexivity | now apply Hnn].
Qed.

Lemma recording_session_hesitation_nonneg_witness :
  let notifications :=
    [Listener.Move 0 0 1000; Listener.Move 100 0 1001;
     Listener.Click 100 0 true (100101 # 100)] in
  let st1 := snd (App.start_recording HookInstalled App.initial_session) in
  let st2 := App.notifications_arrive sqrt_approx notifications st1 in
  let st3 := snd (App.stop_recording sqrt_approx st2) in
  exists p,
    App.processed st3 = Some p /\ cells_nonneg (hesitation_map p).
Proof.
  intros notifications st1 st2 st3.
  apply (recording_session_hesitation_nonneg sqrt_approx App.initial_session
           notifications).
  repeat (constructor; [|repeat (constructor; try discriminate)]).
  constructor.
Defined.

(** ** The grids, cell by cell *)

Lemma offset_injective (cols i j i' j' : nat) :
  (j < cols)%nat -> (j' < cols)%nat ->
  (i * cols + j = i' * cols + j')%nat -> i = i' /\ j = j'.
Proof.
  intros Hj Hj' Heq.
  assert (Hi : i = i').
  { destruct (Nat.lt_trichotomy i i') as [Hlt | [Heq' | Hgt]];
      [exfalso; nia | exact Heq' | exfalso; nia]. }
  subst i'. split; [reflexivity | lia].
Qed.

Lemma nd_get_zeros {A} (zero : A) (rows cols i j : Z) :
  (0 <= i < rows)%Z -> (0 <= j < cols)%Z ->
  nd_get (np_zeros zero rows cols) i j = Ok zero.
Proof.
  intros Hi Hj. unfold nd_get.
  destruct (nd_offset_in_range (np_zeros zero rows cols) i j) as [-> Hlt];
    [cbn [np_zeros nd_rows]; lia | cbn [np_zeros nd_cols]; lia |].
  cbn [rbind]. unfold list_get. cbn [np_zeros nd_flat nd_rows nd_cols] in *.
  now rewrite lookup_replicate_2.
Qed.

(** Reading a cell after an in-bounds update of a cell. *)
Lemma nd_get_update {A} (f : A -> A) (rows cols : Z) (a a' : ndarray A)
    (gy gx i j : Z) (v : A) :
  has_shape rows cols a ->
  (0 <= gy < rows)%Z -> (0 <= gx < cols)%Z ->
  (0 <= i < rows)%Z -> (0 <= j < cols)%Z ->
  nd_update f a gy gx = Ok a' ->
  nd_get a i j = Ok v ->
  nd_get a' i j = Ok (if Grid.same_cell (gy, gx) i j then f v else v).
Proof.
  intros (Hr & Hc & Hwf) Hgy Hgx Hi Hj Hupd Hget.
  unfold nd_update in Hupd. unfold nd_get in *.
  destruct (nd_offset_in_range a gy gx) as [Hoff _]; [lia | lia |].
  destruct (nd_offset_in_range a i j) as [Hoff' Hlt']; [lia | lia |].
  rewrite Hoff in Hupd. cbn [rbind] in Hupd. injection Hupd as <-.
  rewrite Hoff' in Hget. cbn [rbind] in Hget.
  unfold nd_offset in *. cbn [nd_rows nd_cols nd_flat] in *.
  rewrite !np_index_in_range by lia. cbn [rbind].
  unfold list_get in *. rewrite list_lookup_alter.
  unfold Grid.same_cell. cbn [fst snd].
  destruct (decide (Z.to_nat gy * nd_cols a + Z.to_nat gx
                    = Z.to_nat i * nd_cols a + Z.to_nat j)%nat) as [Heq | Hne].
  - apply offset_injective in Heq; [|lia|lia].
    destruct Heq as [Hy Hx].
    assert (gy = i) by lia. assert (gx = j) by lia. subst i j.
    rewrite !Z.eqb_refl. cbn [andb].
    destruct (nd_flat a !! _) as [w|]; [|discriminate].
    injection Hget as <-. reflexivity.
  - destruct (Z.eqb_spec gy i) as [->|]; [|exact Hget].
    destruct (Z.eqb_spec gx j) as [->|]; [|exact Hget].
    contradiction.
Qed.

Section EventLoopCells.

Variables (min_x min_y grid_size grid_width grid_height : Z).
Hypothesis grid_size_nonzero : grid_size <> 0%Z.
Hypothesis grid_width_pos : (1 <= grid_width)%Z.
Hypothesis grid_height_pos : (1 <= grid_height)%Z.

Variables (i j : Z).
Hypothesis i_in_range : (0 <= i < grid_height)%Z.
Hypothesis j_in_range : (0 <= j < grid_width)%Z.

Local Abbreviation arrives :=
  (Grid.arrives_in min_x min_y grid_size grid_width grid_height i j).

Lemma process_event_cell (st st' : loop_state) (e : event) (c : Z) (h : Q) :
  grids_ok grid_height grid_width st ->
  process_event min_x min_y grid_size grid_width grid_height st e = Ok st' ->
  nd_get (st_heatmap st) i j = Ok c ->
  nd_get (st_hesitation_map st) i j = Ok h ->
  grids_ok grid_height grid_width st' /\
  st_prev_timestamp st' = Some (ev_timestamp e) /\
  nd_get (st_heatmap st') i j = Ok (c + (if arrives e then 1 else 0))%Z /\
  exists h',
    nd_get (st_hesitation_map st') i j = Ok h' /\
    (h' == h + (if arrives e
                then arrival_dwell (st_prev_timestamp st) e else 0))%Q.
Proof using grid_size_nonzero grid_width_pos grid_height_pos i_in_range
  j_in_range.
  intros [Hheat Hhes] Hstep Hc Hh. unfold process_event in Hstep.
  rewrite !int_div_nonzero in Hstep by exact grid_size_nonzero.
  cbn [rbind] in Hstep.
  set (gx := Z.max 0 (Z.min (Z.quot (ev_x e - min_x) grid_size) (grid_width - 1)))
    in *.
  set (gy := Z.max 0 (Z.min (Z.quot (ev_y e - min_y) grid_size) (grid_height - 1)))
    in *.
  assert (Harr : arrives e = Grid.same_cell (gy, gx) i j) by reflexivity.
  assert (Hgx : (0 <= gx < grid_width)%Z) by (apply clamp_in_range; lia).
  assert (Hgy : (0 <= gy < grid_height)%Z) by (apply clamp_in_range; lia).
  destruct (nd_update_in_range (fun v => v + 1)%Z _ _ _ gy gx Hheat Hgy Hgx)
    as (k & _ & Hupd & Hheat').
  pose proof (nd_get_update _ _ _ _ _ _ _ _ _ c Hheat Hgy Hgx i_in_range
                j_in_range Hupd Hc) as Hc'.
  rewrite Hupd in Hstep. cbn [rbind] in Hstep.
  assert (Hcount : (if Grid.same_cell (gy, gx) i j then (c + 1)%Z else c)
                   = (c + (if arrives e then 1 else 0))%Z).
  { rewrite Harr. destruct (Grid.same_cell _ _ _); lia. }
  cbv beta in Hc'. rewrite Hcount in Hc'.
  destruct (st_prev_timestamp st) as [prev|] eqn:Hprev; cbn [arrival_dwell].
  - destruct (Qlt_bool (ev_speed e) 100) eqn:Hslow.
    + destruct (nd_update_in_range
                  (fun v => v + (ev_timestamp e - prev))%Q _ _ _ gy gx
                  Hhes Hgy Hgx) as (k' & _ & Hupd' & Hhes').
      pose proof (nd_get_update _ _ _ _ _ _ _ _ _ h Hhes Hgy Hgx i_in_range
                    j_in_range Hupd' Hh) as Hh'.
      rewrite Hupd' in Hstep. cbn [rbind] in Hstep. injection Hstep as <-.
      cbn [st_heatmap st_hesitation_map st_prev_timestamp].
      split; [now split|]. split; [reflexivity|]. split; [exact Hc'|].
      cbv beta in Hh'. eexists. split; [exact Hh'|].
      rewrite Harr. destruct (Grid.same_cell _ _ _); ring.
    + cbn [rbind] in Hstep. injection Hstep as <-.
      cbn [st_heatmap st_hesitation_map st_prev_timestamp].
      split; [now split|]. split; [reflexivity|]. split; [exact Hc'|].
      exists h. split; [exact Hh|]. destruct (arrives e); ring.
  - cbn [rbind] in Hstep. injection Hstep as <-.
    cbn [st_heatmap st_hesitation_map st_prev_timestamp].
    split; [now split|]. split; [reflexivity|]. split; [exact Hc'|].
    exists h. split; [exact Hh|]. destruct (arrives e); ring.
Qed.

Lemma process_events_cells (data : list event) (st st' : loop_state)
    (c : Z) (h : Q) :
  grids_ok grid_height grid_width st ->
  for_each (process_event min_x min_y grid_size grid_width grid_height)
    data st = Ok st' ->
  nd_get (st_heatmap st) i j = Ok c ->
  nd_get (st_hesitation_map st) i j = Ok h ->
  nd_get (st_heatmap st') i j
  = Ok (c + Z.of_nat (length (List.filter arrives data)))%Z /\
  exists h',
    nd_get (st_hesitation_map st') i j = Ok h' /\
    (h' == h + Grid.cell_dwell arrives (st_prev_timestamp st) data)%Q.
Proof using grid_size_nonzero grid_width_pos grid_height_pos i_in_range
  j_in_range.
  revert st c h. induction data as [|e data IH]; intros st c h Hok Hrun Hc Hh.
  - cbn [for_each] in Hrun. injection Hrun as <-.
    cbn [List.filter length Grid.cell_dwell]. rewrite Z.add_0_r.
    split; [exact Hc|]. exists h. split; [exact Hh | ring].
  - cbn [for_each] in Hrun.
    destruct (process_event _ _ _ _ _ st e) as [st1|] eqn:Hstep;
      cbn [rbind] in Hrun; [|discriminate].
    destruct (process_event_cell st st1 e c h Hok Hstep Hc Hh)
      as (Hok1 & Hprev1 & Hc1 & h1 & Hh1 & Hh1eq).
    destruct (IH st1 _ _ Hok1 Hrun Hc1 Hh1) as (Hc' & h' & Hh' & Hh'eq).
    split.
    + rewrite Hc'. f_equal. cbn [List.filter].
      destruct (arrives e); cbn [length]; lia.
    + exists h'. split; [exact Hh'|].
      rewrite Hh'eq, Hh1eq, Hprev1. cbn [Grid.cell_dwell]. ring.
Qed.

End EventLoopCells.

(** [process_data] on a non-empty stream, with the grid it lays out. *)
Lemma process_data_layout (sqrt : Q -> Q) (e0 : event) (data0 : list event)
    (gs : Z) :
  gs <> 0%Z ->
  let min_x := Z.max 0 (foldl Z.min (ev_x e0) (map ev_x data0) - 50) in
  let min_y := Z.max 0 (foldl Z.min (ev_y e0) (map ev_y data0) - 50) in
  let max_x := (foldl Z.max (ev_x e0) (map ev_x data0) + 50)%Z in
  let max_y := (foldl Z.max (ev_y e0) (map ev_y data0) + 50)%Z in
  let grid_width := Z.max 1 (Z.quot (max_x - min_x) gs + 1) in
  let grid_height := Z.max 1 (Z.quot (max_y - min_y) gs + 1) in
  exists st r,
    for_each (process_event min_x min_y gs grid_width grid_height)
      (e0 :: data0)
      {| st_heatmap := np_zeros 0%Z grid_height grid_width;
         st_hesitation_map := np_zeros 0%Q grid_height grid_width;
         st_dwell_times := ∅;
         st_click_positions := [];
         st_path := [];
         st_prev_timestamp := None |} = Ok st /\
    process_data sqrt (e0 :: data0) gs = Ok r /\
    heatmap r = st_heatmap st /\
    hesitation_map r = st_hesitation_map st /\
    bounds r = (min_x, min_y, max_x, max_y) /\
    Processor.grid_size r = gs /\
    grids_ok grid_height grid_width st.
Proof.
  intros Hgs min_x min_y max_x max_y grid_width grid_height.
  assert (Hw : (1 <= grid_width)%Z) by (subst grid_width; lia).
  assert (Hh : (1 <= grid_height)%Z) by (subst grid_height; lia).
  unfold process_data.
  cbn [py_min py_max map rbind].
  rewrite (int_div_nonzero _ _ Hgs). cbn [rbind].
  rewrite (int_div_nonzero _ _ Hgs). cbn [rbind].
  fold min_x min_y max_x max_y. fold grid_width grid_height.
  set (st0 := {| st_heatmap := np_zeros 0%Z grid_height grid_width;
                 st_hesitation_map := np_zeros 0%Q grid_height grid_width;
                 st_dwell_times := ∅;
                 st_click_positions := [];
                 st_path := [];
                 st_prev_timestamp := None |}).
  assert (Hok0 : grids_ok grid_height grid_width st0).
  { split; apply has_shape_zeros. }
  destruct (process_events_run min_x min_y gs grid_width grid_height
              Hgs Hw Hh (e0 :: data0) st0 Hok0)
    as (st & Hrun & Hok & _).
  rewrite Hrun. cbn [rbind].
  destruct (calculate_stats_returns sqrt (e0 :: data0)
              (ev_speed e0 :: map ev_speed data0)) as (s & Hstats & _).
  rewrite Hstats. cbn [rbind].
  destruct (detect_acceleration_returns (e0 :: data0) default_threshold)
    as [bursts Hbursts].
  rewrite Hbursts. cbn [rbind].
  exists st. eexists. split; [reflexivity|]. split; [reflexivity|].
  cbn [heatmap hesitation_map bounds Processor.grid_size].
  split; [reflexivity|]. split; [reflexivity|]. split; [reflexivity|].
  split; [reflexivity | exact Hok].
Qed.

Lemma cell_dwell_ext (f g : event -> bool) (prev : option Q)
    (data : list event) :
  (forall e, f e = g e) ->
  Grid.cell_dwell f prev data = Grid.cell_dwell g prev data.
Proof.
  intros Hfg. revert prev. induction data as [|e data IH]; intros prev.
  - reflexivity.
  - cbn [Grid.cell_dwell]. now rewrite Hfg, IH.
Qed.

(** Both grids of a result, cell by cell. *)
Lemma process_data_cells (sqrt : Q -> Q) (data : list event) (gs : Z) :
  data <> [] -> gs <> 0%Z ->
  exists r,
    process_data sqrt data gs = Ok r /\
    forall i j,
      (0 <= i < Z.of_nat (nd_rows (heatmap r)))%Z ->
      (0 <= j < Z.of_nat (nd_cols (heatmap r)))%Z ->
      nd_get (heatmap r) i j
      = Ok (Z.of_nat
              (length
                 (List.filter
                    (fun e => Grid.same_cell (Grid.cell_of r e) i j) data))) /\
      exists h,
        nd_get (hesitation_map r) i j = Ok h /\
        (h == Grid.cell_dwell
                (fun e => Grid.same_cell (Grid.cell_of r e) i j) None data)%Q.
Proof.
  intros Hne Hgs. destruct data as [|e0 data0]; [contradiction|].
  destruct (process_data_layout sqrt e0 data0 gs Hgs)
    as (st & r & Hrun & Hr & Hheat & Hhes & Hbounds & Hsize & Hok).
  exists r. split; [exact Hr|]. intros i j Hi Hj.
  set (min_x := Z.max 0 (foldl Z.min (ev_x e0) (map ev_x data0) - 50)) in *.
  set (min_y := Z.max 0 (foldl Z.min (ev_y e0) (map ev_y data0) - 50)) in *.
  set (max_x := (foldl Z.max (ev_x e0) (map ev_x data0) + 50)%Z) in *.
  set (max_y := (foldl Z.max (ev_y e0) (map ev_y data0) + 50)%Z) in *.
  set (gw := Z.max 1 (Z.quot (max_x - min_x) gs + 1)) in *.
  set (gh := Z.max 1 (Z.quot (max_y - min_y) gs + 1)) in *.
  assert (Hw : (1 <= gw)%Z) by (subst gw; lia).
  assert (Hh : (1 <= gh)%Z) by (subst gh; lia).
  destruct Hok as [(Hrows & Hcols & Hwf) Hokhes].
  rewrite Hheat in Hi, Hj. rewrite Hrows in Hi. rewrite Hcols in Hj.
  assert (Hcell : forall e,
            Grid.same_cell (Grid.cell_of r e) i j
            = Grid.same_cell (Grid.event_cell min_x min_y gs gw gh e) i j).
  { intros e. unfold Grid.cell_of.
    rewrite Hbounds, Hsize, Hheat, Hrows, Hcols.
    rewrite !Z2Nat.id by lia. reflexivity. }
  assert (Hi' : (0 <= i < gh)%Z) by lia.
  assert (Hj' : (0 <= j < gw)%Z) by lia.
  match type of Hrun with
  | for_each _ _ ?s = _ => set (st0 := s) in *
  end.
  assert (Hok0 : grids_ok gh gw st0) by (split; apply has_shape_zeros).
  destruct (process_events_cells min_x min_y gs gw gh Hgs Hw Hh i j
              Hi' Hj' (e0 :: data0) st0 st 0%Z 0%Q Hok0 Hrun)
    as (Hc & h & Hh' & Hheq).
  { apply nd_get_zeros; lia. }
  { apply nd_get_zeros; lia. }
  rewrite Hheat, Hhes. split.
  - rewrite Hc, Z.add_0_l. do 3 f_equal.
    apply List.filter_ext. intros e. symmetry. apply Hcell.
  - exists h. split; [exact Hh'|].
    rewrite Hheq, Qplus_0_l. cbn [st_prev_timestamp].
    rewrite (cell_dwell_ext _ _ None (e0 :: data0) Hcell). reflexivity.
Qed.

(** X11.  The heatmap, cell by cell: the cell at row [i], column [j] holds
    the number of events of the stream whose clamped grid index is
    [(i, j)]. *)
Theorem heatmap_cell_counts_its_events
    (sqrt : Q -> Q) (data : list event) (gs : Z) :
  data <> [] -> gs <> 0%Z ->
  exists r,
    process_data sqrt data gs = Ok r /\
    forall i j,
      (0 <= i < Z.of_nat (nd_rows (heatmap r)))%Z ->
      (0 <= j < Z.of_nat (nd_cols (heatmap r)))%Z ->
      nd_get (heatmap r) i j
      = Ok (Z.of_nat
              (length
                 (List.filter
                    (fun e => Grid.same_cell (Grid.cell_of r e) i j) data))).
Proof.
  intros Hne Hgs.
  destruct (process_data_cells sqrt data gs Hne Hgs) as (r & Hr & Hcells).
  exists r. split; [exact Hr|]. intros i j Hi Hj.
  now destruct (Hcells i j Hi Hj).
Qed.

Lemma heatmap_cell_counts_its_events_witness :
  exists r,
    process_data sqrt_approx
      [mk_event 0 0 0 false 0; mk_event 100 0 100 false 1;
       mk_event 100 0 0 true (101 # 100)] default_grid_size = Ok r /\
    nd_get (heatmap r) 0 2 = Ok 2%Z.
Proof.
  destruct (heatmap_cell_counts_its_events sqrt_approx
              [mk_event 0 0 0 false 0; mk_event 100 0 100 false 1;
               mk_event 100 0 0 true (101 # 100)] default_grid_size
              ltac:(discriminate) ltac:(discriminate)) as (r & Hr & Hcells).
  exists r. split; [exact Hr|].
  assert (Hval : process_data sqrt_approx
            [mk_event 0 0 0 false 0; mk_event 100 0 100 false 1;
             mk_event 100 0 0 true (101 # 100)] default_grid_size = Ok r)
    by exact Hr.
  vm_compute in Hval. injection Hval as <-.
  apply (Hcells 0%Z 2%Z); vm_compute; split; congruence.
Defined.

(** X12.  The hesitation grid, cell by cell: the cell at row [i], column
    [j] holds the sum, over the events that arrive in cell [(i, j)] after
    another event and slower than 100, of the time since the previous
    event. *)
Theorem hesitation_cell_sums_its_dwell
    (sqrt : Q -> Q) (data : list event) (gs : Z) :
  data <> [] -> gs <> 0%Z ->
  exists r,
    process_data sqrt data gs = Ok r /\
    forall i j,
      (0 <= i < Z.of_nat (nd_rows (hesitation_map r)))%Z ->
      (0 <= j < Z.of_nat (nd_cols (hesitation_map r)))%Z ->
      exists h,
        nd_get (hesitation_map r) i j = Ok h /\
        (h == Grid.cell_dwell
                (fun e => Grid.same_cell (Grid.cell_of r e) i j) None data)%Q.
Proof.
  intros Hne Hgs.
  destruct (process_data_cells sqrt data gs Hne Hgs) as (r & Hr & Hcells).
  destruct (process_data_nonempty sqrt data gs Hne Hgs)
    as (r' & Hr' & _ & _ & Hrows & Hcols & _).
  rewrite Hr in Hr'. injection Hr' as <-.
  exists r. split; [exact Hr|]. intros i j Hi Hj.
  rewrite Hrows in Hi. rewrite Hcols in Hj.
  now destruct (Hcells i j Hi Hj).
Qed.

Lemma hesitation_cell_sums_its_dwell_witness :
  exists r,
    process_data sqrt_approx
      [mk_event 0 0 0 false 0; mk_event 100 0 100 false 1;
       mk_event 100 0 0 true (101 # 100)] default_grid_size = Ok r /\
    exists h, nd_get (hesitation_map r) 0 2 = Ok h /\ (h == 1 # 100)%Q.
Proof.
  destruct (hesitation_cell_sums_its_dwell sqrt_approx
              [mk_event 0 0 0 false 0; mk_event 100 0 100 false 1;
               mk_event 100 0 0 true (101 # 100)] default_grid_size
              ltac:(discriminate) ltac:(discriminate)) as (r & Hr & Hcells).
  exists r. split; [exact Hr|].
  assert (Hval : process_data sqrt_approx
            [mk_event 0 0 0 false 0; mk_event 100 0 100 false 1;
             mk_event 100 0 0 true (101 # 100)] default_grid_size = Ok r)
    by exact Hr.
  vm_compute in Hval. injection Hval as <-.
  destruct (Hcells 0%Z 2%Z) as (h & Hh & Heq);
    [vm_compute; split; congruence | vm_compute; split; congruence |].
  exists h. split; [exact Hh|]. rewrite Heq. reflexivity.
Defined.

(** ** Bounds and shape *)

Lemma foldl_min_spec (v : Z) (l : list Z) :
  (foldl Z.min v l <= v)%Z /\
  Forall (fun x => (foldl Z.min v l <= x)%Z) l /\
  In (foldl Z.min v l) (v :: l).
Proof.
  revert v. induction l as [|a l IH]; intros v; cbn [foldl].
  - split; [lia|]. split; [constructor | now left].
  - destruct (IH (Z.min v a)) as (Hle & Hall & Hin).
    split; [lia|]. split.
    + constructor; [lia | exact Hall].
    + destruct Hin as [Hin | Hin]; [|now right; right].
      rewrite <- Hin. destruct (Z.min_spec v a) as [[_ ->] | [_ ->]];
        [now left | now right; left].
Qed.

Lemma foldl_max_spec (v : Z) (l : list Z) :
  (v <= foldl Z.max v l)%Z /\
  Forall (fun x => (x <= foldl Z.max v l)%Z) l /\
  In (foldl Z.max v l) (v :: l).
Proof.
  revert v. induction l as [|a l IH]; intros v; cbn [foldl].
  - split; [lia|]. split; [constructor | now left].
  - destruct (IH (Z.max v a)) as (Hle & Hall & Hin).
    split; [lia|]. split.
    + constructor; [lia | exact Hall].
    + destruct Hin as [Hin | Hin]; [|now right; right].
      rewrite <- Hin. destruct (Z.max_spec v a) as [[_ ->] | [_ ->]];
        [now right; left | now left].
Qed.

(** The lowest and the highest value of a coordinate over a stream. *)
Lemma coordinate_extremes (f : event -> Z) (e0 : event) (data0 : list event) :
  Forall (fun e => (foldl Z.min (f e0) (map f data0) <= f e
                    <= foldl Z.max (f e0) (map f data0))%Z) (e0 :: data0) /\
  Exists (fun e => foldl Z.min (f e0) (map f data0) = f e) (e0 :: data0) /\
  Exists (fun e => foldl Z.max (f e0) (map f data0) = f e) (e0 :: data0).
Proof.
  destruct (foldl_min_spec (f e0) (map f data0)) as (Hmin0 & Hmin & Hminin).
  destruct (foldl_max_spec (f e0) (map f data0)) as (Hmax0 & Hmax & Hmaxin).
  rewrite List.Forall_map in Hmin, Hmax.
  change (f e0 :: map f data0) with (map f (e0 :: data0)) in Hminin, Hmaxin.
  apply in_map_iff in Hminin, Hmaxin.
  destruct Hminin as (a & Ha & Hain). destruct Hmaxin as (b & Hb & Hbin).
  split; [|split].
  - constructor; [lia|].
    rewrite List.Forall_forall in *. intros e He.
    specialize (Hmin e He). specialize (Hmax e He). lia.
  - apply List.Exists_exists. exists a. now split.
  - apply List.Exists_exists. exists b. now split.
Qed.

(** The bounds and the shape [process_data] derives from a non-empty
    stream. *)
Lemma process_data_geometry (sqrt : Q -> Q) (data : list event) (gs : Z) :
  data <> [] -> gs <> 0%Z ->
  exists r lo_x lo_y hi_x hi_y,
    process_data sqrt data gs = Ok r /\
    Forall (fun e => (lo_x <= ev_x e <= hi_x)%Z /\ (lo_y <= ev_y e <= hi_y)%Z)
           data /\
    (Exists (fun e => lo_x = ev_x e) data /\
     Exists (fun e => hi_x = ev_x e) data /\
     Exists (fun e => lo_y = ev_y e) data /\
     Exists (fun e => hi_y = ev_y e) data) /\
    bounds r
    = (Z.max 0 (lo_x - 50), Z.max 0 (lo_y - 50), hi_x + 50, hi_y + 50)%Z /\
    Processor.grid_size r = gs /\
    nd_cols (heatmap r)
    = Z.to_nat (Z.max 1 (Z.quot (hi_x + 50 - Z.max 0 (lo_x - 50)) gs + 1)) /\
    nd_rows (heatmap r)
    = Z.to_nat (Z.max 1 (Z.quot (hi_y + 50 - Z.max 0 (lo_y - 50)) gs + 1)) /\
    nd_cols (hesitation_map r) = nd_cols (heatmap r) /\
    nd_rows (hesitation_map r) = nd_rows (heatmap r) /\
    nd_wf (heatmap r) /\ nd_wf (hesitation_map r).
Proof.
  intros Hne Hgs. destruct data as [|e0 data0]; [contradiction|].
  destruct (process_data_layout sqrt e0 data0 gs Hgs)
    as (st & r & _ & Hr & Hheat & Hhes & Hbounds & Hsize & Hok).
  destruct Hok as [(Hrows & Hcols & Hwf) (Hrows' & Hcols' & Hwf')].
  destruct (coordinate_extremes ev_x e0 data0) as (Hx & Hxlo & Hxhi).
  destruct (coordinate_extremes ev_y e0 data0) as (Hy & Hylo & Hyhi).
  exists r, (foldl Z.min (ev_x e0) (map ev_x data0)),
    (foldl Z.min (ev_y e0) (map ev_y data0)),
    (foldl Z.max (ev_x e0) (map ev_x data0)),
    (foldl Z.max (ev_y e0) (map ev_y data0)).
  split; [exact Hr|].
  split.
  { rewrite List.Forall_forall in *. intros e He.
    split; [now apply Hx | now apply Hy]. }
  split; [auto|].
  split; [exact Hbounds|]. split; [exact Hsize|].
  rewrite Hheat, Hhes.
  split; [exact Hcols|]. split; [exact Hrows|].
  split; [congruence|]. split; [congruence|]. now split.
Qed.

(** X13.  The bounds of a result are the bounding box of the stream, padded
    by 50 on every side, with the low sides clamped at 0. *)
Theorem bounds_are_padded_bounding_box
    (sqrt : Q -> Q) (data : list event) (gs : Z) :
  data <> [] -> gs <> 0%Z ->
  exists r lo_x lo_y hi_x hi_y,
    process_data sqrt data gs = Ok r /\
    bounds r
    = (Z.max 0 (lo_x - 50), Z.max 0 (lo_y - 50), hi_x + 50, hi_y + 50)%Z /\
    Forall (fun e => (lo_x <= ev_x e <= hi_x)%Z /\ (lo_y <= ev_y e <= hi_y)%Z)
           data /\
    Exists (fun e => lo_x = ev_x e) data /\
    Exists (fun e => hi_x = ev_x e) data /\
    Exists (fun e => lo_y = ev_y e) data /\
    Exists (fun e => hi_y = ev_y e) data.
Proof.
  intros Hne Hgs.
  destruct (process_data_geometry sqrt data gs Hne Hgs)
    as (r & lo_x & lo_y & hi_x & hi_y & Hr & Hall & (H1 & H2 & H3 & H4)
        & Hbounds & _).
  exists r, lo_x, lo_y, hi_x, hi_y. auto 10.
Qed.

Lemma bounds_are_padded_bounding_box_witness :
  exists r,
    process_data sqrt_approx
      [mk_event 60 70 0 false 0; mk_event 100 10 100 false 1] default_grid_size
    = Ok r /\
    bounds r = (10, 0, 150, 120)%Z.
Proof.
  destruct (bounds_are_padded_bounding_box sqrt_approx
              [mk_event 60 70 0 false 0; mk_event 100 10 100 false 1]
              default_grid_size ltac:(discriminate) ltac:(discriminate))
    as (r & lo_x & lo_y & hi_x & hi_y & Hr & _).
  exists r. split; [exact Hr|].
  assert (Hval : process_data sqrt_approx
            [mk_event 60 70 0 false 0; mk_event 100 10 100 false 1]
            default_grid_size = Ok r) by exact Hr.
  vm_compute in Hval. injection Hval as <-. reflexivity.
Defined.

Lemma quot_cover (a gs : Z) : (0 < gs)%Z -> (a < (Z.quot a gs + 1) * gs)%Z.
Proof.
  intros Hgs. pose proof (Z.quot_rem' a gs) as Hqr.
  destruct (Z_lt_le_dec a 0) as [Hneg | Hpos].
  - pose proof (Z.rem_nonpos a gs ltac:(lia) ltac:(lia)). nia.
  - pose proof (Z.rem_bound_pos a gs Hpos Hgs). nia.
Qed.

(** X14.  Both grids are well formed and of one shape, which follows from
    the bounds and the cell size of the result: one more column than whole
    cells fit in the width of the bounds, and at least one (rows alike).
    With a positive cell size the columns span more than the width and the
    rows more than the height. *)
Theorem grid_shape_follows_bounds
    (sqrt : Q -> Q) (data : list event) (gs : Z) :
  data <> [] -> gs <> 0%Z ->
  exists r min_x min_y max_x max_y,
    process_data sqrt data gs = Ok r /\
    bounds r = (min_x, min_y, max_x, max_y) /\
    Processor.grid_size r = gs /\
    nd_cols (heatmap r) = Z.to_nat (Z.max 1 (Z.quot (max_x - min_x) gs + 1)) /\
    nd_rows (heatmap r) = Z.to_nat (Z.max 1 (Z.quot (max_y - min_y) gs + 1)) /\
    nd_cols (hesitation_map r) = nd_cols (heatmap r) /\
    nd_rows (hesitation_map r) = nd_rows (heatmap r) /\
    nd_wf (heatmap r) /\ nd_wf (hesitation_map r) /\
    ((0 < gs)%Z ->
     (max_x - min_x < Z.of_nat (nd_cols (heatmap r)) * gs)%Z /\
     (max_y - min_y < Z.of_nat (nd_rows (heatmap r)) * gs)%Z).
Proof.
  intros Hne Hgs.
  destruct (process_data_geometry sqrt data gs Hne Hgs)
    as (r & lo_x & lo_y & hi_x & hi_y & Hr & _ & _ & Hbounds & Hsize
        & Hcols & Hrows & Hcols' & Hrows' & Hwf & Hwf').
  exists r, (Z.max 0 (lo_x - 50)), (Z.max 0 (lo_y - 50)),
    (hi_x + 50)%Z, (hi_y + 50)%Z.
  do 9 (split; [assumption|]).
  intros Hpos. rewrite Hcols, Hrows.
  pose proof (quot_cover (hi_x + 50 - Z.max 0 (lo_x - 50)) gs Hpos).
  pose proof (quot_cover (hi_y + 50 - Z.max 0 (lo_y - 50)) gs Hpos).
  rewrite !Z2Nat.id by lia. nia.
Qed.

Lemma grid_shape_follows_bounds_witness :
  exists r,
    process_data sqrt_approx
      [mk_event 60 70 0 false 0; mk_event 100 10 100 false 1] default_grid_size
    = Ok r /\
    nd_cols (heatmap r) = 3%nat /\ nd_rows (heatmap r) = 3%nat.
Proof.
  destruct (grid_shape_follows_bounds sqrt_approx
              [mk_event 60 70 0 false 0; mk_event 100 10 100 false 1]
              default_grid_size ltac:(discriminate) ltac:(discriminate))
    as (r & min_x & min_y & max_x & max_y & Hr & Hb & _ & Hcols & Hrows & _).
  exists r. split; [exact Hr|].
  assert (Hval : process_data sqrt_approx
            [mk_event 60 70 0 false 0; mk_event 100 10 100 false 1]
            default_grid_size = Ok r) by exact Hr.
  vm_compute in Hval. injection Hval as <-.
  injection Hb as <- <- <- <-. split; [exact Hcols | exact Hrows].
Defined.

(** X15.  With a positive cell size and no negative coordinate, every event
    lies inside the bounds and its grid index needs no clamping: its cell is
    the quotient of its offset from the low corner by the cell size. *)
Theorem nonnegative_events_need_no_clamp
    (sqrt : Q -> Q) (data : list event) (gs : Z) :
  data <> [] -> (0 < gs)%Z ->
  Forall (fun e => (0 <= ev_x e)%Z /\ (0 <= ev_y e)%Z) data ->
  exists r min_x min_y max_x max_y,
    process_data sqrt data gs = Ok r /\
    bounds r = (min_x, min_y, max_x, max_y) /\
    Forall (fun e =>
              (min_x <= ev_x e <= max_x)%Z /\ (min_y <= ev_y e <= max_y)%Z /\
              Grid.cell_of r e
              = (Z.quot (ev_y e - min_y) gs, Z.quot (ev_x e - min_x) gs))
           data.
Proof.
  intros Hne Hgs Hnonneg.
  destruct (process_data_geometry sqrt data gs Hne ltac:(lia))
    as (r & lo_x & lo_y & hi_x & hi_y & Hr & Hall & _ & Hbounds & Hsize
        & Hcols & Hrows & _).
  exists r, (Z.max 0 (lo_x - 50)), (Z.max 0 (lo_y - 50)),
    (hi_x + 50)%Z, (hi_y + 50)%Z.
  split; [exact Hr|]. split; [exact Hbounds|].
  rewrite List.Forall_forall in *. intros e He.
  destruct (Hall e He) as [Hx Hy]. destruct (Hnonneg e He) as [Hx0 Hy0].
  split; [lia|]. split; [lia|].
  unfold Grid.cell_of. rewrite Hbounds, Hsize, Hcols, Hrows.
  unfold Grid.event_cell, Grid.clamp_index.
  set (min_x := Z.max 0 (lo_x - 50)). set (min_y := Z.max 0 (lo_y - 50)).
  pose proof (Z.quot_pos (ev_x e - min_x) gs ltac:(lia) Hgs).
  pose proof (Z.quot_pos (ev_y e - min_y) gs ltac:(lia) Hgs).
  pose proof (Z.quot_le_mono (ev_x e - min_x) (hi_x + 50 - min_x) gs
                Hgs ltac:(lia)).
  pose proof (Z.quot_le_mono (ev_y e - min_y) (hi_y + 50 - min_y) gs
                Hgs ltac:(lia)).
  rewrite !Z2Nat.id by lia. f_equal; lia.
Qed.

Lemma nonnegative_events_need_no_clamp_witness :
  exists r,
    process_data sqrt_approx
      [mk_event 60 70 0 false 0; mk_event 100 10 100 false 1] default_grid_size
    = Ok r /\
    Grid.cell_of r (mk_event 100 10 100 false 1) = (0, 1)%Z.
Proof.
  destruct (nonnegative_events_need_no_clamp sqrt_approx
              [mk_event 60 70 0 false 0; mk_event 100 10 100 false 1]
              default_grid_size ltac:(discriminate) ltac:(reflexivity))
    as (r & min_x & min_y & max_x & max_y & Hr & Hb & Hall).
  { repeat constructor; discriminate. }
  exists r. split; [exact Hr|].
  assert (Hval : process_data sqrt_approx
            [mk_event 60 70 0 false 0; mk_event 100 10 100 false 1]
            default_grid_size = Ok r) by exact Hr.
  vm_compute in Hval. injection Hval as <-.
  injection Hb as <- <- <- <-.
  inversion Hall as [|? ? _ Hrest]. inversion Hrest as [|? ? (_ & _ & Hc) _].
  exact Hc.
Defined.

(** ** Acceleration bursts *)

Lemma speed_at_lookup (data : list event) (i : nat) (e : event) :
  data !! i = Some e -> Stats.speed_at data i = ev_speed e.
Proof. intros H. unfold Stats.speed_at. now rewrite H. Qed.

Lemma bursts_loop (data : list event) (threshold : Q) (indices bursts : list nat) :
  Forall (fun i => (1 <= i < length data)%nat) indices ->
  for_each
    (fun bursts i =>
       let* cur := list_get data i in
       let* prev := list_get data (i - 1) in
       let speed_change := Qabs (float_sub (ev_speed cur) (ev_speed prev)) in
       if Qlt_bool threshold speed_change
       then Ok (bursts ++ [i])
       else Ok bursts)%result
    indices bursts
  = Ok (bursts ++ List.filter (Stats.speed_jump data threshold) indices).
Proof.
  intros Hall. revert bursts.
  induction Hall as [|i indices Hi _ IH]; intros bursts.
  - cbn [for_each List.filter]. now rewrite app_nil_r.
  - cbn [for_each List.filter].
    destruct (list_get_lt data i) as (cur & -> & Hcur); [lia|].
    destruct (list_get_lt data (i - 1)) as (prev & -> & Hprev); [lia|].
    cbn [rbind]. unfold Stats.speed_jump at 1.
    rewrite (speed_at_lookup _ _ _ Hcur), (speed_at_lookup _ _ _ Hprev).
    destruct (Qlt_bool threshold _); cbn [rbind].
    + rewrite IH, <- app_assoc. reflexivity.
    + apply IH.
Qed.

Lemma seq_increasing (start len : nat) : StronglySorted lt (seq start len).
Proof.
  revert start. induction len as [|len IH]; intros start; cbn [seq].
  - constructor.
  - constructor; [apply IH|].
    apply List.Forall_forall. intros i Hi. apply in_seq in Hi. lia.
Qed.

Lemma detect_acceleration_finds_jumps_aux (data : list event) (threshold : Q) :
  exists bursts,
    _detect_acceleration data threshold = Ok bursts /\
    bursts
    = List.filter (Stats.speed_jump data threshold) (seq 1 (length data - 1)).
Proof.
  eexists. split; [|reflexivity].
  unfold _detect_acceleration. rewrite bursts_loop; [reflexivity|].
  apply List.Forall_forall. intros i Hi. apply in_seq in Hi. lia.
Qed.

(** X16.  [_detect_acceleration] never raises; it returns, in increasing
    order, exactly the indices from 1 to the last at which the speed
    differs from the speed of the event before by more than the threshold,
    the difference being the rounded one the float subtraction returns.
    There are fewer bursts than events. *)
Theorem detect_acceleration_finds_jumps (data : list event) (threshold : Q) :
  exists bursts,
    _detect_acceleration data threshold = Ok bursts /\
    bursts
    = List.filter (Stats.speed_jump data threshold)
                  (seq 1 (length data - 1)) /\
    StronglySorted lt bursts /\
    Forall (fun i => (1 <= i < length data)%nat) bursts /\
    (length bursts <= length data - 1)%nat.
Proof.
  eexists. split.
  { unfold _detect_acceleration. rewrite bursts_loop; [reflexivity|].
    apply List.Forall_forall. intros i Hi. apply in_seq in Hi. lia. }
  cbn [app]. split; [reflexivity|].
  split.
  { apply StronglySorted_list_filter, seq_increasing. }
  split.
  { apply Forall_list_filter, List.Forall_forall.
    intros i Hi. apply in_seq in Hi. lia. }
  etransitivity; [apply List.filter_length_le|]. now rewrite length_seq.
Qed.

(** ** Speed statistics *)

Lemma Qmax_spec (a b : Q) :
  (a <= Qmax a b)%Q /\ (b <= Qmax a b)%Q /\ (Qmax a b = a \/ Qmax a b = b).
Proof.
  unfold Qmax. destruct (Qle_bool a b) eqn:E.
  - apply Qle_bool_iff in E. split; [exact E|]. split; [apply Qle_refl | now right].
  - apply Qle_bool_false_lt, Qlt_le_weak in E.
    split; [apply Qle_refl|]. split; [exact E | now left].
Qed.

Lemma Qmin_spec (a b : Q) :
  (Qmin a b <= a)%Q /\ (Qmin a b <= b)%Q /\ (Qmin a b = a \/ Qmin a b = b).
Proof.
  unfold Qmin. destruct (Qle_bool a b) eqn:E.
  - apply Qle_bool_iff in E. split; [apply Qle_refl|]. split; [exact E | now left].
  - apply Qle_bool_false_lt, Qlt_le_weak in E.
    split; [exact E|]. split; [apply Qle_refl | now right].
Qed.

Lemma foldl_Qmax_spec (v : Q) (l : list Q) :
  (v <= foldl Qmax v l)%Q /\
  Forall (fun x => (x <= foldl Qmax v l)%Q) l /\
  In (foldl Qmax v l) (v :: l).
Proof.
  revert v. induction l as [|a l IH]; intros v; cbn [foldl].
  - split; [apply Qle_refl|]. split; [constructor | now left].
  - destruct (IH (Qmax v a)) as (Hle & Hall & Hin).
    destruct (Qmax_spec v a) as (Hv & Ha & Hcase).
    split; [eapply Qle_trans; eauto|]. split.
    + constructor; [eapply Qle_trans; eauto | exact Hall].
    + destruct Hin as [Hin | Hin]; [|now right; right].
      rewrite <- Hin. destruct Hcase as [-> | ->]; [now left | now right; left].
Qed.

Lemma foldl_Qmin_spec (v : Q) (l : list Q) :
  (foldl Qmin v l <= v)%Q /\
  Forall (fun x => (foldl Qmin v l <= x)%Q) l /\
  In (foldl Qmin v l) (v :: l).
Proof.
  revert v. induction l as [|a l IH]; intros v; cbn [foldl].
  - split; [apply Qle_refl|]. split; [constructor | now left].
  - destruct (IH (Qmin v a)) as (Hle & Hall & Hin).
    destruct (Qmin_spec v a) as (Hv & Ha & Hcase).
    split; [eapply Qle_trans; eauto|]. split.
    + constructor; [eapply Qle_trans; eauto | exact Hall].
    + destruct Hin as [Hin | Hin]; [|now right; right].
      rewrite <- Hin. destruct Hcase as [-> | ->]; [now left | now right; left].
Qed.

Lemma sumQ_bracket (lo hi : Q) (l : list Q) :
  Forall (fun v => (lo <= v <= hi)%Q) l ->
  (inject_Z (Z.of_nat (length l)) * lo <= sumQ l
   <= inject_Z (Z.of_nat (length l)) * hi)%Q.
Proof.
  induction 1 as [|v l [Hlo Hhi] _ IH].
  - unfold sumQ. cbn [length foldr Z.of_nat].
    change (inject_Z (Z.of_nat 0)) with 0%Q. lra.
  - cbn [length]. rewrite Nat2Z.inj_succ, <- Z.add_1_r, inject_Z_plus, sumQ_cons.
    destruct IH as [IHlo IHhi]. change (inject_Z 1) with 1%Q.
    split; lra.
Qed.

(** The mean of a non-empty list lies between any bounds of its elements. *)
Lemma np_mean_bracket (lo hi : Q) (l : list Q) :
  l <> [] ->
  Forall (fun v => (lo <= v <= hi)%Q) l ->
  (lo <= np_mean l <= hi)%Q.
Proof.
  intros Hne Hall. destruct (sumQ_bracket lo hi l Hall) as [Hlo Hhi].
  assert (Hn : (0 < inject_Z (Z.of_nat (length l)))%Q).
  { change 0%Q with (inject_Z 0). rewrite <- Zlt_Qlt.
    destruct l; [contradiction | cbn [length]; lia]. }
  unfold np_mean. split.
  - apply Qle_shift_div_l; [exact Hn|]. rewrite Qmult_comm. exact Hlo.
  - apply Qle_shift_div_r; [exact Hn|]. rewrite Qmult_comm. exact Hhi.
Qed.

Lemma for_each_invariant {A St} (P : St -> Prop) (body : St -> A -> result St)
    (l : list A) (s s' : St) :
  P s ->
  (forall s a s', body s a = Ok s' -> P s -> P s') ->
  for_each body l s = Ok s' -> P s'.
Proof.
  intros Hs Hbody. revert s Hs.
  induction l as [|a l IH]; intros s Hs Hrun; cbn [for_each] in Hrun.
  - now injection Hrun as <-.
  - destruct (body s a) as [s1|] eqn:Hstep; cbn [rbind] in Hrun; [|discriminate].
    apply (IH s1); [eapply Hbody; eauto | exact Hrun].
Qed.

Lemma py_getitem_minus1 {A} (l : list A) (x : A) :
  last l = Some x -> py_getitem l (-1) = Ok x.
Proof.
  intros Hlast. unfold py_getitem, np_index.
  assert (Hlen : (0 < length l)%nat) by (destruct l; [discriminate | cbn; lia]).
  destruct (Z.leb_spec 0 (-1)); [lia|]. cbn [andb].
  destruct (Z.leb_spec (- Z.of_nat (length l)) (-1)); [|lia].
  destruct (Z.ltb_spec (-1) 0); [|lia]. cbn [andb rbind].
  unfold list_get.
  replace (Z.to_nat (Z.of_nat (length l) + -1)) with (pred (length l)) by lia.
  now rewrite <- last_lookup, Hlast.
Qed.

Section StatisticsFields.

Variable sqrt : Q -> Q.

(** The statistics of a non-empty stream, field by field. *)
Lemma calculate_stats_fields (e0 : event) (data0 : list event) (v : Q)
    (vs : list Q) :
  exists s,
    _calculate_stats sqrt (e0 :: data0) (v :: vs) = Ok s /\
    for_each
      (fun total_distance i =>
         let* cur := list_get (e0 :: data0) i in
         let* prev := list_get (e0 :: data0) (i - 1) in
         let dx := (ev_x cur - ev_x prev)%Z in
         let dy := (ev_y cur - ev_y prev)%Z in
         Ok (total_distance + sqrt (inject_Z (dx * dx + dy * dy)))%Q)%result
      (seq 1 (length (e0 :: data0) - 1)) 0%Q = Ok (distance_traveled s) /\
    avg_speed s = np_mean (v :: vs) /\
    max_speed s = foldl Qmax v vs /\
    min_speed s = foldl Qmin v vs /\
    speed_std s = np_std sqrt (v :: vs) /\
    duration s
    = match last data0 with
      | Some l => (ev_timestamp l - ev_timestamp e0)%Q
      | None => 0%Q
      end.
Proof.
  unfold _calculate_stats.
  destruct (pairs_loop_returns (e0 :: data0)
              (fun total_distance (_ : nat) cur prev =>
                 Ok (total_distance
                     + sqrt (inject_Z
                          ((ev_x cur - ev_x prev) * (ev_x cur - ev_x prev)
                           + (ev_y cur - ev_y prev) * (ev_y cur - ev_y prev))))%Q)
              0%Q) as [dist Hdist]; [eauto|].
  rewrite Hdist. cbn [rbind].
  assert (Hdur :
    (if (2 <=? length (e0 :: data0))%nat
     then let* last := py_getitem (e0 :: data0) (-1) in
          let* first := py_getitem (e0 :: data0) 0 in
          Ok (ev_timestamp last - ev_timestamp first)%Q
     else Ok 0%Q)%result
    = Ok match last data0 with
         | Some l => (ev_timestamp l - ev_timestamp e0)%Q
         | None => 0%Q
         end).
  { destruct data0 as [|e1 data1]; [reflexivity|].
    cbn [length Nat.leb].
    destruct (last (e1 :: data1)) as [l|] eqn:Hlast.
    - rewrite (py_getitem_minus1 (e0 :: e1 :: data1) l) by exact Hlast.
      rewrite py_getitem_first. reflexivity.
    - apply last_None in Hlast. discriminate. }
  rewrite Hdur. cbn [rbind length Nat.ltb Nat.leb np_max np_min].
  eexists. split; [reflexivity|].
  cbn [distance_traveled avg_speed max_speed min_speed speed_std duration].
  repeat (split; [reflexivity|]). reflexivity.
Qed.

(** The statistics of a result are those of [_calculate_stats], with the
    number of bursts [_detect_acceleration] finds. *)
Lemma process_data_stats (e0 : event) (data0 : list event) (gs : Z) :
  gs <> 0%Z ->
  exists r s,
    process_data sqrt (e0 :: data0) gs = Ok r /\
    _calculate_stats sqrt (e0 :: data0) (map ev_speed (e0 :: data0)) = Ok s /\
    avg_speed (stats r) = avg_speed s /\
    max_speed (stats r) = max_speed s /\
    min_speed (stats r) = min_speed s /\
    speed_std (stats r) = speed_std s /\
    duration (stats r) = duration s /\
    distance_traveled (stats r) = distance_traveled s /\
    acceleration_bursts (stats r)
    = Z.of_nat
        (length (List.filter (Stats.speed_jump (e0 :: data0) default_threshold)
                             (seq 1 (length (e0 :: data0) - 1)))).
Proof.
  intros Hgs.
  destruct (process_data_layout sqrt e0 data0 gs Hgs)
    as (st & r & Hrun & Hr & _).
  destruct (calculate_stats_returns sqrt (e0 :: data0)
              (map ev_speed (e0 :: data0))) as (s & Hs & _).
  destruct (detect_acceleration_finds_jumps_aux (e0 :: data0) default_threshold)
    as (bursts & Hb & Hbeq).
  exists r, s. split; [exact Hr|]. split; [exact Hs|].
  unfold process_data in Hr. cbn [py_min py_max map rbind] in Hr.
  rewrite (int_div_nonzero _ _ Hgs) in Hr. cbn [rbind] in Hr.
  rewrite (int_div_nonzero _ _ Hgs) in Hr. cbn [rbind] in Hr.
  rewrite Hrun in Hr. cbn [rbind] in Hr.
  cbn [map] in Hs. rewrite Hs in Hr. cbn [rbind] in Hr.
  rewrite Hb in Hr. cbn [rbind] in Hr.
  injection Hr as <-. cbn [stats avg_speed max_speed min_speed speed_std
                          duration distance_traveled acceleration_bursts].
  rewrite Hbeq. repeat (split; [reflexivity|]). reflexivity.
Qed.

End StatisticsFields.

Lemma nondecreasing_last (prev : option Q) (l : list event) (x : event) :
  nondecreasing_from prev l -> last l = Some x ->
  match prev with Some p => (p <= ev_timestamp x)%Q | None => True end.
Proof.
  revert prev. induction l as [|a l IH]; intros prev Hl Hlast; [discriminate|].
  cbn [nondecreasing_from] in Hl. destruct Hl as [Ha Hl].
  destruct l as [|b l].
  - injection Hlast as <-. exact Ha.
  - specialize (IH (Some (ev_timestamp a)) Hl Hlast). cbn in IH.
    destruct prev as [p|]; [|exact I]. eapply Qle_trans; eauto.
Qed.

(** The speed statistics of a non-empty stream, the mean taken exactly. *)
Lemma speed_statistics_facts
    (sqrt : Q -> Q) (data : list event) (gs : Z) :
  data <> [] -> gs <> 0%Z ->
  exists r,
    process_data sqrt data gs = Ok r /\
    Forall (fun e => (min_speed (stats r) <= ev_speed e
                      <= max_speed (stats r))%Q) data /\
    Exists (fun e => min_speed (stats r) = ev_speed e) data /\
    Exists (fun e => max_speed (stats r) = ev_speed e) data /\
    avg_speed (stats r) = np_mean (map ev_speed data) /\
    (min_speed (stats r) <= avg_speed (stats r) <= max_speed (stats r))%Q.
Proof.
  intros Hne Hgs. destruct data as [|e0 data0]; [contradiction|].
  destruct (process_data_stats sqrt e0 data0 gs Hgs)
    as (r & s & Hr & Hs & Havg & Hmax & Hmin & _).
  destruct (calculate_stats_fields sqrt e0 data0 (ev_speed e0)
              (map ev_speed data0))
    as (s' & Hs' & _ & Havg' & Hmax' & Hmin' & _).
  cbn [map] in Hs. rewrite Hs in Hs'. injection Hs' as <-.
  destruct (foldl_Qmin_spec (ev_speed e0) (map ev_speed data0))
    as (Hmin0 & Hminall & Hminin).
  destruct (foldl_Qmax_spec (ev_speed e0) (map ev_speed data0))
    as (Hmax0 & Hmaxall & Hmaxin).
  rewrite List.Forall_map in Hminall, Hmaxall.
  change (ev_speed e0 :: map ev_speed data0)
    with (map ev_speed (e0 :: data0)) in *.
  apply in_map_iff in Hminin, Hmaxin.
  destruct Hminin as (a & Ha & Hain). destruct Hmaxin as (b & Hb & Hbin).
  assert (Hall : Forall (fun e =>
            (foldl Qmin (ev_speed e0) (map ev_speed data0) <= ev_speed e
             <= foldl Qmax (ev_speed e0) (map ev_speed data0))%Q)
            (e0 :: data0)).
  { constructor; [now split|].
    rewrite List.Forall_forall in *. intros e He.
    split; [now apply Hminall | now apply Hmaxall]. }
  exists r. split; [exact Hr|].
  rewrite Havg, Hmax, Hmin, Havg', Hmax', Hmin'.
  split; [exact Hall|].
  split; [apply List.Exists_exists; exists a; now split|].
  split; [apply List.Exists_exists; exists b; now split|].
  split; [reflexivity|].
  apply np_mean_bracket; [discriminate|].
  now rewrite List.Forall_map.
Qed.

(** X17.  The speed statistics of a non-empty stream bracket its speeds:
    no event is slower than [min_speed] or faster than [max_speed], and
    each of the two is the speed of some event of the stream. *)
Theorem speed_statistics_bracket_speeds
    (sqrt : Q -> Q) (data : list event) (gs : Z) :
  data <> [] -> gs <> 0%Z ->
  exists r,
    process_data sqrt data gs = Ok r /\
    Forall (fun e => (min_speed (stats r) <= ev_speed e
                      <= max_speed (stats r))%Q) data /\
    Exists (fun e => min_speed (stats r) = ev_speed e) data /\
    Exists (fun e => max_speed (stats r) = ev_speed e) data.
Proof.
  intros Hne Hgs.
  destruct (speed_statistics_facts sqrt data gs Hne Hgs)
    as (r & Hr & Hall & Hmin & Hmax & _).
  exists r. split; [exact Hr|]. split; [exact Hall|].
  split; [exact Hmin | exact Hmax].
Qed.

Lemma speed_statistics_bracket_speeds_witness :
  exists r,
    process_data sqrt_approx
      [mk_event 0 0 0 false 0; mk_event 100 0 100 false 1;
       mk_event 100 0 0 true (101 # 100)] default_grid_size = Ok r /\
    Exists (fun e => max_speed (stats r) = ev_speed e)
      [mk_event 0 0 0 false 0; mk_event 100 0 100 false 1;
       mk_event 100 0 0 true (101 # 100)].
Proof.
  destruct (speed_statistics_bracket_speeds sqrt_approx
              [mk_event 0 0 0 false 0; mk_event 100 0 100 false 1;
               mk_event 100 0 0 true (101 # 100)] default_grid_size
              ltac:(discriminate) ltac:(discriminate))
    as (r & Hr & _ & _ & Hmax).
  exists r. split; [exact Hr | exact Hmax].
Defined.

(** X18.  With a square root that is never negative, [distance_traveled]
    is never negative.  [duration] is the time from the first event to the
    last (0 for a single event), so it is not negative when the timestamps
    never decrease. *)
Theorem distance_and_duration_nonneg
    (sqrt : Q -> Q) (data : list event) (gs : Z) :
  (forall q, (0 <= sqrt q)%Q) ->
  data <> [] -> gs <> 0%Z ->
  exists r first rest,
    process_data sqrt data gs = Ok r /\
    data = first :: rest /\
    (0 <= distance_traveled (stats r))%Q /\
    duration (stats r)
    = match last rest with
      | Some l => (ev_timestamp l - ev_timestamp first)%Q
      | None => 0%Q
      end /\
    (timestamps_nondecreasing data -> (0 <= duration (stats r))%Q).
Proof.
  intros Hsqrt Hne Hgs. destruct data as [|e0 data0]; [contradiction|].
  destruct (process_data_stats sqrt e0 data0 gs Hgs)
    as (r & s & Hr & Hs & _ & _ & _ & _ & Hdur & Hdist & _).
  destruct (calculate_stats_fields sqrt e0 data0 (ev_speed e0)
              (map ev_speed data0))
    as (s' & Hs' & Hloop & _ & _ & _ & _ & Hdur').
  cbn [map] in Hs. rewrite Hs in Hs'. injection Hs' as <-.
  exists r, e0, data0. split; [exact Hr|]. split; [reflexivity|].
  rewrite Hdist, Hdur, Hdur'.
  split.
  { revert Hloop. apply for_each_invariant; [apply Qle_refl|].
    intros acc i acc' Hstep Hacc.
    destruct (list_get (e0 :: data0) i) as [cur|];
      cbn [rbind] in Hstep; [|discriminate].
    destruct (list_get (e0 :: data0) (i - 1)) as [prev|];
      cbn [rbind] in Hstep; [|discriminate].
    injection Hstep as <-.
    rewrite <- (Qplus_0_r 0). apply Qplus_le_compat; [exact Hacc | apply Hsqrt]. }
  split; [reflexivity|].
  intros [_ Hchain].
  destruct (last data0) as [l|] eqn:Hlast; [|apply Qle_refl].
  pose proof (nondecreasing_last _ _ _ Hchain Hlast) as Hle. cbn in Hle.
  unfold Qminus. rewrite <- Qle_minus_iff. exact Hle.
Qed.

Lemma distance_and_duration_nonneg_witness :
  exists r,
    process_data sqrt_approx
      [mk_event 0 0 0 false 0; mk_event 100 0 100 false 1;
       mk_event 100 0 0 true (101 # 100)] default_grid_size = Ok r /\
    (0 <= distance_traveled (stats r))%Q /\
    duration (stats r) = ((101 # 100) - 0)%Q.
Proof.
  destruct (distance_and_duration_nonneg sqrt_approx
              [mk_event 0 0 0 false 0; mk_event 100 0 100 false 1;
               mk_event 100 0 0 true (101 # 100)] default_grid_size
              sqrt_approx_nonneg ltac:(discriminate) ltac:(discriminate))
    as (r & first & rest & Hr & Hdata & Hdist & Hdur & _).
  injection Hdata as <- <-.
  exists r. split; [exact Hr|]. split; [exact Hdist | exact Hdur].
Defined.

(** X19.  The [acceleration_bursts] of a result is the number of events
    whose speed differs from the speed of the event before by more than
    500, the difference being the rounded one the float subtraction
    returns; it is less than [total_events]. *)
Theorem acceleration_bursts_counts_jumps
    (sqrt : Q -> Q) (data : list event) (gs : Z) :
  data <> [] -> gs <> 0%Z ->
  exists r,
    process_data sqrt data gs = Ok r /\
    acceleration_bursts (stats r)
    = Z.of_nat
        (length (List.filter (Stats.speed_jump data 500)
                             (seq 1 (length data - 1)))) /\
    (0 <= acceleration_bursts (stats r) < total_events (stats r))%Z.
Proof.
  intros Hne Hgs. destruct data as [|e0 data0]; [contradiction|].
  destruct (process_data_stats sqrt e0 data0 gs Hgs)
    as (r & s & Hr & _ & _ & _ & _ & _ & _ & _ & Hb).
  destruct (process_data_nonempty sqrt (e0 :: data0) gs Hne Hgs)
    as (r' & Hr' & _ & _ & _ & _ & _ & _ & _ & _ & _ & _ & _ & Hev & _).
  rewrite Hr in Hr'. injection Hr' as <-.
  exists r. split; [exact Hr|]. split; [exact Hb|].
  rewrite Hb, Hev.
  pose proof (List.filter_length_le
                (Stats.speed_jump (e0 :: data0) default_threshold)
                (seq 1 (length (e0 :: data0) - 1))) as Hle.
  rewrite length_seq in Hle. cbn [length] in *. lia.
Qed.

Lemma acceleration_bursts_counts_jumps_witness :
  exists r,
    process_data sqrt_approx
      [mk_event 0 0 100 false 0; mk_event 100 0 700 false 1] default_grid_size
    = Ok r /\
    acceleration_bursts (stats r) = 1%Z.
Proof.
  destruct (acceleration_bursts_counts_jumps sqrt_approx
              [mk_event 0 0 100 false 0; mk_event 100 0 700 false 1]
              default_grid_size ltac:(discriminate) ltac:(discriminate))
    as (r & Hr & Hb & _).
  exists r. split; [exact Hr | exact Hb].
Defined.

(** [round_binary64] on known values: 0.1 is not a binary64 number; an odd
    integer just above [2^53] goes to the neighbour with the even
    significand; half of the smallest subnormal goes to 0. *)
Example round_binary64_values :
  (round_binary64 (1 # 10) == 3602879701896397 / 2 ^ 55)%Q /\
  (round_binary64 (2 ^ 53 + 1) == 2 ^ 53)%Q /\
  (round_binary64 (2 ^ 53 + 3) == 2 ^ 53 + 4)%Q /\
  (round_binary64 (- (2 ^ 53 + 3)) == - (2 ^ 53 + 4))%Q /\
  (round_binary64 (2 ^ (-1075)) == 0)%Q /\
  (round_binary64 (3 * 2 ^ (-1075)) == 2 ^ (-1073))%Q /\
  (round_binary64 (3 # 4) == 3 # 4)%Q.
Proof. vm_compute. repeat split. Qed.

(** The rounding of the difference decides the test.  The floats nearest
    to 0.04 and 500.04 differ by more than 500, their float difference is
    500, and no burst is reported, neither by [_detect_acceleration] nor in
    the statistics of [process_data]. *)
Example rounded_difference_is_no_burst :
  let slow := round_binary64 (4 # 100) in
  let fast := round_binary64 (50004 # 100) in
  let data := [mk_event 0 0 slow false 0; mk_event 0 0 fast false 1] in
  (500 < fast - slow)%Q /\
  (float_sub fast slow == 500)%Q /\
  Stats.speed_jump data 500 1 = false /\
  _detect_acceleration data 500 = Ok [] /\
  (exists r,
     process_data sqrt_approx data default_grid_size = Ok r /\
     acceleration_bursts (stats r) = 0%Z).
Proof.
  intros slow fast data.
  split; [vm_compute; reflexivity|].
  split; [vm_compute; reflexivity|].
  split; [vm_compute; reflexivity|].
  split; [vm_compute; reflexivity|].
  destruct (process_data_stats sqrt_approx
              (mk_event 0 0 slow false 0) [mk_event 0 0 fast false 1]
              default_grid_size)
    as (r & s & Hr & _ & _ & _ & _ & _ & _ & _ & Hb); [discriminate|].
  exists r. split; [exact Hr|]. rewrite Hb. vm_compute. reflexivity.
Qed.

(** ** Zones of an aggregated stream *)

Lemma process_events_no_dwell
    (min_x min_y gs gw gh : Z) (data : list event) (st st' : loop_state) :
  for_each (process_event min_x min_y gs gw gh) data st = Ok st' ->
  match data with
  | [] => True
  | e :: rest =>
      (st_prev_timestamp st = None \/ (100 <= ev_speed e)%Q) /\
      Forall (fun e => (100 <= ev_speed e)%Q) rest
  end ->
  st_hesitation_map st' = st_hesitation_map st.
Proof.
  revert st. induction data as [|e data IH]; intros st Hrun Hfast.
  - cbn [for_each] in Hrun. now injection Hrun as <-.
  - cbn [for_each] in Hrun.
    destruct (process_event _ _ _ _ _ st e) as [st1|] eqn:Hstep;
      cbn [rbind] in Hrun; [|discriminate].
    destruct Hfast as [Hfirst Hrest].
    destruct (process_event_no_dwell _ _ _ _ _ _ _ _ Hstep Hfirst) as [<- _].
    apply IH; [exact Hrun|].
    destruct data as [|e' data']; [exact I|].
    inversion Hrest; subst. split; [now right | assumption].
Qed.

Lemma zeros_not_positive (n idx : nat) :
  is_positive (replicate n 0%Q) idx = false.
Proof.
  unfold is_positive, cell.
  destruct (replicate n 0%Q !! idx) as [v|] eqn:Hv; [|reflexivity].
  apply lookup_replicate in Hv. destruct Hv as [-> _]. reflexivity.
Qed.

Lemma ranked_zones_in_shape (argsort : list Q -> list nat) (a : ndarray Q)
    (top_n : Z) :
  is_argsort argsort -> nd_wf a ->
  Forall (fun z =>
            (0 <= fst (fst z) < Z.of_nat (nd_cols a))%Z /\
            (0 <= snd (fst z) < Z.of_nat (nd_rows a))%Z)
         (ranked_zones argsort a top_n).
Proof.
  intros Hargsort Hwf. unfold ranked_zones.
  apply List.Forall_map, Forall_list_filter.
  generalize (top_indices_in_range argsort Hargsort (nd_flat a) top_n).
  apply List.Forall_impl. intros idx Hidx. unfold nd_wf in Hwf.
  assert (Hcols : nd_cols a <> 0%nat) by (intros H0; rewrite H0 in Hwf; lia).
  cbn [zone_at fst snd]. split.
  - pose proof (Nat.mod_upper_bound idx (nd_cols a) Hcols). lia.
  - assert (idx / nd_cols a < nd_rows a)%nat
      by (apply Nat.Div0.div_lt_upper_bound; lia).
    lia.
Qed.

(** X20.  The zones of an aggregated stream: for any [argsort],
    [get_hesitation_zones] never raises on a result of [process_data]; every
    zone names a cell inside the grid, with the dwell that cell holds, which
    is positive.  A stream in which no event after the first is slower than
    100 (a single event, for one) has no zones. *)
Theorem zones_of_aggregated_stream
    (sqrt : Q -> Q) (argsort : list Q -> list nat) (data : list event)
    (gs top_n : Z) :
  is_argsort argsort ->
  data = [] \/ gs <> 0%Z ->
  exists r zones,
    process_data sqrt data gs = Ok r /\
    get_hesitation_zones argsort r top_n = Ok zones /\
    Forall (fun z =>
              (0 <= fst (fst z) < Z.of_nat (nd_cols (hesitation_map r)))%Z /\
              (0 <= snd (fst z) < Z.of_nat (nd_rows (hesitation_map r)))%Z /\
              zone_in (hesitation_map r) z /\
              (0 < zone_dwell z)%Q) zones /\
    (Forall (fun e => (100 <= ev_speed e)%Q) (drop 1 data) -> zones = []).
Proof.
  intros Hargsort Hcase.
  destruct data as [|e0 data0].
  { eexists. exists []. split; [reflexivity|]. split; [reflexivity|].
    split; [constructor | reflexivity]. }
  destruct Hcase as [Hnil | Hgs]; [discriminate|].
  destruct (process_data_layout sqrt e0 data0 gs Hgs)
    as (st & r & Hrun & Hr & _ & Hhes & _ & _ & [_ Hshape]).
  assert (Hwf : nd_wf (hesitation_map r)) by (rewrite Hhes; apply Hshape).
  exists r, (ranked_zones argsort (hesitation_map r) top_n).
  split; [exact Hr|].
  split; [now apply get_hesitation_zones_ranked|].
  split.
  { pose proof (ranked_zones_in_shape argsort (hesitation_map r) top_n
                  Hargsort Hwf) as Hin.
    pose proof (ranked_zones_in_grid argsort Hargsort (hesitation_map r) top_n
                  Hwf) as Hgrid.
    pose proof (ranked_zones_positive argsort (hesitation_map r) top_n) as Hpos.
    rewrite List.Forall_forall in *. intros z Hz.
    destruct (Hin z Hz) as [Hx Hy]. auto. }
  cbn [drop]. intros Hfast.
  apply process_events_no_dwell in Hrun; [|split; [now left | exact Hfast]].
  cbn [st_hesitation_map] in Hrun.
  unfold ranked_zones. rewrite Hhes, Hrun. cbn [np_zeros nd_flat].
  rewrite list_filter_none; [reflexivity|].
  apply List.Forall_forall. intros idx _. apply zeros_not_positive.
Qed.

Lemma zones_of_aggregated_stream_witness :
  exists r zones,
    process_data sqrt_approx
      [mk_event 0 0 0 false 0; mk_event 100 0 100 false 1;
       mk_event 100 0 0 true (101 # 100)] default_grid_size = Ok r /\
    get_hesitation_zones insertion_argsort r default_top_n = Ok zones /\
    zones = [(2, 0, 1 # 100)]%Z.
Proof.
  assert (Hgs : default_grid_size <> 0%Z) by discriminate.
  destruct (zones_of_aggregated_stream sqrt_approx insertion_argsort
              [mk_event 0 0 0 false 0; mk_event 100 0 100 false 1;
               mk_event 100 0 0 true (101 # 100)] default_grid_size
              default_top_n insertion_argsort_ok (or_intror Hgs))
    as (r & zones & Hr & Hz & _).
  exists r, zones. split; [exact Hr|]. split; [exact Hz|].
  assert (Hval : process_data sqrt_approx
            [mk_event 0 0 0 false 0; mk_event 100 0 100 false 1;
             mk_event 100 0 0 true (101 # 100)] default_grid_size = Ok r)
    by exact Hr.
  vm_compute in Hval. injection Hval as <-.
  vm_compute in Hz. now injection Hz as <-.
Defined.

(** ** The behaviour profile *)

Lemma stats_dict_lookup (s : session_stats) :
  Visualizer.dict_get (Visualizer.stats_dict s) "avg_speed" 0 = avg_speed s /\
  Visualizer.dict_get (Visualizer.stats_dict s) "speed_std" 0 = speed_std s /\
  Visualizer.dict_get (Visualizer.stats_dict s) "total_clicks" 0
  = inject_Z (total_clicks s) /\
  Visualizer.dict_get (Visualizer.stats_dict s) "total_events" 1
  = inject_Z (total_events s) /\
  Visualizer.dict_get (Visualizer.stats_dict s) "acceleration_bursts" 0
  = inject_Z (acceleration_bursts s).
Proof.
  unfold Visualizer.dict_get, Visualizer.stats_dict.
  repeat split; now simplify_map_eq.
Qed.

Lemma ratio_above (a : Z) (k : positive) (c n : Z) :
  (0 < n)%Z ->
  Qlt_bool (a # k) (inject_Z c / inject_Z n) = (a * n <? Z.pos k * c)%Z.
Proof.
  intros Hn.
  assert (Hq : (0 < inject_Z n)%Q).
  { change 0%Q with (inject_Z 0). now rewrite <- Zlt_Qlt. }
  destruct (Z.ltb_spec (a * n) (Z.pos k * c)) as [Hlt | Hge].
  - apply Qlt_bool_iff. apply Qlt_shift_div_l; [exact Hq|].
    unfold Qlt, Qmult, inject_Z. cbn. lia.
  - apply Qlt_bool_false_iff. apply Qle_shift_div_r; [exact Hq|].
    unfold Qle, Qmult, inject_Z. cbn. lia.
Qed.

Lemma Qlt_bool_inject_Z (a b : Z) :
  Qlt_bool (inject_Z a) (inject_Z b) = (a <? b)%Z.
Proof.
  destruct (Z.ltb_spec a b) as [Hlt | Hge].
  - apply Qlt_bool_iff. now rewrite <- Zlt_Qlt.
  - apply Qlt_bool_false_iff. now rewrite <- Zle_Qle.
Qed.

(** The profile of a result, trait by trait, from its statistics. *)
Lemma profile_of_stats (r : processed_data) :
  (0 <= total_clicks (stats r) <= total_events (stats r))%Z ->
  Visualizer.profile r
  = Ok {| Visualizer.style :=
            if Qlt_bool 800 (avg_speed (stats r)) then Visualizer.FastDirect
            else if Qlt_bool 400 (avg_speed (stats r)) then Visualizer.Balanced
            else Visualizer.Deliberate;
          Visualizer.precision :=
            if Qlt_bool (speed_std (stats r)) 200 then Visualizer.HighSteady
            else if Qlt_bool (speed_std (stats r)) 500
                 then Visualizer.MediumPrecision
                 else Visualizer.VariablePrecision;
          Visualizer.decisiveness :=
            if (total_events (stats r) <? 10 * total_clicks (stats r))%Z
            then Visualizer.QuickDecider
            else if (total_events (stats r) <? 20 * total_clicks (stats r))%Z
                 then Visualizer.Thoughtful
                 else Visualizer.Observer;
          Visualizer.energy :=
            if (10 <? acceleration_bursts (stats r))%Z
            then Visualizer.HighEnergy
            else if (5 <? acceleration_bursts (stats r))%Z
                 then Visualizer.ModerateEnergy
                 else Visualizer.Calm |}.
Proof.
  intros Hev. unfold Visualizer.profile, Visualizer._calculate_personality_traits.
  destruct (stats_dict_lookup (stats r)) as (-> & -> & -> & -> & ->).
  change 10%Q with (inject_Z 10). change 5%Q with (inject_Z 5).
  rewrite !Qlt_bool_inject_Z.
  change 0%Q with (inject_Z 0). rewrite Qlt_bool_inject_Z.
  destruct (Z.ltb_spec 0 (total_events (stats r))) as [Hpos | Hzero].
  - rewrite float_div_pos
      by (change 0%Q with (inject_Z 0); now rewrite <- Zlt_Qlt).
    cbn [rbind]. rewrite !ratio_above by exact Hpos.
    replace (1 * total_events (stats r) <? 10 * total_clicks (stats r))%Z
      with (total_events (stats r) <? 10 * total_clicks (stats r))%Z
      by (f_equal; lia).
    replace (5 * total_events (stats r) <? 100 * total_clicks (stats r))%Z
      with (total_events (stats r) <? 20 * total_clicks (stats r))%Z
      by (apply eq_true_iff_eq; rewrite !Z.ltb_lt; lia).
    reflexivity.
  - cbn [rbind].
    assert (Hn : total_events (stats r) = 0%Z) by lia.
    assert (Hc : total_clicks (stats r) = 0%Z) by lia.
    rewrite Hn, Hc. reflexivity.
Qed.

(** X21.  [_calculate_personality_traits] never raises, on any dictionary:
    the division by [total_events] is guarded, and with no event counted the
    decisiveness is "Observer".  The speed list plays no part.  A dictionary
    without any key gives "Deliberate", "High (Steady)", "Observer",
    "Calm". *)
Theorem personality_traits_total (stats : gmap string Q) (speeds : list Q) :
  exists t,
    Visualizer._calculate_personality_traits stats speeds = Ok t /\
    Visualizer._calculate_personality_traits stats [] = Ok t /\
    ((Visualizer.dict_get stats "total_events" 1 <= 0)%Q ->
     Visualizer.decisiveness t = Visualizer.Observer) /\
    Visualizer._calculate_personality_traits ∅ speeds
    = Ok (Visualizer.mk_traits Visualizer.Deliberate Visualizer.HighSteady
            Visualizer.Observer Visualizer.Calm).
Proof.
  unfold Visualizer._calculate_personality_traits.
  destruct (Qlt_bool 0 (Visualizer.dict_get stats "total_events" 1)) eqn:Hev.
  - apply Qlt_bool_iff in Hev. rewrite float_div_pos by exact Hev.
    cbn [rbind]. eexists. split; [reflexivity|]. split; [reflexivity|].
    split; [|reflexivity].
    intros Hle. exfalso. revert Hle. now apply Qlt_not_le.
  - cbn [rbind]. eexists. split; [reflexivity|]. split; [reflexivity|].
    split; reflexivity.
Qed.

Lemma personality_traits_total_witness :
  exists t,
    Visualizer._calculate_personality_traits
      (<["total_events" := 0%Q]> (<["total_clicks" := 5%Q]> ∅)) [] = Ok t /\
    Visualizer.decisiveness t = Visualizer.Observer.
Proof.
  destruct (personality_traits_total
              (<["total_events" := 0%Q]> (<["total_clicks" := 5%Q]> ∅)) [])
    as (t & Ht & _ & Hobs & _).
  exists t. split; [exact Ht|]. apply Hobs. vm_compute. discriminate.
Defined.

Lemma aggregated_click_share (sqrt : Q -> Q) (data : list event) (gs : Z) :
  data = [] \/ gs <> 0%Z ->
  exists r,
    process_data sqrt data gs = Ok r /\
    total_events (stats r) = Z.of_nat (length data) /\
    total_clicks (stats r) = Z.of_nat (length (List.filter ev_click data)) /\
    (0 <= total_clicks (stats r) <= total_events (stats r))%Z.
Proof.
  intros Hcase.
  assert (Hex : exists r,
    process_data sqrt data gs = Ok r /\
    total_events (stats r) = Z.of_nat (length data) /\
    total_clicks (stats r) = Z.of_nat (length (List.filter ev_click data))).
  { destruct data as [|e data].
    - eexists. split; [reflexivity|]. now split.
    - destruct Hcase as [Hnil | Hgs]; [discriminate|].
      destruct (process_data_returns sqrt (e :: data) gs Hgs)
        as (r & Hr & Hev & Hcl & _).
      exists r. auto. }
  destruct Hex as (r & Hr & Hev & Hcl).
  exists r. split; [exact Hr|]. split; [exact Hev|]. split; [exact Hcl|].
  rewrite Hev, Hcl. pose proof (List.filter_length_le ev_click data). lia.
Qed.

(** X22.  The decisiveness shown for an aggregated stream depends on the
    share of click events alone: "Quick Decider" when more than one event
    in ten is a click, else "Thoughtful" when more than one in twenty is,
    else "Observer" (in particular for an empty stream). *)
Theorem decisiveness_from_click_share
    (sqrt : Q -> Q) (data : list event) (gs : Z) :
  data = [] \/ gs <> 0%Z ->
  exists r t,
    process_data sqrt data gs = Ok r /\
    Visualizer.profile r = Ok t /\
    Visualizer.decisiveness t
    = (let clicks := Z.of_nat (length (List.filter ev_click data)) in
       let events := Z.of_nat (length data) in
       if (events <? 10 * clicks)%Z then Visualizer.QuickDecider
       else if (events <? 20 * clicks)%Z then Visualizer.Thoughtful
       else Visualizer.Observer).
Proof.
  intros Hcase.
  destruct (aggregated_click_share sqrt data gs Hcase)
    as (r & Hr & Hev & Hcl & Hle).
  exists r. eexists. split; [exact Hr|].
  split; [apply (profile_of_stats r Hle)|].
  cbn [Visualizer.decisiveness]. now rewrite Hev, Hcl.
Qed.

Lemma decisiveness_from_click_share_witness :
  exists r t,
    process_data sqrt_approx
      [mk_event 0 0 0 false 0; mk_event 100 0 100 false 1;
       mk_event 100 0 0 true (101 # 100)] default_grid_size = Ok r /\
    Visualizer.profile r = Ok t /\
    Visualizer.decisiveness t = Visualizer.QuickDecider.
Proof.
  assert (Hgs : default_grid_size <> 0%Z) by discriminate.
  destruct (decisiveness_from_click_share sqrt_approx
              [mk_event 0 0 0 false 0; mk_event 100 0 100 false 1;
               mk_event 100 0 0 true (101 # 100)] default_grid_size
              (or_intror Hgs)) as (r & t & Hr & Ht & Hd).
  exists r, t. split; [exact Hr|]. split; [exact Ht | exact Hd].
Defined.

Lemma aggregated_bursts (sqrt : Q -> Q) (data : list event) (gs : Z) :
  data = [] \/ gs <> 0%Z ->
  exists r,
    process_data sqrt data gs = Ok r /\
    (0 <= total_clicks (stats r) <= total_events (stats r))%Z /\
    acceleration_bursts (stats r)
    = Z.of_nat
        (length (List.filter (Stats.speed_jump data 500)
                             (seq 1 (length data - 1)))).
Proof.
  intros Hcase.
  destruct (aggregated_click_share sqrt data gs Hcase)
    as (r & Hr & _ & _ & Hle).
  exists r. split; [exact Hr|]. split; [exact Hle|].
  destruct data as [|e0 data0].
  - cbn in Hr. now injection Hr as <-.
  - destruct Hcase as [Hnil | Hgs]; [discriminate|].
    destruct (process_data_stats sqrt e0 data0 gs Hgs)
      as (r' & s & Hr' & _ & _ & _ & _ & _ & _ & _ & Hb).
    rewrite Hr in Hr'. injection Hr' as <-. exact Hb.
Qed.

(** X23.  The energy shown for an aggregated stream follows the number of
    speed jumps above 500 between consecutive events, each jump measured by
    the rounded difference the float subtraction returns: "High Energy"
    above ten, "Moderate" above five, else "Calm".  A stream of at most six
    events is always "Calm", and one of at most eleven is never
    "High Energy". *)
Theorem energy_from_speed_jumps
    (sqrt : Q -> Q) (data : list event) (gs : Z) :
  data = [] \/ gs <> 0%Z ->
  exists r t,
    process_data sqrt data gs = Ok r /\
    Visualizer.profile r = Ok t /\
    Visualizer.energy t
    = (let jumps :=
         Z.of_nat (length (List.filter (Stats.speed_jump data 500)
                                       (seq 1 (length data - 1)))) in
       if (10 <? jumps)%Z then Visualizer.HighEnergy
       else if (5 <? jumps)%Z then Visualizer.ModerateEnergy
       else Visualizer.Calm) /\
    ((length data <= 6)%nat -> Visualizer.energy t = Visualizer.Calm) /\
    ((length data <= 11)%nat -> Visualizer.energy t <> Visualizer.HighEnergy).
Proof.
  intros Hcase.
  destruct (aggregated_bursts sqrt data gs Hcase) as (r & Hr & Hle & Hb).
  exists r. eexists. split; [exact Hr|].
  split; [apply (profile_of_stats r Hle)|].
  cbn [Visualizer.energy]. rewrite Hb. cbv zeta.
  pose proof (List.filter_length_le (Stats.speed_jump data 500)
                (seq 1 (length data - 1))) as Hlen.
  rewrite length_seq in Hlen.
  set (jumps := length (List.filter (Stats.speed_jump data 500)
                                    (seq 1 (length data - 1)))) in *.
  split; [reflexivity|]. split.
  - intros Hshort.
    destruct (Z.ltb_spec 10 (Z.of_nat jumps)); [lia|].
    destruct (Z.ltb_spec 5 (Z.of_nat jumps)); [lia | reflexivity].
  - intros Hshort.
    destruct (Z.ltb_spec 10 (Z.of_nat jumps)); [lia|].
    destruct (Z.ltb_spec 5 (Z.of_nat jumps)); discriminate.
Qed.

Lemma energy_from_speed_jumps_witness :
  exists r t,
    process_data sqrt_approx
      [mk_event 0 0 100 false 0; mk_event 100 0 700 false 1] default_grid_size
    = Ok r /\
    Visualizer.profile r = Ok t /\
    Visualizer.energy t = Visualizer.Calm.
Proof.
  assert (Hgs : default_grid_size <> 0%Z) by discriminate.
  destruct (energy_from_speed_jumps sqrt_approx
              [mk_event 0 0 100 false 0; mk_event 100 0 700 false 1]
              default_grid_size (or_intror Hgs))
    as (r & t & Hr & Ht & _ & Hcalm & _).
  exists r, t. split; [exact Hr|]. split; [exact Ht|].
  apply Hcalm. cbn [length]. lia.
Defined.

(** X24.  The movement style shown for a non-empty aggregated stream
    follows the mean speed, so a stream whose speeds are all above 800 is
    "Fast & Direct", one whose speeds are all above 400 and at most 800 is
    "Balanced", and one whose speeds are all at most 400 is "Deliberate". *)
Theorem style_from_speed_range
    (sqrt : Q -> Q) (data : list event) (gs : Z) :
  data <> [] -> gs <> 0%Z ->
  exists r t,
    process_data sqrt data gs = Ok r /\
    Visualizer.profile r = Ok t /\
    (Forall (fun e => (800 < ev_speed e)%Q) data ->
     Visualizer.style t = Visualizer.FastDirect) /\
    (Forall (fun e => (400 < ev_speed e <= 800)%Q) data ->
     Visualizer.style t = Visualizer.Balanced) /\
    (Forall (fun e => (ev_speed e <= 400)%Q) data ->
     Visualizer.style t = Visualizer.Deliberate).
Proof.
  intros Hne Hgs.
  destruct (speed_statistics_facts sqrt data gs Hne Hgs)
    as (r & Hr & _ & Hmin & Hmax & _ & Havg).
  destruct (aggregated_click_share sqrt data gs (or_intror Hgs))
    as (r' & Hr' & _ & _ & Hle).
  rewrite Hr in Hr'. injection Hr' as <-.
  exists r. eexists. split; [exact Hr|].
  split; [apply (profile_of_stats r Hle)|].
  cbn [Visualizer.style].
  apply List.Exists_exists in Hmin, Hmax.
  destruct Hmin as (a & Hain & Ha). destruct Hmax as (b & Hbin & Hb).
  destruct Havg as [Hlo Hhi].
  split; [|split]; intros Hall; rewrite List.Forall_forall in Hall.
  - assert (H800 : (800 < avg_speed (stats r))%Q).
    { eapply Qlt_le_trans; [apply (Hall a Hain)|]. now rewrite <- Ha. }
    apply Qlt_bool_iff in H800. now rewrite H800.
  - destruct (Hall a Hain) as [Halo _]. destruct (Hall b Hbin) as [_ Hbhi].
    assert (H400 : (400 < avg_speed (stats r))%Q).
    { eapply Qlt_le_trans; [exact Halo|]. now rewrite <- Ha. }
    assert (H800 : (avg_speed (stats r) <= 800)%Q).
    { eapply Qle_trans; [exact Hhi|]. now rewrite Hb. }
    apply Qlt_bool_iff in H400. apply Qlt_bool_false_iff in H800.
    now rewrite H800, H400.
  - assert (H400 : (avg_speed (stats r) <= 400)%Q).
    { eapply Qle_trans; [exact Hhi|]. rewrite Hb. apply (Hall b Hbin). }
    assert (H800 : (avg_speed (stats r) <= 800)%Q).
    { eapply Qle_trans; [exact H400|]. discriminate. }
    apply Qlt_bool_false_iff in H400, H800. now rewrite H800, H400.
Qed.

Lemma style_from_speed_range_witness :
  exists r t,
    process_data sqrt_approx
      [mk_event 0 0 0 false 0; mk_event 100 0 100 false 1;
       mk_event 100 0 0 true (101 # 100)] default_grid_size = Ok r /\
    Visualizer.profile r = Ok t /\
    Visualizer.style t = Visualizer.Deliberate.
Proof.
  destruct (style_from_speed_range sqrt_approx
              [mk_event 0 0 0 false 0; mk_event 100 0 100 false 1;
               mk_event 100 0 0 true (101 # 100)] default_grid_size
              ltac:(discriminate) ltac:(discriminate))
    as (r & t & Hr & Ht & _ & _ & Hslow).
  exists r, t. split; [exact Hr|]. split; [exact Ht|].
  apply Hslow. repeat constructor; discriminate.
Defined.

(** ** The export and the session state *)

Lemma reachable_analysis_matches (sqrt : Q -> Q) (st : App.session_state) :
  App.reachable sqrt st -> JsonExport.analysis_matches_snapshot sqrt st.
Proof.
  unfold JsonExport.analysis_matches_snapshot.
  induction 1 as [|hook st _ IH|ns st _ IH|st _ _|st _ _].
  - reflexivity.
  - unfold App.start_recording.
    destruct (start hook (snd (clear_data (App.logger st)))) as [[u|e] l];
      exact IH.
  - exact IH.
  - destruct (stop_recording_outcome sqrt st) as (p & Hp & Hstop).
    rewrite Hstop. exact Hp.
  - reflexivity.
Qed.

(** X25.  In every session state the callbacks can reach (start, stop and
    clear in any order, with notifications in between, from the initial
    state), [export_json] returns [None] exactly when the snapshot is empty;
    otherwise it serialises the snapshot together with the statistics of
    the analysis of that same snapshot, never the empty dictionary, and the
    event count of the metadata equals [total_events] of the statistics. *)
Theorem export_json_consistent
    (sqrt : Q -> Q) (json_dumps : JsonExport.export_data -> string)
    (now_isoformat : string) (st : App.session_state) :
  App.reachable sqrt st ->
  (JsonExport.export_json json_dumps now_isoformat st = None
   <-> App.data st = []) /\
  (App.data st <> [] ->
   exists p,
     process_data sqrt (App.data st) default_grid_size = Ok p /\
     App.processed st = Some p /\
     JsonExport.export_json json_dumps now_isoformat st
     = Some (json_dumps
               {| JsonExport.metadata_export_time := now_isoformat;
                  JsonExport.metadata_total_events :=
                    total_events (stats p);
                  JsonExport.metadata_app := "SnapPosition";
                  JsonExport.statistics := Some (stats p);
                  JsonExport.events := App.data st |})).
Proof.
  intros Hreach. apply reachable_analysis_matches in Hreach.
  unfold JsonExport.analysis_matches_snapshot in Hreach.
  unfold JsonExport.export_json.
  destruct (App.data st) as [|e data] eqn:Hdata.
  - split; [tauto|]. intros H. now contradiction H.
  - split; [split; discriminate|]. intros _.
    destruct (App.processed st) as [p|]; [|discriminate].
    exists p. split; [exact Hreach|]. split; [reflexivity|].
    destruct (process_data_returns sqrt (e :: data) default_grid_size)
      as (p' & Hp' & Hev & _); [discriminate|].
    rewrite Hreach in Hp'. injection Hp' as <-.
    now rewrite Hev.
Qed.

Lemma export_json_consistent_witness :
  let st :=
    snd (App.stop_recording sqrt_approx
           (App.notifications_arrive sqrt_approx
              [Listener.Click 3 4 true 1]
              (snd (App.start_recording HookInstalled App.initial_session))))
  in
  App.reachable sqrt_approx st /\
  App.data st <> [] /\
  (JsonExport.export_json (fun _ => EmptyString) EmptyString st = None
   <-> App.data st = []).
Proof.
  intros st.
  assert (Hreach : App.reachable sqrt_approx st).
  { apply App.reach_stop, App.reach_arrive, App.reach_start,
      App.reach_initial. }
  split; [exact Hreach|]. split; [vm_compute; discriminate|].
  exact (proj1 (export_json_consistent sqrt_approx (fun _ => EmptyString) EmptyString
                  st Hreach)).
Defined.

(** ** The zones are the largest cells *)

Lemma filter_shorter_has_rejected {A} (f : A -> bool) (l : list A) :
  (length (List.filter f l) < length l)%nat ->
  exists x, In x l /\ f x = false.
Proof.
  induction l as [|a l IH]; cbn [List.filter length]; [lia|].
  destruct (f a) eqn:Ha.
  - cbn [length]. intros H. destruct IH as (x & Hx & Hfx); [lia|].
    exists x. split; [now right | exact Hfx].
  - intros _. exists a. split; [now left | exact Ha].
Qed.

Lemma unravelled_index_unique (cols i j : nat) :
  cols <> 0%nat ->
  (Z.of_nat (i mod cols), Z.of_nat (i / cols))
  = (Z.of_nat (j mod cols), Z.of_nat (j / cols)) ->
  i = j.
Proof.
  intros Hc H. injection H as Hmod Hdiv.
  apply Nat2Z.inj in Hmod, Hdiv.
  rewrite (Nat.div_mod_eq i cols), (Nat.div_mod_eq j cols).
  now rewrite Hmod, Hdiv.
Qed.

Lemma StronglySorted_app_In {A} (R : A -> A -> Prop) (l1 l2 : list A)
    (x y : A) :
  StronglySorted R (l1 ++ l2) -> In x l1 -> In y l2 -> R x y.
Proof.
  induction l1 as [|b l1 IH]; cbn [app]; intros Hs Hx Hy; [destruct Hx|].
  apply StronglySorted_inv in Hs. destruct Hs as [Hs Hb].
  destruct Hx as [-> | Hx]; [|now apply IH].
  rewrite List.Forall_forall in Hb. apply Hb, in_or_app. now right.
Qed.

Section TopZones.

Variable argsort : list Q -> list nat.
Hypothesis argsort_ok : is_argsort argsort.

Variable a : ndarray Q.
Hypothesis a_wf : nd_wf a.

Variable top_n : Z.

Local Abbreviation order := (reverse (argsort (nd_flat a))).
Local Abbreviation descending :=
  (fun i j : nat => (cell (nd_flat a) j <= cell (nd_flat a) i)%Q).

Lemma order_descending : StronglySorted descending order.
Proof using argsort_ok.
  apply (StronglySorted_reverse
           (fun i j => (cell (nd_flat a) i <= cell (nd_flat a) j)%Q)).
  apply argsort_ok.
Qed.

Lemma order_complete (idx : nat) :
  In idx order <-> (idx < nd_size a)%nat.
Proof using argsort_ok a_wf.
  destruct (argsort_ok (nd_flat a)) as [Hperm _].
  unfold nd_size. rewrite <- a_wf.
  split; intros H.
  - apply (Permutation_in _ (reverse_Permutation _)) in H.
    apply (Permutation_in _ Hperm), in_seq in H. lia.
  - apply (Permutation_in _ (Permutation_sym (reverse_Permutation _))).
    apply (Permutation_in _ (Permutation_sym Hperm)), in_seq. lia.
Qed.

Lemma order_NoDup : List.NoDup order.
Proof using argsort_ok.
  destruct (argsort_ok (nd_flat a)) as [Hperm _].
  apply (Permutation_NoDup (Permutation_sym (reverse_Permutation _))).
  apply (Permutation_NoDup (Permutation_sym Hperm)), seq_NoDup.
Qed.

Lemma take_before_drop (k i j : nat) :
  In i (take k order) -> In j (drop k order) -> descending i j.
Proof using argsort_ok.
  intros Hi Hj. pose proof order_descending as Hs.
  rewrite <- (take_drop k order) in Hs.
  exact (StronglySorted_app_In _ _ _ _ _ Hs Hi Hj).
Qed.

Lemma zone_of_taken_positive (k idx : nat) :
  In idx (take k order) ->
  is_positive (nd_flat a) idx = true ->
  In (zone_at a idx)
     (map (zone_at a)
          (List.filter (is_positive (nd_flat a)) (take k order))).
Proof.
  intros Hin Hpos. apply in_map, List.filter_In. now split.
Qed.

Lemma ranked_zones_largest (idx : nat) :
  (idx < nd_size a)%nat ->
  In (zone_at a idx) (ranked_zones argsort a top_n) \/
  Forall (fun z => (cell (nd_flat a) idx <= zone_dwell z)%Q)
         (ranked_zones argsort a top_n).
Proof using argsort_ok a_wf.
  intros Hidx. unfold ranked_zones.
  destruct (slice_to_take order top_n) as (k & -> & _).
  apply order_complete in Hidx.
  rewrite <- (take_drop k order) in Hidx.
  apply in_app_or in Hidx. destruct Hidx as [Htake | Hdrop].
  - destruct (is_positive (nd_flat a) idx) eqn:Hpos.
    + left. now apply zone_of_taken_positive.
    + right. apply List.Forall_map, List.Forall_forall.
      intros j Hj. apply List.filter_In in Hj. destruct Hj as [_ Hj].
      unfold is_positive in Hpos, Hj.
      apply Qlt_bool_false_iff in Hpos. apply Qlt_bool_iff in Hj.
      cbn [zone_dwell zone_at snd].
      eapply Qle_trans; [exact Hpos | now apply Qlt_le_weak].
  - right. apply List.Forall_map, List.Forall_forall.
    intros j Hj. apply List.filter_In in Hj. destruct Hj as [Hj _].
    cbn [zone_dwell zone_at snd].
    exact (take_before_drop k j idx Hj Hdrop).
Qed.

Lemma ranked_zones_distinct :
  List.NoDup (map fst (ranked_zones argsort a top_n)).
Proof using argsort_ok a_wf.
  unfold ranked_zones.
  destruct (slice_to_take order top_n) as (k & -> & _).
  rewrite map_map.
  assert (Hnd : List.NoDup
                  (List.filter (is_positive (nd_flat a)) (take k order))).
  { apply List.NoDup_filter.
    pose proof order_NoDup as H.
    rewrite <- (take_drop k order) in H.
    now apply NoDup_app_remove_r in H. }
  assert (Hrange : Forall (fun i => (i < nd_size a)%nat)
                     (List.filter (is_positive (nd_flat a)) (take k order))).
  { apply List.Forall_forall. intros i Hi.
    apply List.filter_In in Hi. destruct Hi as [Hi _].
    apply order_complete.
    rewrite <- (take_drop k order). apply in_or_app. now left. }
  induction Hnd as [|i l Hi Hnd IH]; cbn [map]; [constructor|].
  apply List.Forall_cons_iff in Hrange. destruct Hrange as [Hlt Hrange].
  constructor; [|now apply IH].
  intros Hin. apply in_map_iff in Hin. destruct Hin as (j & Hj & Hjl).
  cbn [zone_at fst] in Hj.
  assert (Hc : nd_cols a <> 0%nat) by (unfold nd_size in Hlt; nia).
  apply (unravelled_index_unique _ _ _ Hc) in Hj. now subst j.
Qed.

Lemma ranked_zones_short_complete (idx : nat) :
  (0 <= top_n)%Z ->
  (length (ranked_zones argsort a top_n) < Z.to_nat top_n)%nat ->
  (idx < nd_size a)%nat ->
  (0 < cell (nd_flat a) idx)%Q ->
  In (zone_at a idx) (ranked_zones argsort a top_n).
Proof using argsort_ok a_wf.
  intros Hn Hshort Hidx Hpos. revert Hshort. unfold ranked_zones, slice_to.
  destruct (Z.leb_spec 0 top_n); [|lia].
  set (k := Z.to_nat top_n). rewrite length_map. intros Hshort.
  apply order_complete in Hidx.
  rewrite <- (take_drop k order) in Hidx.
  apply in_app_or in Hidx. destruct Hidx as [Htake | Hdrop].
  - apply zone_of_taken_positive; [exact Htake|].
    now apply Qlt_bool_iff.
  - exfalso.
    assert (Hlong : (k < length order)%nat).
    { destruct (Nat.lt_ge_cases k (length order)) as [Hlt | Hge]; [exact Hlt|].
      rewrite (drop_ge _ _ Hge) in Hdrop. destruct Hdrop. }
    destruct (filter_shorter_has_rejected (is_positive (nd_flat a))
                (take k order)) as (j & Hj & Hfj).
    { rewrite length_take. lia. }
    pose proof (take_before_drop k j idx Hj Hdrop) as Hle.
    unfold is_positive in Hfj. apply Qlt_bool_false_iff in Hfj.
    apply (Qlt_irrefl 0).
    eapply Qlt_le_trans; [exact Hpos|].
    eapply Qle_trans; [exact Hle | exact Hfj].
Qed.

End TopZones.

(** X26.  On a well-formed hesitation grid and with any [argsort], the
    zones [get_hesitation_zones] returns are the largest cells: no cell is
    listed twice, and every cell of the grid is either listed or holds at
    most the dwell of every listed zone.  When fewer than [top_n] zones
    come back, every cell with a positive dwell is among them. *)
Theorem top_zones_are_largest_cells
    (argsort : list Q -> list nat) (processed : processed_data) (top_n : Z) :
  is_argsort argsort ->
  nd_wf (hesitation_map processed) ->
  exists zones,
    get_hesitation_zones argsort processed top_n = Ok zones /\
    List.NoDup (map fst zones) /\
    (forall idx,
       (idx < nd_size (hesitation_map processed))%nat ->
       In (zone_at (hesitation_map processed) idx) zones \/
       Forall (fun z =>
                 (cell (nd_flat (hesitation_map processed)) idx
                  <= zone_dwell z)%Q)
              zones) /\
    ((0 <= top_n)%Z ->
     (length zones < Z.to_nat top_n)%nat ->
     forall idx,
       (idx < nd_size (hesitation_map processed))%nat ->
       (0 < cell (nd_flat (hesitation_map processed)) idx)%Q ->
       In (zone_at (hesitation_map processed) idx) zones).
Proof.
  intros Hargsort Hwf.
  exists (ranked_zones argsort (hesitation_map processed) top_n).
  split; [now apply get_hesitation_zones_ranked|].
  split; [now apply ranked_zones_distinct|].
  split; [intros idx; now apply ranked_zones_largest|].
  intros Hn Hshort idx. now apply ranked_zones_short_complete.
Qed.

(** A 2 x 2 hesitation grid with two cells at 3, one at 1 and one at 0,
    and the two largest zones asked for: the cell at 1 is not listed and
    is below both zones. *)
Lemma top_zones_are_largest_cells_witness :
  let grid := mk_ndarray 2 2 [0; 3; 1; 3]%Q in
  let processed :=
    mk_processed np_empty grid [] [] [] _empty_stats default_grid_size
                 (0, 0, 0, 0)%Z in
  exists zones,
    get_hesitation_zones insertion_argsort processed 2 = Ok zones /\
    zones = [(1%Z, 1%Z, 3%Q); (1%Z, 0%Z, 3%Q)] /\
    Forall (fun z => (1 <= zone_dwell z)%Q) zones.
Proof.
  intros grid processed.
  destruct (top_zones_are_largest_cells insertion_argsort processed 2
              insertion_argsort_ok eq_refl)
    as (zones & Hget & _ & Hlargest & _).
  exists zones. split; [exact Hget|].
  assert (Hzones : zones = [(1%Z, 1%Z, 3%Q); (1%Z, 0%Z, 3%Q)]).
  { vm_compute in Hget. now injection Hget as <-. }
  split; [exact Hzones|].
  assert (Hidx : (2 < nd_size (hesitation_map processed))%nat)
    by (vm_compute; lia).
  destruct (Hlargest 2%nat Hidx) as [Hin | Hle].
  - exfalso. rewrite Hzones in Hin.
    destruct Hin as [H | [H | []]]; discriminate H.
  - exact Hle.
Defined.
